(** * OperaDemo: retrieval, chunking and answer validation

    A shallow embedding of the core of the repository:
    - [src/rag/document_processor.py]  (DocumentProcessor)
    - [src/rag/retriever.py]           (HybridRetriever)
    - [src/validation/validator.py]    (MultiStageValidator)
    - [src/rag/pipeline.py]            (RAGPipeline)

    Conventions of the embedding.
    - Python [str] is [string]: a sequence of code points below 256.  On that
      range [\d] is [0-9], [str.lower] touches [A-Z] and the Latin-1 capitals,
      and [str.split]/[str.strip] use the Latin-1 whitespace characters.
    - Python [int] is [Z]; lengths are [nat] and are injected where the source
      mixes them with signed arithmetic.
    - Python [float] is idealised as an exact rational [Q]: rounding, overflow
      and NaN are not represented.
    - External collaborators (pdfplumber, BM25Okapi, SentenceTransformer,
      numpy.argsort, the LLM provider) are section variables. *)

From Stdlib Require Import ZArith QArith Qminmax Lqa Lia Ascii String List.
From Stdlib Require Import DecimalString.
From stdpp Require Import base gmap sets list strings sorting.

Local Open Scope string_scope.
Local Open Scope Z_scope.

(** ** Python string primitives *)

Module Py.

Definition chars (s : string) : list ascii := list_ascii_of_string s.
Definition str (l : list ascii) : string := string_of_list_ascii l.

Definition code (c : ascii) : N := N_of_ascii c.

(** [str.isspace] on code points below 256. *)
Definition isspace (c : ascii) : bool :=
  let n := code c in
  ((9 <=? n) && (n <=? 13) || (28 <=? n) && (n <=? 32)
   || (n =? 133) || (n =? 160))%N.

Definition isdigit (c : ascii) : bool :=
  let n := code c in ((48 <=? n) && (n <=? 57))%N.

Definition isupper_ascii (c : ascii) : bool :=
  let n := code c in ((65 <=? n) && (n <=? 90))%N.

Definition islower_ascii (c : ascii) : bool :=
  let n := code c in ((97 <=? n) && (n <=? 122))%N.

(** [str.lower] on one code point below 256. *)
Definition lower_char (c : ascii) : ascii :=
  let n := code c in
  if ((65 <=? n) && (n <=? 90)
      || (192 <=? n) && (n <=? 222) && negb (n =? 215))%N
  then ascii_of_N (n + 32) else c.

Definition lower (s : string) : string := str (map lower_char (chars s)).

Definition len (s : string) : Z := Z.of_nat (String.length s).

(** [needle in hay] *)
Fixpoint is_prefix (p l : list ascii) : bool :=
  match p, l with
  | [], _ => true
  | _ :: _, [] => false
  | a :: p', b :: l' => if Ascii.eqb a b then is_prefix p' l' else false
  end.

Fixpoint contains_chars (p l : list ascii) : bool :=
  is_prefix p l ||
  match l with
  | [] => false
  | _ :: l' => contains_chars p l'
  end.

Definition contains (needle hay : string) : bool :=
  contains_chars (chars needle) (chars hay).

(** [str.split()] with no argument: maximal runs of non-whitespace. *)
Fixpoint split_chars (cur : list ascii) (l : list ascii) : list string :=
  match l with
  | [] => match cur with [] => [] | _ => [str (rev cur)] end
  | c :: l' =>
      if isspace c
      then match cur with
           | [] => split_chars [] l'
           | _ => str (rev cur) :: split_chars [] l'
           end
      else split_chars (c :: cur) l'
  end.

Definition split (s : string) : list string := split_chars [] (chars s).

(** [sep.join(parts)] *)
Fixpoint join (sep : string) (parts : list string) : string :=
  match parts with
  | [] => ""
  | [p] => p
  | p :: rest => p ++ sep ++ join sep rest
  end.

(** [str.strip()] *)
Fixpoint lstrip_chars (l : list ascii) : list ascii :=
  match l with
  | c :: l' => if isspace c then lstrip_chars l' else l
  | [] => []
  end.

Definition strip (s : string) : string :=
  str (rev (lstrip_chars (rev (lstrip_chars (chars s))))).

(** [str.replace(old, "")] for a one-character [old]. *)
Definition remove_char (c : ascii) (s : string) : string :=
  str (List.filter (fun d => negb (Ascii.eqb c d)) (chars s)).

(** Index normalisation of a slice bound against a sequence of length [n]. *)
Definition clamp (n i : Z) : Z :=
  if i <? 0 then Z.max (i + n) 0 else Z.min i n.

(** [l[start:stop]] *)
Definition slice {A} (l : list A) (start stop : Z) : list A :=
  let n := Z.of_nat (length l) in
  let a := clamp n start in
  let b := clamp n stop in
  take (Z.to_nat (b - a)) (drop (Z.to_nat a) l).

(** [l[start:]] *)
Definition slice_from {A} (l : list A) (start : Z) : list A :=
  drop (Z.to_nat (clamp (Z.of_nat (length l)) start)) l.

Definition substr (s : string) (start stop : Z) : string :=
  str (slice (chars s) start stop).

(** [hay.rfind(needle)]: highest index of an occurrence, or -1. *)
Fixpoint rfind_chars (p l : list ascii) (i : Z) : Z :=
  match l with
  | [] => if is_prefix p [] then i else -1
  | _ :: l' =>
      let r := rfind_chars p l' (i + 1) in
      if 0 <=? r then r else if is_prefix p l then i else -1
  end.

Definition rfind (needle hay : string) : Z :=
  rfind_chars (chars needle) (chars hay) 0.

(** Python's two-argument [max] and [min] (the first argument wins ties). *)
Definition qmax (a b : Q) : Q := if Qlt_le_dec a b then b else a.
Definition qmin (a b : Q) : Q := if Qlt_le_dec b a then b else a.

(** [list.append] and [list.extend], on immutable lists. *)
Definition append {A} (l : list A) (x : A) : list A := (l ++ [x])%list.
Definition extend {A} (l l' : list A) : list A := (l ++ l')%list.

Definition qge (a b : Q) : bool := Qle_bool b a.
Definition qgt (a b : Q) : bool := negb (Qle_bool a b).

End Py.

(** ** Regular expressions ([re]) *)

Module Re.

Inductive regex :=
| Chr (p : ascii -> bool)
| Eps
| Seq (r1 r2 : regex)
| Alt (r1 r2 : regex)
| Star (r : regex).

Definition Plus (r : regex) : regex := Seq r (Star r).
Definition Opt (r : regex) : regex := Alt r Eps.
Definition Lit (c : ascii) : regex := Chr (Ascii.eqb c).

(** Backtracking matcher with the priorities of [re]: alternatives left to
    right, repetitions greedy.  [k] is the continuation run on the rest of the
    text; the result is the text left after the whole match. *)
Fixpoint rmatch (r : regex) (s : list ascii)
    (k : list ascii -> option (list ascii)) : option (list ascii) :=
  match r with
  | Chr p =>
      match s with
      | c :: s' => if p c then k s' else None
      | [] => None
      end
  | Eps => k s
  | Seq a b => rmatch a s (fun s' => rmatch b s' k)
  | Alt a b =>
      match rmatch a s k with
      | Some x => Some x
      | None => rmatch b s k
      end
  | Star a =>
      (fix star (n : nat) (s : list ascii) : option (list ascii) :=
         match n with
         | O => k s
         | S n' =>
             match rmatch a s
                     (fun s' => if (length s' <? length s)%nat
                                then star n' s' else None) with
             | Some x => Some x
             | None => k s
             end
         end) (length s) s
  end.

Definition match_at (r : regex) (s : list ascii) : option (list ascii) :=
  rmatch r s Some.

(** [re.search(r, s)] as a truth value. *)
Fixpoint search_chars (r : regex) (s : list ascii) : bool :=
  match match_at r s with
  | Some _ => true
  | None =>
      match s with
      | [] => false
      | _ :: s' => search_chars r s'
      end
  end.

Definition search (r : regex) (s : string) : bool :=
  search_chars r (Py.chars s).

(** [re.findall(r, s)] for a pattern without capturing groups: the matched
    substrings, scanning left to right without overlap. *)
Fixpoint findall_chars (fuel : nat) (r : regex) (s : list ascii) : list string :=
  match fuel with
  | O => []
  | S fuel' =>
      match match_at r s with
      | Some rest =>
          let m := take (length s - length rest) s in
          match m, s with
          | [], [] => [Py.str m]
          | [], _ :: s' => Py.str m :: findall_chars fuel' r s'
          | _ :: _, _ => Py.str m :: findall_chars fuel' r rest
          end
      | None =>
          match s with
          | [] => []
          | _ :: s' => findall_chars fuel' r s'
          end
      end
  end.

Definition findall (r : regex) (s : string) : list string :=
  let l := Py.chars s in findall_chars (S (length l)) r l.

Definition digit : regex := Chr Py.isdigit.
Definition upper : regex := Chr Py.isupper_ascii.
Definition lowerc : regex := Chr Py.islower_ascii.

End Re.

(** ** Results of a retrieval, as seen by the validator

    [HybridRetriever.retrieve] returns dictionaries; the three scores are
    present only when [return_scores] is set, and the validator reads every
    key through [dict.get] with a default. *)

Record DocumentChunk := {
  text : string;
  source : string;
  page : Z;
  chunk_id : Z;
  char_start : Z;      (* metadata["char_start"] *)
  char_end : Z;        (* metadata["char_end"] *)
  chunk_length : Z     (* metadata["chunk_length"] *)
}.

Record RetrievedChunk := {
  r_chunk : option DocumentChunk;
  r_text : option string;
  r_source : option string;
  r_page : option Z;
  r_chunk_id : option Z;
  r_combined_score : option Q;
  r_bm25_score : option Q;
  r_dense_score : option Q
}.

(** [chunk.get("text", "")] and [chunk.get("combined_score", 0.0)] *)
Definition get_text (c : RetrievedChunk) : string := default "" (r_text c).
Definition get_combined_score (c : RetrievedChunk) : Q :=
  default 0%Q (r_combined_score c).

(** ** validation/validator.py *)

Module Validator.
Import Re.

Inductive ValidationLevel := HIGH | MEDIUM | LOW | FAILED.

#[global] Instance ValidationLevel_eq_dec : EqDecision ValidationLevel.
Proof. solve_decision. Defined.

Record HallucinationCheck := {
  likely_hallucination : bool;
  indicators : list string;
  h_confidence : Q
}.

Record NumericalCheck := {
  has_numbers : bool;
  validated : bool;
  answer_numbers : option (list string);
  matched_count : option nat;
  total_count : option nat
}.

Record Details := {
  d_retrieval_score : Q;
  d_alignment_score : Q;
  d_hallucination_indicators : HallucinationCheck;
  d_numerical_accuracy : NumericalCheck
}.

Record ValidationResult := {
  level : ValidationLevel;
  confidence_score : Q;
  passed_checks : list string;
  failed_checks : list string;
  warnings : list string;
  details : Details
}.

Definition is_safe_to_use (r : ValidationResult) : bool :=
  bool_decide (level r = HIGH) || bool_decide (level r = MEDIUM).

Record MultiStageValidator := {
  retrieval_threshold : Q;
  alignment_threshold : Q;
  min_confidence : Q
}.

(** The constructor's defaults. *)
Definition default_validator : MultiStageValidator :=
  {| retrieval_threshold := 3 # 10;
     alignment_threshold := 5 # 10;
     min_confidence := 6 # 10 |}.

(** [sum(scores)] starting from 0, and the quotient by a count. *)
Definition qsum (l : list Q) : Q := fold_left Qplus l 0%Q.
Definition qnat (n : nat) : Q := inject_Z (Z.of_nat n).

(** Stage 1.  [sum(scores) / len(scores)] is taken over exact rationals; the
    float the source returns can differ from this mean in its last bits. *)
Definition _check_retrieval_quality (retrieved_chunks : list RetrievedChunk) : Q :=
  match retrieved_chunks with
  | [] => 0%Q
  | _ =>
      let scores := map get_combined_score retrieved_chunks in
      match scores with
      | [] => 0%Q
      | _ => (qsum scores / qnat (length scores))%Q
      end
  end.

(** The text all sources are searched in: [" ".join(c.get("text", "") ...)] *)
Definition source_text_of (retrieved_chunks : list RetrievedChunk) : string :=
  Py.join " " (map get_text retrieved_chunks).

Definition token_set (s : string) : gset string :=
  list_to_set (Py.split (Py.lower s)).

(** Stage 2 *)
Definition _check_source_alignment (answer : string)
    (retrieved_chunks : list RetrievedChunk) : Q :=
  match retrieved_chunks, answer with
  | [], _ => 0%Q
  | _, EmptyString => 0%Q
  | _, _ =>
      let answer_tokens := token_set answer in
      let source_tokens := token_set (source_text_of retrieved_chunks) in
      if decide (size answer_tokens = 0%nat) then 0%Q
      else
        let overlap := answer_tokens ∩ source_tokens in
        (qnat (size overlap) / qnat (size answer_tokens))%Q
  end.

(** [\d+\.?\d*%] *)
Definition re_percent : regex :=
  Seq (Plus digit) (Seq (Opt (Lit ".")) (Seq (Star digit) (Lit "%"))).

(** [\$\d+] *)
Definition re_dollars : regex := Seq (Lit "$") (Plus digit).

(** [[A-Z][a-z]+ \d{1,2}, \d{4}] *)
Definition re_date : regex :=
  Seq upper (Seq (Plus lowerc) (Seq (Lit " ")
    (Seq digit (Seq (Opt digit) (Seq (Lit ",") (Seq (Lit " ")
      (Seq digit (Seq digit (Seq digit digit))))))))).

(** [\d+\.?\d*%|\$\d+|[A-Z][a-z]+ \d{1,2}, \d{4}] *)
Definition re_specifics : regex := Alt re_percent (Alt re_dollars re_date).

Definition msg_contradiction : string :=
  "Contradictory: Claims no info but provides detail".
Definition msg_unsupported : string :=
  "Specific claims without source attribution".
Definition msg_length : string :=
  "Answer length exceeds reasonable extraction ratio".

(** The three tests of stage 3, in source order. *)
Definition contradiction_indicator (answer : string) : bool :=
  (Py.contains "cannot find" (Py.lower answer)
   || Py.contains "not available" (Py.lower answer))
  && (20 <? length (Py.split answer))%nat.

Definition has_specifics (answer : string) : bool := Re.search re_specifics answer.
Definition has_citations (answer : string) : bool :=
  Py.contains "Source" answer || Py.contains "According to" answer.

Definition specificity_indicator (answer : string)
    (retrieved_chunks : list RetrievedChunk) : bool :=
  has_specifics answer && negb (has_citations answer)
  && (0 <? length retrieved_chunks)%nat.

Definition source_length (retrieved_chunks : list RetrievedChunk) : Z :=
  fold_left Z.add (map (fun c => Py.len (get_text c)) retrieved_chunks) 0.

Definition length_indicator (answer : string)
    (retrieved_chunks : list RetrievedChunk) : bool :=
  match retrieved_chunks with
  | [] => false
  | _ => Py.qgt (inject_Z (Py.len answer))
                (inject_Z (source_length retrieved_chunks) * (5 # 10))
  end.

(** Stage 3 *)
Definition _detect_hallucination (answer : string)
    (retrieved_chunks : list RetrievedChunk) : HallucinationCheck :=
  let indicators := [] in
  let likely_hallucination := false in
  let '(indicators, likely_hallucination) :=
    if contradiction_indicator answer
    then (Py.append indicators msg_contradiction, true)
    else (indicators, likely_hallucination) in
  let indicators :=
    if specificity_indicator answer retrieved_chunks
    then Py.append indicators msg_unsupported else indicators in
  let indicators :=
    if length_indicator answer retrieved_chunks
    then Py.append indicators msg_length else indicators in
  let likely_hallucination :=
    if (2 <=? length indicators)%nat then true else likely_hallucination in
  {| likely_hallucination := likely_hallucination;
     indicators := indicators;
     h_confidence := (1 - qnat (length indicators) * (3 # 10))%Q |}.

(** How many of the three indicators of stage 3 are matched. *)
Definition matched_indicators (answer : string)
    (retrieved_chunks : list RetrievedChunk) : nat :=
  (Nat.b2n (contradiction_indicator answer)
   + Nat.b2n (specificity_indicator answer retrieved_chunks)
   + Nat.b2n (length_indicator answer retrieved_chunks))%nat.

(** [\$\d+(?:,\d{3})*(?:\.\d{2})?] *)
Definition re_currency : regex :=
  Seq (Lit "$") (Seq (Plus digit)
    (Seq (Star (Seq (Lit ",") (Seq digit (Seq digit digit))))
         (Opt (Seq (Lit ".") (Seq digit digit))))).

(** [\d+\.?\d*] *)
Definition re_decimal : regex :=
  Seq (Plus digit) (Seq (Opt (Lit ".")) (Star digit)).

Definition _extract_numbers (text : string) : list string :=
  let patterns := [re_percent; re_currency; re_decimal] in
  fold_left (fun numbers pattern => Py.extend numbers (Re.findall pattern text))
            patterns [].

(** [num in source_numbers] *)
Definition str_in (x : string) (l : list string) : bool := bool_decide (x ∈ l).

(** Stage 4 *)
Definition _check_numerical_accuracy (answer : string)
    (retrieved_chunks : list RetrievedChunk) : NumericalCheck :=
  let answer_numbers := _extract_numbers answer in
  match answer_numbers with
  | [] =>
      {| has_numbers := false; validated := true;
         answer_numbers := None; matched_count := None; total_count := None |}
  | _ =>
      let source_text := source_text_of retrieved_chunks in
      let source_numbers := _extract_numbers source_text in
      let validated := forallb (fun num => str_in num source_numbers) answer_numbers in
      {| has_numbers := true;
         validated := validated;
         answer_numbers := Some answer_numbers;
         matched_count :=
           Some (length (List.filter (fun num => str_in num source_numbers) answer_numbers));
         total_count := Some (length answer_numbers) |}
  end.

Definition _calculate_confidence (retrieval_score alignment_score : Q)
    (passed_count failed_count : nat) : Q :=
  let confidence :=
    ((3 # 10) * retrieval_score + (3 # 10) * alignment_score
     + (4 # 10) * (qnat passed_count
                   / qnat (Nat.max (passed_count + failed_count) 1)))%Q in
  Py.qmin 1 (Py.qmax 0 confidence).

Definition critical_failures : gset string :=
  {[ "retrieval_quality"; "numerical_accuracy" ]}.

Definition _determine_validation_level (self : MultiStageValidator)
    (confidence_score : Q) (failed_checks : list string) : ValidationLevel :=
  let has_critical_failure :=
    bool_decide ((list_to_set failed_checks : gset string) ∩ critical_failures ≠ ∅) in
  if has_critical_failure then FAILED
  else if Py.qge confidence_score (min_confidence self) then HIGH
  else if Py.qge confidence_score (4 # 10) then MEDIUM
  else LOW.

Section Validate.

(** Rendering of [f"{x:.2f}"], used only in a warning text. *)
Variable format_2f : Q -> string.

Definition validate (self : MultiStageValidator) (query answer : string)
    (retrieved_chunks : list RetrievedChunk) : ValidationResult :=
  let passed_checks := [] in
  let failed_checks := [] in
  let warnings := [] in
  let retrieval_score := _check_retrieval_quality retrieved_chunks in
  let '(passed_checks, failed_checks, warnings) :=
    if Py.qge retrieval_score (retrieval_threshold self)
    then (Py.append passed_checks "retrieval_quality", failed_checks, warnings)
    else (passed_checks, Py.append failed_checks "retrieval_quality",
          Py.append warnings ("Low retrieval quality (score: "
                                ++ format_2f retrieval_score ++ ")")) in
  let alignment_score := _check_source_alignment answer retrieved_chunks in
  let '(passed_checks, failed_checks, warnings) :=
    if Py.qge alignment_score (alignment_threshold self)
    then (Py.append passed_checks "source_alignment", failed_checks, warnings)
    else (passed_checks, Py.append failed_checks "source_alignment",
          Py.append warnings "Answer may not be well-supported by sources") in
  let hallucination_check := _detect_hallucination answer retrieved_chunks in
  let '(passed_checks, failed_checks, warnings) :=
    if negb (likely_hallucination hallucination_check)
    then (Py.append passed_checks "hallucination_check", failed_checks, warnings)
    else (passed_checks, Py.append failed_checks "hallucination_check",
          Py.extend warnings (indicators hallucination_check)) in
  let numerical_check := _check_numerical_accuracy answer retrieved_chunks in
  let '(passed_checks, failed_checks, warnings) :=
    if has_numbers numerical_check
    then if validated numerical_check
         then (Py.append passed_checks "numerical_accuracy", failed_checks, warnings)
         else (passed_checks, Py.append failed_checks "numerical_accuracy",
               Py.append warnings "Numbers in answer may not match source documents")
    else (passed_checks, failed_checks, warnings) in
  let confidence_score :=
    _calculate_confidence retrieval_score alignment_score
      (length passed_checks) (length failed_checks) in
  let level := _determine_validation_level self confidence_score failed_checks in
  {| level := level;
     confidence_score := confidence_score;
     passed_checks := passed_checks;
     failed_checks := failed_checks;
     warnings := warnings;
     details := {| d_retrieval_score := retrieval_score;
                   d_alignment_score := alignment_score;
                   d_hallucination_indicators := hallucination_check;
                   d_numerical_accuracy := numerical_check |} |}.

End Validate.

End Validator.

(** ** rag/document_processor.py *)

Module Chunker.

Record DocumentProcessor := {
  chunk_size : Z;
  chunk_overlap : Z
}.

(** The constructor's defaults. *)
Definition default_processor : DocumentProcessor :=
  {| chunk_size := 800; chunk_overlap := 200 |}.

Definition newline : string := String (ascii_of_nat 10) "".
Definition nul : ascii := ascii_of_nat 0.

Definition _clean_text (text : string) : string :=
  let text := Py.join " " (Py.split text) in
  let text := Py.remove_char nul text in
  Py.strip text.

(** The window taken at [start]: its text and its end offset, after the
    optional cut at the last sentence end or newline. *)
Definition window (self : DocumentProcessor) (text : string) (start : Z)
  : string * Z :=
  let end_ := start + chunk_size self in
  let chunk_text := Py.substr text start end_ in
  if end_ <? Py.len text then
    let last_period := Py.rfind ". " chunk_text in
    let last_newline := Py.rfind newline chunk_text in
    let break_point := Z.max last_period last_newline in
    if chunk_size self - 200 <? break_point then
      let chunk_text := Py.substr chunk_text 0 (break_point + 1) in
      (chunk_text, start + Py.len chunk_text)
    else (chunk_text, end_)
  else (chunk_text, end_).

(** The [while] loop of [_create_chunks]; [None] when [fuel] iterations do
    not reach the exit. *)
Fixpoint chunk_loop (self : DocumentProcessor) (text source : string)
    (page : Z) (fuel : nat) (start chunk_id : Z) (chunks : list DocumentChunk)
  : option (list DocumentChunk) :=
  match fuel with
  | O => None
  | S fuel' =>
      if start <? Py.len text then
        let '(chunk_text, end_) := window self text start in
        let chunk :=
          {| text := Py.strip chunk_text;
             source := source;
             page := page;
             chunk_id := chunk_id;
             char_start := start;
             char_end := end_;
             chunk_length := Py.len chunk_text |} in
        let chunks := Py.append chunks chunk in
        let chunk_id := chunk_id + 1 in
        let start := end_ - chunk_overlap self in
        if (Py.len text <=? start) || (Py.len text <=? end_)
        then Some chunks
        else chunk_loop self text source page fuel' start chunk_id chunks
      else Some chunks
  end.

(** One iteration per character is enough whenever every iteration moves
    [start] forward (see [chunk_loop_total]). *)
Definition _create_chunks (self : DocumentProcessor) (text source : string)
    (page : Z) : option (list DocumentChunk) :=
  chunk_loop self text source page (S (String.length text)) 0 0 [].

(** The shape of the chunk list produced from offset [start] with first id
    [id]: each chunk starts where the previous one ended minus the overlap,
    ids count up by one, every chunk but the last ends inside the text, and
    each chunk holds the stripped text of its range. *)
Definition chunk_of (self : DocumentProcessor) (page_text src : string) (pg : Z)
    (start id : Z) (c : DocumentChunk) : Prop :=
  char_start c = start
  ∧ chunk_id c = id
  ∧ source c = src
  ∧ page c = pg
  ∧ start + chunk_size self - 198 ≤ char_end c ≤ start + chunk_size self
  ∧ text c = Py.strip (Py.substr page_text start (char_end c))
  ∧ chunk_length c = Py.len (Py.substr page_text start (char_end c)).

Inductive chain (self : DocumentProcessor) (page_text src : string) (pg : Z)
  : Z → Z → list DocumentChunk → Prop :=
| chain_last start id c :
    chunk_of self page_text src pg start id c →
    Py.len page_text ≤ char_end c →
    chain self page_text src pg start id [c]
| chain_more start id c rest :
    chunk_of self page_text src pg start id c →
    char_end c < Py.len page_text →
    chain self page_text src pg (char_end c - chunk_overlap self) (id + 1) rest →
    chain self page_text src pg start id (c :: rest).

(** What pdfplumber yields for one page: the extracted text (possibly
    [None]), or an exception. *)
Inductive PageExtract :=
| Extracted (t : option string)
| Raises.

Section Files.

(** [os.path.basename], [pdfplumber.open] ([None]: the open raises) and
    [Path(directory).glob("*.pdf")]. *)
Variable basename : string -> string.
Variable pdf_open : string -> option (list PageExtract).
Variable glob_pdf : string -> list string.

(** The [for page_num, page in enumerate(pdf.pages, 1)] loop; an exception
    leaves the chunks gathered so far. *)
Fixpoint process_pages (self : DocumentProcessor) (source : string)
    (pages : list PageExtract) (page_num : Z) (chunks : list DocumentChunk)
  : option (list DocumentChunk) :=
  match pages with
  | [] => Some chunks
  | Raises :: _ => Some chunks
  | Extracted None :: rest
  | Extracted (Some EmptyString) :: rest =>
      process_pages self source rest (page_num + 1) chunks
  | Extracted (Some text) :: rest =>
      let text := _clean_text text in
      match _create_chunks self text source page_num with
      | None => None
      | Some page_chunks =>
          process_pages self source rest (page_num + 1)
            (Py.extend chunks page_chunks)
      end
  end.

Definition process_pdf (self : DocumentProcessor) (pdf_path : string)
  : option (list DocumentChunk) :=
  match pdf_open pdf_path with
  | None => Some []
  | Some pages => process_pages self (basename pdf_path) pages 1 []
  end.

Fixpoint process_files (self : DocumentProcessor) (pdf_files : list string)
    (all_chunks : list DocumentChunk) : option (list DocumentChunk) :=
  match pdf_files with
  | [] => Some all_chunks
  | pdf_path :: rest =>
      match process_pdf self pdf_path with
      | None => None
      | Some chunks => process_files self rest (Py.extend all_chunks chunks)
      end
  end.

Definition process_directory (self : DocumentProcessor) (directory : string)
  : option (list DocumentChunk) :=
  process_files self (glob_pdf directory) [].

End Files.

End Chunker.

(** ** rag/retriever.py *)

Module Retriever.

(** Minimum and maximum of a non-empty array. *)
Definition arr_min (x : Q) (l : list Q) : Q := fold_left Qmin l x.
Definition arr_max (x : Q) (l : list Q) : Q := fold_left Qmax l x.

Definition _normalize_scores (scores : list Q) : list Q :=
  match scores with
  | [] => scores
  | x :: rest =>
      let min_score := arr_min x rest in
      let max_score := arr_max x rest in
      if Qeq_bool (max_score - min_score) 0
      then map (fun _ => 1%Q) scores
      else map (fun s => ((s - min_score) / (max_score - min_score))%Q) scores
  end.

(** All scores of the array are equal. *)
Definition constant (scores : list Q) : Prop :=
  ∀ a b, a ∈ scores → b ∈ scores → (a == b)%Q.

(** A stable insertion sort of the indices by ascending score: one of the
    orders [numpy.argsort] may return. *)
Fixpoint insert_index (scores : list Q) (i : nat) (sorted : list nat) : list nat :=
  match sorted with
  | [] => [i]
  | j :: rest =>
      if Py.qgt (nth j scores 0%Q) (nth i scores 0%Q)
      then i :: j :: rest
      else j :: insert_index scores i rest
  end.

Definition insertion_argsort (scores : list Q) : list nat :=
  fold_left (fun sorted i => insert_index scores i sorted)
            (seq 0 (length scores)) [].

(** Index [a] does not score higher than index [b]. *)
Definition by_score (scores : list Q) (a b : nat) : Prop :=
  (nth a scores 0 <= nth b scores 0)%Q.

Section Retriever.

(** The embedding model, cosine similarity, the BM25 scorer over a tokenised
    corpus, and [numpy.argsort]. *)
Variable embedding : Type.
Variable encode : string -> embedding.
Variable cosine_similarity : embedding -> embedding -> Q.
Variable bm25_get_scores : list (list string) -> list string -> list Q.
Variable argsort : list Q -> list nat.

Record HybridRetriever := {
  bm25_weight : Q;
  dense_weight : Q;
  chunks : list DocumentChunk;
  chunk_embeddings : option (list embedding);
  bm25 : option (list (list string))     (* BM25Okapi(tokenized_corpus) *)
}.

(** The state built by [__init__], with the default weights. *)
Definition new_retriever : HybridRetriever :=
  {| bm25_weight := 5 # 10; dense_weight := 5 # 10;
     chunks := []; chunk_embeddings := None; bm25 := None |}.

Definition chunk_key (c : DocumentChunk) : string * Z := (source c, chunk_id c).

(** The key of [c] is not among the keys of the chunks in [existing]. *)
Definition fresh_for (existing : list DocumentChunk) (c : DocumentChunk) : bool :=
  bool_decide (chunk_key c ∉ map chunk_key existing).

Definition index_documents (self : HybridRetriever)
    (incoming : list DocumentChunk) (append : bool) : HybridRetriever :=
  match incoming with
  | [] => self
  | _ =>
      let chunks' :=
        if append && negb (bool_decide (chunks self = []))
        then
          let existing_ids : gset (string * Z) :=
            list_to_set (map chunk_key (chunks self)) in
          let new_chunks :=
            List.filter (fun c => bool_decide (chunk_key c ∉ existing_ids)) incoming in
          (chunks self ++ new_chunks)%list
        else incoming in
      let texts := map text chunks' in
      let tokenized_corpus := map Py.split texts in
      {| bm25_weight := bm25_weight self;
         dense_weight := dense_weight self;
         chunks := chunks';
         chunk_embeddings := Some (map encode texts);
         bm25 := Some tokenized_corpus |}
  end.

(** The index structures are aligned with the chunk list; [index_documents]
    establishes this. *)
Definition aligned (self : HybridRetriever) : Prop :=
  chunks self = [] ∨
  (bm25 self = Some (map Py.split (map text (chunks self)))
   ∧ chunk_embeddings self = Some (map encode (map text (chunks self)))).

Definition combine_scores (self : HybridRetriever)
    (bm25_scores_norm dense_scores_norm : list Q) : list Q :=
  zip_with (fun b d => (bm25_weight self * b + dense_weight self * d)%Q)
           bm25_scores_norm dense_scores_norm.

(** One result dictionary. *)
Definition result_row (self : HybridRetriever) (return_scores : bool)
    (combined_scores bm25_scores_norm dense_scores_norm : list Q) (idx : nat)
  : option RetrievedChunk :=
  chunk ← chunks self !! idx;
  c ← combined_scores !! idx;
  b ← bm25_scores_norm !! idx;
  d ← dense_scores_norm !! idx;
  Some {| r_chunk := Some chunk;
          r_text := Some (text chunk);
          r_source := Some (source chunk);
          r_page := Some (page chunk);
          r_chunk_id := Some (chunk_id chunk);
          r_combined_score := if return_scores then Some c else None;
          r_bm25_score := if return_scores then Some b else None;
          r_dense_score := if return_scores then Some d else None |}.

(** [np.argsort(combined_scores)[-top_k:][::-1]] *)
Definition top_indices_of (combined_scores : list Q) (top_k : Z) : list nat :=
  reverse (Py.slice_from (argsort combined_scores) (- top_k)).

Definition retrieve (self : HybridRetriever) (query : string) (top_k : Z)
    (return_scores : bool) : list RetrievedChunk :=
  match chunks self, bm25 self with
  | [], _ | _, None => []
  | _, Some corpus =>
      let tokenized_query := Py.split query in
      let bm25_scores := bm25_get_scores corpus tokenized_query in
      let query_embedding := encode query in
      let dense_scores :=
        map (cosine_similarity query_embedding)
            (default [] (chunk_embeddings self)) in
      let bm25_scores_norm := _normalize_scores bm25_scores in
      let dense_scores_norm := _normalize_scores dense_scores in
      let combined_scores :=
        combine_scores self bm25_scores_norm dense_scores_norm in
      let top_indices := top_indices_of combined_scores top_k in
      omap (result_row self return_scores combined_scores
              bm25_scores_norm dense_scores_norm) top_indices
  end.

End Retriever.

Arguments bm25_weight {embedding} _.
Arguments dense_weight {embedding} _.
Arguments chunks {embedding} _.
Arguments chunk_embeddings {embedding} _.
Arguments bm25 {embedding} _.
Arguments index_documents {embedding} encode self incoming append.
Arguments aligned {embedding} encode self.
Arguments combine_scores {embedding} self _ _.
Arguments result_row {embedding} self return_scores _ _ _ idx.
Arguments retrieve {embedding} encode cosine_similarity bm25_get_scores argsort
  self query top_k return_scores.

End Retriever.

(** ** rag/pipeline.py *)

Module Pipeline.
Import Validator Chunker Retriever.

(** [llm/base_provider.py]: the fields of [LLMResponse] the pipeline reads. *)
Record LLMResponse := {
  llm_text : string;
  llm_model : string;
  llm_tokens_used : option Z
}.

(** Values stored in the free-form [metadata] dictionary. *)
Inductive MetaValue :=
| MStr (s : string)
| MInt (n : Z)
| MFloat (x : Q)
| MNone.

Inductive PathKind := IsFile | IsDir | NoSuchPath.

(** Outcome of a call that may raise [ValueError] or, in the model, exhaust
    the fuel of the chunking loop. *)
Inductive Outcome (A : Type) :=
| Returns (a : A)
| RaisesValueError (msg : string)
| OutOfFuel.
Arguments Returns {A} a.
Arguments RaisesValueError {A} msg.
Arguments OutOfFuel {A}.

Section Pipeline.

Variable embedding : Type.
Variable encode : string -> embedding.
Variable cosine_similarity : embedding -> embedding -> Q.
Variable bm25_get_scores : list (list string) -> list string -> list Q.
Variable argsort : list Q -> list nat.

(** [LLMProvider.generate(prompt, context, max_tokens, temperature)] *)
Variable generate : string -> list string -> Z -> Q -> LLMResponse.

Variable format_2f : Q -> string.
Variable basename : string -> string.
Variable pdf_open : string -> option (list PageExtract).
Variable glob_pdf : string -> list string.
Variable path_kind : string -> PathKind.

Record RAGResponse := {
  query_ : string;
  answer : string;
  sources : list RetrievedChunk;
  validation : option ValidationResult;
  metadata : gmap string MetaValue
}.

Record RAGPipeline := {
  document_processor : DocumentProcessor;
  retriever : HybridRetriever embedding;
  validator : MultiStageValidator;
  top_k : Z;
  _documents_loaded : bool
}.

(** The state built by [__init__] with its default arguments. *)
Definition new_pipeline : RAGPipeline :=
  {| document_processor := default_processor;
     retriever := new_retriever embedding;
     validator := default_validator;
     top_k := 5;
     _documents_loaded := false |}.

Definition load_documents (self : RAGPipeline) (document_path : string)
    (append : bool) : Outcome RAGPipeline :=
  let processed :=
    match path_kind document_path with
    | IsFile =>
        match process_pdf basename pdf_open (document_processor self) document_path with
        | Some chunks => Returns chunks
        | None => OutOfFuel
        end
    | IsDir =>
        match process_directory basename pdf_open glob_pdf
                (document_processor self) document_path with
        | Some chunks => Returns chunks
        | None => OutOfFuel
        end
    | NoSuchPath => RaisesValueError ("Invalid path: " ++ document_path)
    end in
  match processed with
  | Returns [] => Returns self
  | Returns chunks =>
      Returns {| document_processor := document_processor self;
                 retriever := index_documents encode (retriever self) chunks append;
                 validator := validator self;
                 top_k := top_k self;
                 _documents_loaded := true |}
  | RaisesValueError msg => RaisesValueError msg
  | OutOfFuel => OutOfFuel
  end.

Definition no_documents_answer : string :=
  "No documents loaded. Please load documents first.".
Definition nothing_found_answer : string :=
  "I could not find relevant information in the documents.".

Definition query (self : RAGPipeline) (question : string)
    (return_sources validate_ : bool) : RAGResponse :=
  if negb (_documents_loaded self) then
    {| query_ := question;
       answer := no_documents_answer;
       sources := [];
       validation := None;
       metadata := {[ "error" := MStr "no_documents_loaded" ]} |}
  else
    let retrieved_chunks :=
      retrieve encode cosine_similarity bm25_get_scores argsort
        (retriever self) question (top_k self) true in
    match retrieved_chunks with
    | [] =>
        {| query_ := question;
           answer := nothing_found_answer;
           sources := [];
           validation := None;
           metadata := {[ "retrieval_count" := MInt 0 ]} |}
    | first :: _ =>
        let context_texts := map get_text retrieved_chunks in
        let llm_response := generate question context_texts 500 (1 # 10) in
        let validation_result :=
          if validate_
          then Some (validate format_2f (validator self) question
                       (llm_text llm_response) retrieved_chunks)
          else None in
        let sources := if return_sources then retrieved_chunks else [] in
        {| query_ := question;
           answer := llm_text llm_response;
           sources := sources;
           validation := validation_result;
           metadata :=
             <[ "retrieval_count" := MInt (Z.of_nat (length retrieved_chunks)) ]>
             (<[ "model" := MStr (llm_model llm_response) ]>
             (<[ "tokens_used" :=
                   match llm_tokens_used llm_response with
                   | Some n => MInt n
                   | None => MNone
                   end ]>
             (<[ "top_retrieval_score" := MFloat (get_combined_score first) ]> ∅))) |}
    end.

End Pipeline.

Arguments document_processor {embedding} _.
Arguments retriever {embedding} _.
Arguments validator {embedding} _.
Arguments top_k {embedding} _.
Arguments _documents_loaded {embedding} _.
Arguments new_pipeline {embedding}.
Arguments load_documents {embedding} encode basename pdf_open glob_pdf path_kind
  self document_path append.
Arguments query {embedding} encode cosine_similarity bm25_get_scores argsort
  generate format_2f self question return_sources validate_.

End Pipeline.

(** ** llm/base_provider.py and llm/providers.py *)

Module Providers.
Import Pipeline.

(** [str(n)] for a natural number. *)
Definition str_of_nat (n : nat) : string := NilZero.string_of_uint (Nat.to_uint n).

(** [s.split(sep)] for a non-empty separator: the pieces between the
    occurrences of [sep] found from left to right. *)
Fixpoint split_sep_chars (fuel : nat) (sep cur l : list ascii) : list string :=
  match fuel with
  | O => [Py.str (rev cur)]
  | S fuel' =>
      match l with
      | [] => [Py.str (rev cur)]
      | c :: l' =>
          if Py.is_prefix sep l
          then Py.str (rev cur) :: split_sep_chars fuel' sep [] (drop (length sep) l)
          else split_sep_chars fuel' sep (c :: cur) l'
      end
  end.

Definition split_sep (sep s : string) : list string :=
  split_sep_chars (S (String.length s)) (Py.chars sep) [] (Py.chars s).

(** [pieces[-1]] of a non-empty list. *)
Definition last_piece (pieces : list string) : string := List.last pieces "".

Definition dquote : string := String (ascii_of_nat 34) "".
Definition nl : string := String (ascii_of_nat 10) "".

(** [enumerate(context)] mapped to the numbered source blocks. *)
Fixpoint source_blocks (i : nat) (context : list string) : list string :=
  match context with
  | [] => []
  | chunk :: rest =>
      ("[Source " ++ str_of_nat (i + 1) ++ "]" ++ nl ++ chunk)
      :: source_blocks (S i) rest
  end.

(** [LLMProvider.format_prompt] *)
Definition format_prompt (prompt : string) (context : list string) : string :=
  let context_text := Py.join (nl ++ nl) (source_blocks 0 context) in
  "You are a financial document analysis assistant. Answer the question based ONLY on the provided context."
  ++ nl ++ nl ++ "CONTEXT:" ++ nl ++ context_text ++ nl ++ nl
  ++ "QUESTION: " ++ prompt ++ nl ++ nl ++ "INSTRUCTIONS:" ++ nl
  ++ "- Answer concisely and accurately" ++ nl
  ++ "- Only use information from the context above" ++ nl
  ++ "- If the context doesn't contain the answer, say " ++ dquote
  ++ "I cannot find this information in the provided documents" ++ dquote ++ nl
  ++ "- Cite source numbers when making claims (e.g., " ++ dquote
  ++ "According to Source 1..." ++ dquote ++ ")" ++ nl
  ++ "- For numerical data, quote exactly as written" ++ nl ++ nl
  ++ "ANSWER:".

Section HuggingFace.

(** [client.chat_completion(...).choices[0].message.content] for a model, a
    user message, [max_tokens] and [temperature]: the content, or the text of
    the exception raised inside the [try] block (a failed call, or a reply
    without content). *)
Variable chat_completion : string → string → Z → Q → string + string.

Definition hf_generate (model_name : string) (prompt : string)
    (context : list string) (max_tokens : Z) (temperature : Q) : LLMResponse :=
  let formatted_prompt := format_prompt prompt context in
  match chat_completion model_name formatted_prompt max_tokens temperature with
  | inl answer_text =>
      let answer_text :=
        if Py.contains "ANSWER:" answer_text
        then Py.strip (last_piece (split_sep "ANSWER:" answer_text))
        else answer_text in
      {| llm_text := answer_text; llm_model := model_name; llm_tokens_used := None |}
  | inr e =>
      {| llm_text := "Error generating response: " ++ e;
         llm_model := model_name;
         llm_tokens_used := None |}
  end.

Definition hf_health_check (model_name : string) : bool :=
  match chat_completion model_name "hi" 5 (1 # 10) with
  | inl _ => true
  | inr _ => false
  end.

End HuggingFace.

Definition _generate_mock_answer (prompt : string) (context : list string) : string :=
  let combined_context := Py.join " " (take 3 context) in
  let words := Py.split combined_context in
  let snippet_length := Nat.min 100 (length words) in
  let snippet := Py.join " " (take snippet_length words) in
  "Based on the fund documents, " ++ snippet ++ "..." ++ nl ++ nl
  ++ "(Note: This is a demonstration response. With a real 7B model like Mistral-7B-Instruct, "
  ++ nl
  ++ "you would receive a properly synthesized answer extracting specific information from the context.)"
  ++ nl ++ nl
  ++ "The retrieved context contains " ++ str_of_nat (length context)
  ++ " relevant sections. A production 7B model would:" ++ nl
  ++ "1. Identify the most relevant information" ++ nl
  ++ "2. Synthesize a concise answer" ++ nl
  ++ "3. Cite specific sources" ++ nl
  ++ "4. Validate numerical accuracy".

Definition mock_generate (model_name : string) (prompt : string)
    (context : list string) (max_tokens : Z) (temperature : Q) : LLMResponse :=
  let answer :=
    match context with
    | [] => "I cannot find this information in the provided documents."
    | _ => _generate_mock_answer prompt context
    end in
  {| llm_text := answer;
     llm_model := model_name;
     llm_tokens_used := Some (Z.of_nat (length (Py.split answer))) |}.

Definition mock_health_check : bool := true.

Inductive Provider :=
| HuggingFaceProvider (model_name : string) (api_token : option string)
| MockProvider (model_name : string).

(** [create_llm_provider]; [getenv] reads the environment. *)
Definition create_llm_provider (getenv : string → option string)
    (provider_type model_name api_token : option string) : Outcome Provider :=
  let provider_type :=
    match provider_type with
    | Some (String a t) => String a t
    | _ => default "huggingface" (getenv "LLM_PROVIDER")
    end in
  let model_name :=
    match model_name with
    | Some (String a t) => String a t
    | _ => default "mistralai/Mistral-7B-Instruct-v0.2" (getenv "LLM_MODEL")
    end in
  if String.eqb (Py.lower provider_type) "huggingface"
  then Returns (HuggingFaceProvider model_name
                  (match api_token with
                   | Some (String a t) => Some (String a t)
                   | _ => getenv "HUGGINGFACE_API_TOKEN"
                   end))
  else if String.eqb (Py.lower provider_type) "mock"
  then Returns (MockProvider model_name)
  else RaisesValueError ("Unknown provider type: " ++ provider_type).

End Providers.

(** ** Sample inputs *)

Module Samples.

Definition result_of_text (t : string) (score : Q) : RetrievedChunk :=
  {| r_chunk := None; r_text := Some t; r_source := Some "fund.pdf";
     r_page := Some 1; r_chunk_id := Some 0;
     r_combined_score := Some score; r_bm25_score := Some score;
     r_dense_score := Some score |}.

Definition fee_context : list RetrievedChunk :=
  [result_of_text
     ("The management fee is 2% annually. The fund invests in listed equities "
      ++ "and government bonds, and it reports to its investors every quarter "
      ++ "with a full statement of holdings, costs and performance.") 1].

(** A disclaimer of 23 words, without figures, much shorter than the context. *)
Definition hedging_answer : string :=
  "I cannot find the fee in the documents but the fund is said to be a good one by all who know it".

Definition plain_answer : string := "The fund invests in listed equities.".

(** Stand-ins for the external collaborators. *)
Definition sample_encode (t : string) : list string := Py.split (Py.lower t).

Definition shared_tokens (a b : list string) : nat :=
  length (List.filter (fun t => bool_decide (t ∈ b)) a).

Definition sample_similarity (a b : list string) : Q :=
  (Validator.qnat (shared_tokens a b)
   / Validator.qnat (Nat.max (length a) 1))%Q.

Definition sample_bm25 (corpus : list (list string)) (query : list string) : list Q :=
  map (fun doc => Validator.qnat (shared_tokens query doc)) corpus.

Definition sample_generate (prompt : string) (context : list string)
    (max_tokens : Z) (temperature : Q) : Pipeline.LLMResponse :=
  {| Pipeline.llm_text := hd "" context;
     Pipeline.llm_model := "echo";
     Pipeline.llm_tokens_used := None |}.

(** [os.path.basename] for POSIX paths. *)
Definition posix_basename (path : string) : string :=
  Py.substr path (Py.rfind "/" path + 1) (Py.len path).

(** A file with two short pages. *)
Definition two_page_pdf (path : string) : option (list Chunker.PageExtract) :=
  Some [Chunker.Extracted (Some "The management fee is 2% annually.");
        Chunker.Extracted (Some "Performance is reported every quarter.")].

Definition sample_path_kind (path : string) : Pipeline.PathKind := Pipeline.IsFile.
Definition sample_glob (directory : string) : list string := [].

Definition fee_chunk : DocumentChunk :=
  {| text := "The management fee is 2% annually.";
     source := "fund.pdf"; page := 1; chunk_id := 0;
     char_start := 0; char_end := 800; chunk_length := 34 |}.

Definition report_chunk : DocumentChunk :=
  {| text := "Performance is reported every quarter.";
     source := "fund.pdf"; page := 2; chunk_id := 0;
     char_start := 0; char_end := 800; chunk_length := 38 |}.

Definition sample_index : Retriever.HybridRetriever (list string) :=
  Retriever.index_documents sample_encode (Retriever.new_retriever (list string))
    [fee_chunk; report_chunk] false.

Definition sample_retrieve (self : Retriever.HybridRetriever (list string))
    (query : string) (top_k : Z) (return_scores : bool) : list RetrievedChunk :=
  Retriever.retrieve sample_encode sample_similarity sample_bm25
    Retriever.insertion_argsort self query top_k return_scores.

Definition sample_query :=
  Pipeline.query sample_encode sample_similarity sample_bm25
    Retriever.insertion_argsort sample_generate (fun _ => "0.00").

Definition sample_load :=
  Pipeline.load_documents sample_encode posix_basename
    two_page_pdf sample_glob sample_path_kind.

(** A pipeline constructed with [top_k = -2]. *)
Definition negative_k_pipeline : Pipeline.RAGPipeline (list string) :=
  {| Pipeline.document_processor := Chunker.default_processor;
     Pipeline.retriever := Retriever.new_retriever (list string);
     Pipeline.validator := Validator.default_validator;
     Pipeline.top_k := -2;
     Pipeline._documents_loaded := false |}.

Definition loaded_negative_k_pipeline : Pipeline.RAGPipeline (list string) :=
  {| Pipeline.document_processor := Chunker.default_processor;
     Pipeline.retriever := sample_index;
     Pipeline.validator := Validator.default_validator;
     Pipeline.top_k := -2;
     Pipeline._documents_loaded := true |}.

(** A processor for short chunks, and a cleaned page of 213 characters
    without sentence end. *)
Definition small_processor : Chunker.DocumentProcessor :=
  {| Chunker.chunk_size := 150; Chunker.chunk_overlap := 20 |}.

Definition strategy_page : string :=
  "The fund invests in listed equities and government bonds across developed markets with a focus on long term capital growth and a moderate level of risk for investors who can hold their units for five years or more".

End Samples.

(** ** Notions used to state properties *)

Module Notions.
Import Validator Retriever Pipeline.

(** Trust order of the levels: FAILED below LOW below MEDIUM below HIGH. *)
Definition level_rank (l : ValidationLevel) : nat :=
  match l with
  | FAILED => 0
  | LOW => 1
  | MEDIUM => 2
  | HIGH => 3
  end.

(** The text holds a decimal digit. *)
Definition has_digit (s : string) : bool := existsb Py.isdigit (Py.chars s).

(** The first character, if any, is not whitespace. *)
Definition no_leading_space (l : list ascii) : Prop :=
  match l with
  | c :: _ => Py.isspace c = false
  | [] => True
  end.

(** Every character is whitespace. *)
Definition blank (s : string) : Prop :=
  Forall (fun c => Py.isspace c = true) (Py.chars s).

(** The state after a sequence of [index_documents] calls. *)
Definition index_all {embedding : Type} (encode : string → embedding)
    (self : HybridRetriever embedding)
    (calls : list (list DocumentChunk * bool)) : HybridRetriever embedding :=
  fold_left (fun st call => index_documents encode st call.1 call.2) calls self.

(** A result row without its three scores. *)
Definition without_scores (r : RetrievedChunk) : RetrievedChunk :=
  {| r_chunk := r_chunk r; r_text := r_text r; r_source := r_source r;
     r_page := r_page r; r_chunk_id := r_chunk_id r;
     r_combined_score := None; r_bm25_score := None; r_dense_score := None |}.

(** The row describes the chunk. *)
Definition row_of (chunk : DocumentChunk) (r : RetrievedChunk) : Prop :=
  r_chunk r = Some chunk ∧ r_text r = Some (text chunk)
  ∧ r_source r = Some (source chunk) ∧ r_page r = Some (page chunk)
  ∧ r_chunk_id r = Some (chunk_id chunk).

(** The ready flag tells whether chunks are indexed, and the index is
    aligned with them. *)
Definition ready {embedding : Type} (encode : string → embedding)
    (p : RAGPipeline embedding) : Prop :=
  (_documents_loaded p = true ↔ chunks (retriever p) ≠ [])
  ∧ aligned encode (retriever p).

(** The four check names, in the order [validate] runs the checks. *)
Definition check_names : list string :=
  ["retrieval_quality"; "source_alignment"; "hallucination_check";
   "numerical_accuracy"].

End Notions.

(** * Properties *)

(** Membership of a literal in a list of distinct literals. *)
Ltac not_in_names :=
  let H := fresh "H" in
  intros H;
  repeat (apply elem_of_cons in H as [H | H]; [discriminate H |]);
  by apply elem_of_nil in H.

(** ** The primitives on sample texts *)

Module Checks.
Import Validator Chunker.

Example split_collapses_whitespace :
  Py.split "  fee   is 2% " = ["fee"; "is"; "2%"].
Proof. vm_compute. reflexivity. Qed.

Example rfind_last_sentence_end : Py.rfind ". " "ab. cd. e" = 6.
Proof. vm_compute. reflexivity. Qed.

Example slice_negative_start : Py.slice [1; 2; 3; 4; 5] (-2) 10 = [4; 5].
Proof. vm_compute. reflexivity. Qed.

Example extract_numbers_sample :
  _extract_numbers "The fee is 2% or $1,200.50 and 3.5"
  = ["2%"; "$1,200.50"; "2"; "1"; "200.50"; "3.5"].
Proof. vm_compute. reflexivity. Qed.

Example specifics_date : has_specifics "Signed on March 5, 2021 in Paris" = true.
Proof. vm_compute. reflexivity. Qed.

Example clean_text_sample : _clean_text "  a   b  " = "a b".
Proof. vm_compute. reflexivity. Qed.

(** The echo scenario of the specification: one indexed sentence, the answer
    repeats its figure; the numbers are validated and the level is not
    FAILED. *)
Example echo_scenario_level :
  level (validate (fun _ => "1.00") default_validator "What is the management fee?"
           "The management fee is 2%."
           [Samples.result_of_text "The management fee is 2% annually." 1])
  = HIGH.
Proof. vm_compute. reflexivity. Qed.

End Checks.

(** ** The validator *)

Module ValidatorSpec.
Import Validator.

Lemma critical_failure_iff (failed : list string) :
  (list_to_set failed : gset string) ∩ critical_failures ≠ ∅
  ↔ "retrieval_quality" ∈ failed ∨ "numerical_accuracy" ∈ failed.
Proof.
  unfold critical_failures. split.
  - intros Hne. apply set_choose_L in Hne as [x Hx].
    apply elem_of_intersection in Hx as [Hx1 Hx2].
    apply elem_of_list_to_set in Hx1.
    apply elem_of_union in Hx2 as [Hx2 | Hx2];
      apply elem_of_singleton in Hx2; subst; auto.
  - intros [H | H].
    + apply (non_empty_inhabited_L "retrieval_quality").
      apply elem_of_intersection. split; [by apply elem_of_list_to_set |].
      apply elem_of_union_l. by apply elem_of_singleton.
    + apply (non_empty_inhabited_L "numerical_accuracy").
      apply elem_of_intersection. split; [by apply elem_of_list_to_set |].
      apply elem_of_union_r. by apply elem_of_singleton.
Qed.

Lemma determine_level_failed_iff (self : MultiStageValidator) (conf : Q)
    (failed : list string) :
  _determine_validation_level self conf failed = FAILED
  ↔ "retrieval_quality" ∈ failed ∨ "numerical_accuracy" ∈ failed.
Proof.
  rewrite <- critical_failure_iff. unfold _determine_validation_level.
  case_bool_decide as Hc.
  - tauto.
  - split; [| tauto].
    destruct (Py.qge conf (min_confidence self)); [discriminate |].
    destruct (Py.qge conf (4 # 10)); discriminate.
Qed.

Lemma validate_level (fmt : Q -> string) (self : MultiStageValidator)
    (query answer : string) (chunks : list RetrievedChunk) :
  let r := validate fmt self query answer chunks in
  level r = _determine_validation_level self (confidence_score r) (failed_checks r).
Proof.
  unfold validate.
  repeat match goal with
         | |- context [if ?b then _ else _] => destruct b
         end; reflexivity.
Qed.

(** C1: the level returned by [validate] is FAILED exactly when
    [retrieval_quality] or [numerical_accuracy] is among the failed checks;
    the level decision itself has this property for every confidence score. *)
Theorem C1_critical_failure_veto :
  (∀ (self : MultiStageValidator) (conf : Q) (failed : list string),
      _determine_validation_level self conf failed = FAILED
      ↔ "retrieval_quality" ∈ failed ∨ "numerical_accuracy" ∈ failed)
  ∧ (∀ (fmt : Q -> string) (self : MultiStageValidator) (query answer : string)
       (chunks : list RetrievedChunk),
      level (validate fmt self query answer chunks) = FAILED
      ↔ "retrieval_quality" ∈ failed_checks (validate fmt self query answer chunks)
        ∨ "numerical_accuracy" ∈ failed_checks (validate fmt self query answer chunks)).
Proof.
  split.
  - apply determine_level_failed_iff.
  - intros. rewrite (validate_level fmt self query answer chunks).
    apply determine_level_failed_iff.
Qed.

Lemma matched_indicators_length (answer : string) (chunks : list RetrievedChunk) :
  length (indicators (_detect_hallucination answer chunks))
  = matched_indicators answer chunks.
Proof.
  unfold _detect_hallucination, matched_indicators.
  destruct (contradiction_indicator answer),
    (specificity_indicator answer chunks),
    (length_indicator answer chunks); reflexivity.
Qed.

(** C2 (as stated) fails: a long disclaimer alone, a single matched
    indicator, already makes the check report a likely hallucination. *)
Lemma C2_single_indicator_fails_check :
  ¬ (likely_hallucination
       (_detect_hallucination Samples.hedging_answer Samples.fee_context) = true
     ↔ (2 ≤ matched_indicators Samples.hedging_answer Samples.fee_context)%nat).
Proof.
  assert (Hl : likely_hallucination
            (_detect_hallucination Samples.hedging_answer Samples.fee_context) = true)
    by (vm_compute; reflexivity).
  assert (Hm : matched_indicators Samples.hedging_answer Samples.fee_context = 1%nat)
    by (vm_compute; reflexivity).
  intros [H _]. specialize (H Hl). rewrite Hm in H. lia.
Qed.

(** C2 (amended): the indicator list holds exactly the matched indicators,
    and the hallucination check fails exactly when the contradiction indicator
    is matched or at least two indicators are matched. *)
Theorem C2_hallucination_rule (answer : string) (chunks : list RetrievedChunk) :
  length (indicators (_detect_hallucination answer chunks))
  = matched_indicators answer chunks
  ∧ (likely_hallucination (_detect_hallucination answer chunks) = true
     ↔ contradiction_indicator answer = true
       ∨ (2 ≤ matched_indicators answer chunks)%nat).
Proof.
  split; [apply matched_indicators_length |].
  unfold _detect_hallucination, matched_indicators.
  destruct (contradiction_indicator answer),
    (specificity_indicator answer chunks),
    (length_indicator answer chunks); simpl;
    (split; [intros H; first [discriminate H | (left; reflexivity) | (right; lia)]
            | intros [H | H]; first [reflexivity | discriminate H | lia]]).
Qed.

Lemma str_in_spec (x : string) (l : list string) : str_in x l = true ↔ x ∈ l.
Proof. unfold str_in. apply bool_decide_eq_true. Qed.

(** C4: the numerical-accuracy stage extracts numbers with the percentage,
    currency and bare-decimal patterns; it reports [validated] exactly when
    every number string of the answer is one of the number strings of the
    joined source texts; an answer without any number string gives
    [has_numbers = false] and [validated = true]. *)
Theorem C4_numerical_accuracy (answer : string) (chunks : list RetrievedChunk) :
  (∀ t : string,
      _extract_numbers t
      = (Re.findall re_percent t ++ Re.findall re_currency t
         ++ Re.findall re_decimal t)%list)
  ∧ (validated (_check_numerical_accuracy answer chunks) = true
     ↔ ∀ num : string,
         num ∈ _extract_numbers answer
         → num ∈ _extract_numbers (Py.join " " (map get_text chunks)))
  ∧ (has_numbers (_check_numerical_accuracy answer chunks) = false
     ↔ _extract_numbers answer = [])
  ∧ (_extract_numbers answer = []
     → has_numbers (_check_numerical_accuracy answer chunks) = false
       ∧ validated (_check_numerical_accuracy answer chunks) = true).
Proof.
  split; [| split; [| split]].
  - intros t. unfold _extract_numbers, Py.extend. simpl. by rewrite app_assoc.
  - unfold _check_numerical_accuracy, source_text_of.
    destruct (_extract_numbers answer) as [| n ns] eqn:E; simpl.
    + split; [| done]. intros _ num Hin. by apply elem_of_nil in Hin.
    + rewrite andb_true_iff, str_in_spec, forallb_forall.
      split.
      * intros [H1 H2] num Hin. apply elem_of_cons in Hin as [-> | Hin]; [done |].
        apply str_in_spec, H2. by apply list_elem_of_In.
      * intros H. split; [apply H, elem_of_cons; by left |].
        intros x Hx. apply str_in_spec, H, elem_of_cons. right.
        by apply list_elem_of_In.
  - unfold _check_numerical_accuracy.
    destruct (_extract_numbers answer); simpl; split; done.
  - intros E. unfold _check_numerical_accuracy. rewrite E. done.
Qed.

(** A witness for C4: an answer without figures. *)
Lemma C4_numerical_accuracy_witness :
  _extract_numbers Samples.plain_answer = []
  ∧ has_numbers (_check_numerical_accuracy Samples.plain_answer Samples.fee_context)
    = false
  ∧ validated (_check_numerical_accuracy Samples.plain_answer Samples.fee_context)
    = true.
Proof.
  split; [vm_compute; reflexivity |].
  apply (C4_numerical_accuracy Samples.plain_answer Samples.fee_context).
  vm_compute; reflexivity.
Defined.

(** C10: when no number string can be extracted from the answer,
    [numerical_accuracy] is recorded neither as passed nor as failed, the
    recorded checks are the three other ones, and the ratio term of the
    confidence score is the number of passed checks over 3. *)
Theorem C10_no_numbers_three_checks (fmt : Q -> string)
    (self : MultiStageValidator) (query answer : string)
    (chunks : list RetrievedChunk) :
  _extract_numbers answer = [] →
  let r := validate fmt self query answer chunks in
  ("numerical_accuracy" ∉ passed_checks r)
  ∧ ("numerical_accuracy" ∉ failed_checks r)
  ∧ (∀ c, c ∈ (passed_checks r ++ failed_checks r)%list ↔
          c ∈ ["retrieval_quality"; "source_alignment"; "hallucination_check"])
  ∧ (length (passed_checks r) + length (failed_checks r) = 3)%nat
  ∧ confidence_score r
    = Py.qmin 1 (Py.qmax 0
        ((3 # 10) * _check_retrieval_quality chunks
         + (3 # 10) * _check_source_alignment answer chunks
         + (4 # 10) * (qnat (length (passed_checks r)) / qnat 3))%Q).
Proof.
  intros E. unfold validate, _check_numerical_accuracy. rewrite E.
  cbv zeta. unfold Py.append, Py.extend.
  destruct (Py.qge (_check_retrieval_quality chunks) (retrieval_threshold self)),
    (Py.qge (_check_source_alignment answer chunks) (alignment_threshold self)),
    (negb (likely_hallucination (_detect_hallucination answer chunks)));
    cbn [has_numbers passed_checks failed_checks confidence_score app length];
    (split; [not_in_names |]); (split; [not_in_names |]);
    (split; [intros c; rewrite ?elem_of_cons, ?elem_of_nil; tauto |]);
    (split; reflexivity).
Qed.

(** A witness for C10: an answer without figures. *)
Lemma C10_no_numbers_three_checks_witness :
  _extract_numbers Samples.plain_answer = []
  ∧ "numerical_accuracy" ∉
      passed_checks (validate (fun _ => "1.00") default_validator "What does the fund hold?"
                       Samples.plain_answer Samples.fee_context).
Proof.
  split; [vm_compute; reflexivity |].
  apply (C10_no_numbers_three_checks (fun _ => "1.00") default_validator
           "What does the fund hold?" Samples.plain_answer Samples.fee_context).
  vm_compute; reflexivity.
Defined.

End ValidatorSpec.

(** ** The retriever *)

Module RetrieverSpec.
Import Retriever.

Lemma map_fmap {A B} (f : A → B) (l : list A) : map f l = f <$> l.
Proof. induction l as [| a l IH]; [reflexivity |]. simpl. by rewrite IH. Qed.

Section MinMax.
Local Open Scope Q_scope.

Lemma Qmin_cases (a b : Q) : Qmin a b = a ∨ Qmin a b = b.
Proof.
  unfold Qmin, GenericMinMax.gmin. destruct (a ?= b); auto.
Qed.

Lemma Qmax_cases (a b : Q) : Qmax a b = a ∨ Qmax a b = b.
Proof.
  unfold Qmax, GenericMinMax.gmax. destruct (a ?= b); auto.
Qed.

Lemma arr_min_le_init (l : list Q) (x : Q) : arr_min x l <= x.
Proof.
  revert x. induction l as [| y l IH]; intros x; simpl.
  - apply Qle_refl.
  - eapply Qle_trans; [apply IH | apply Q.le_min_l].
Qed.

Lemma arr_min_lower (l : list Q) (x t : Q) : t ∈ x :: l → arr_min x l <= t.
Proof.
  revert x. induction l as [| y l IH]; intros x Hin.
  - apply list_elem_of_singleton in Hin as ->. apply Qle_refl.
  - simpl. apply elem_of_cons in Hin as [-> | Hin].
    + eapply Qle_trans; [apply arr_min_le_init | apply Q.le_min_l].
    + apply elem_of_cons in Hin as [-> | Hin].
      * eapply Qle_trans; [apply arr_min_le_init | apply Q.le_min_r].
      * apply IH. apply elem_of_cons. by right.
Qed.

Lemma arr_min_in (l : list Q) (x : Q) : arr_min x l ∈ x :: l.
Proof.
  revert x. induction l as [| y l IH]; intros x; simpl.
  - apply list_elem_of_singleton. reflexivity.
  - specialize (IH (Qmin x y)). apply elem_of_cons in IH as [IH | IH].
    + rewrite IH. destruct (Qmin_cases x y) as [-> | ->].
      * apply elem_of_cons; by left.
      * apply elem_of_cons; right. apply elem_of_cons; by left.
    + apply elem_of_cons; right. apply elem_of_cons; by right.
Qed.

Lemma arr_max_ge_init (l : list Q) (x : Q) : x <= arr_max x l.
Proof.
  revert x. induction l as [| y l IH]; intros x; simpl.
  - apply Qle_refl.
  - eapply Qle_trans; [apply Q.le_max_l | apply IH].
Qed.

Lemma arr_max_upper (l : list Q) (x t : Q) : t ∈ x :: l → t <= arr_max x l.
Proof.
  revert x. induction l as [| y l IH]; intros x Hin.
  - apply list_elem_of_singleton in Hin as ->. apply Qle_refl.
  - simpl. apply elem_of_cons in Hin as [-> | Hin].
    + eapply Qle_trans; [apply Q.le_max_l | apply arr_max_ge_init].
    + apply elem_of_cons in Hin as [-> | Hin].
      * eapply Qle_trans; [apply Q.le_max_r | apply arr_max_ge_init].
      * apply IH. apply elem_of_cons. by right.
Qed.

Lemma arr_max_in (l : list Q) (x : Q) : arr_max x l ∈ x :: l.
Proof.
  revert x. induction l as [| y l IH]; intros x; simpl.
  - apply list_elem_of_singleton. reflexivity.
  - specialize (IH (Qmax x y)). apply elem_of_cons in IH as [IH | IH].
    + rewrite IH. destruct (Qmax_cases x y) as [-> | ->].
      * apply elem_of_cons; by left.
      * apply elem_of_cons; right. apply elem_of_cons; by left.
    + apply elem_of_cons; right. apply elem_of_cons; by right.
Qed.

Lemma spread_zero_iff (x : Q) (l : list Q) :
  Qeq_bool (arr_max x l - arr_min x l) 0 = true ↔ constant (x :: l).
Proof.
  rewrite Qeq_bool_iff. split.
  - intros H a b Ha Hb.
    pose proof (arr_min_lower l x a Ha). pose proof (arr_max_upper l x a Ha).
    pose proof (arr_min_lower l x b Hb). pose proof (arr_max_upper l x b Hb).
    lra.
  - intros H. specialize (H _ _ (arr_max_in l x) (arr_min_in l x)). lra.
Qed.

Lemma normalize_length (scores : list Q) :
  length (_normalize_scores scores) = length scores.
Proof.
  destruct scores as [| x l]; [reflexivity |].
  unfold _normalize_scores.
  destruct (Qeq_bool _ _); by rewrite length_map.
Qed.

Lemma normalize_constant (scores : list Q) (v : Q) :
  constant scores → v ∈ _normalize_scores scores → v = 1.
Proof.
  destruct scores as [| x l]; intros Hc Hv.
  - by apply elem_of_nil in Hv.
  - unfold _normalize_scores in Hv.
    apply spread_zero_iff in Hc. rewrite Hc in Hv.
    apply list_elem_of_In, in_map_iff in Hv as [? [<- _]]. reflexivity.
Qed.

Lemma normalize_lookup (x : Q) (l : list Q) (i : nat) (s : Q) :
  ¬ constant (x :: l) → (x :: l) !! i = Some s →
  _normalize_scores (x :: l) !! i
  = Some ((s - arr_min x l) / (arr_max x l - arr_min x l)).
Proof.
  intros Hc Hs. unfold _normalize_scores.
  destruct (Qeq_bool _ _) eqn:E.
  - apply spread_zero_iff in E. contradiction.
  - rewrite map_fmap, list_lookup_fmap, Hs. reflexivity.
Qed.

Lemma spread_positive (x : Q) (l : list Q) :
  ¬ constant (x :: l) → 0 < arr_max x l - arr_min x l.
Proof.
  intros Hc.
  destruct (Qlt_le_dec 0 (arr_max x l - arr_min x l)) as [H | H]; [exact H |].
  exfalso. apply Hc. apply spread_zero_iff. apply Qeq_bool_iff.
  pose proof (arr_min_lower l x _ (arr_max_in l x)). lra.
Qed.

End MinMax.

(** C5: for a non-empty score array, normalisation keeps the length and
    yields values between 0 and 1; when all scores are equal every value is 1;
    otherwise a maximal score is sent to 1 and a minimal score to 0. *)
Theorem C5_normalize_bounds (scores : list Q) :
  scores ≠ [] →
  length (_normalize_scores scores) = length scores
  ∧ (∀ v, v ∈ _normalize_scores scores → (0 <= v)%Q ∧ (v <= 1)%Q)
  ∧ (constant scores → ∀ v, v ∈ _normalize_scores scores → v = 1%Q)
  ∧ (¬ constant scores →
     ∀ i s, scores !! i = Some s →
       ∃ v, _normalize_scores scores !! i = Some v
            ∧ ((∀ t, t ∈ scores → (t <= s)%Q) → (v == 1)%Q)
            ∧ ((∀ t, t ∈ scores → (s <= t)%Q) → (v == 0)%Q)).
Proof.
  intros Hne. destruct scores as [| x l]; [done |]. clear Hne.
  split; [apply normalize_length |].
  split; [| split].
  - intros v Hv.
    destruct (Qeq_bool (arr_max x l - arr_min x l) 0) eqn:E.
    + apply spread_zero_iff in E.
      rewrite (normalize_constant _ v E Hv). split; lra.
    + assert (Hc : ¬ constant (x :: l)).
      { intros Hc. apply spread_zero_iff in Hc. congruence. }
      apply list_elem_of_lookup in Hv as [i Hi].
      assert (Hs : is_Some ((x :: l) !! i)).
      { apply lookup_lt_is_Some. rewrite <- (normalize_length (x :: l)).
        by eapply lookup_lt_Some. }
      destruct Hs as [s Hs].
      rewrite (normalize_lookup x l i s Hc Hs) in Hi. injection Hi as <-.
      pose proof (spread_positive x l Hc) as Hpos.
      pose proof (arr_min_lower l x s (list_elem_of_lookup_2 _ _ _ Hs)).
      pose proof (arr_max_upper l x s (list_elem_of_lookup_2 _ _ _ Hs)).
      split.
      * apply Qle_shift_div_l; [exact Hpos | lra].
      * apply Qle_shift_div_r; [exact Hpos | lra].
  - intros Hc v Hv. by apply (normalize_constant (x :: l)).
  - intros Hc i s Hs. eexists. split; [by apply normalize_lookup |].
    pose proof (spread_positive x l Hc) as Hpos.
    split; intros Hext.
    + assert (s == arr_max x l)%Q as ->.
      { apply Qle_antisym; [apply arr_max_upper; by eapply list_elem_of_lookup_2 |].
        apply Hext, arr_max_in. }
      field. lra.
    + assert (s == arr_min x l)%Q as ->.
      { apply Qle_antisym; [apply Hext, arr_min_in |].
        apply arr_min_lower. by eapply list_elem_of_lookup_2. }
      field. lra.
Qed.

(** A witness for C5 on three scores. *)
Lemma C5_normalize_bounds_witness :
  length (_normalize_scores [1 # 2; 3; 2]%Q) = 3%nat.
Proof.
  apply (C5_normalize_bounds [1 # 2; 3; 2]%Q). discriminate.
Defined.

Section Indexing.

Context {embedding : Type} (encode : string → embedding).

Lemma filter_fresh (existing incoming : list DocumentChunk) :
  List.filter
    (fun c => bool_decide
                (chunk_key c ∉ (list_to_set (map chunk_key existing) : gset (string * Z))))
    incoming
  = List.filter (fresh_for existing) incoming.
Proof.
  apply List.filter_ext. intros c. unfold fresh_for.
  apply bool_decide_ext. by rewrite elem_of_list_to_set.
Qed.

Lemma index_append_chunks (self : HybridRetriever embedding)
    (incoming : list DocumentChunk) :
  chunks self ≠ [] → incoming ≠ [] →
  chunks (index_documents encode self incoming true)
  = (chunks self ++ List.filter (fresh_for (chunks self)) incoming)%list.
Proof.
  intros Hs Hi. unfold index_documents.
  destruct incoming as [| c cs]; [done |].
  rewrite bool_decide_eq_false_2 by exact Hs.
  cbn [andb negb chunks]. by rewrite filter_fresh.
Qed.

Lemma index_first_chunks (self : HybridRetriever embedding)
    (incoming : list DocumentChunk) (append : bool) :
  chunks self = [] → incoming ≠ [] →
  chunks (index_documents encode self incoming append) = incoming.
Proof.
  intros Hs Hi. unfold index_documents.
  destruct incoming as [| c cs]; [done |].
  rewrite bool_decide_eq_true_2 by exact Hs.
  by rewrite andb_false_r.
Qed.

Lemma index_nonempty (self : HybridRetriever embedding)
    (incoming : list DocumentChunk) (append : bool) :
  incoming ≠ [] → chunks (index_documents encode self incoming append) ≠ [].
Proof.
  intros Hi. destruct (decide (chunks self = [])) as [Hs | Hs].
  - by rewrite index_first_chunks.
  - destruct append.
    + rewrite index_append_chunks by done.
      intros H. apply app_eq_nil in H as [H _]. contradiction.
    + unfold index_documents. destruct incoming; [done |].
      rewrite andb_false_l. done.
Qed.

(** Every incoming key is present once the batch has been indexed. *)
Lemma index_covers_incoming (self : HybridRetriever embedding)
    (incoming : list DocumentChunk) (c : DocumentChunk) :
  c ∈ incoming →
  chunk_key c ∈ map chunk_key (chunks (index_documents encode self incoming true)).
Proof.
  intros Hc.
  assert (Hi : incoming ≠ []) by (intros ->; by apply elem_of_nil in Hc).
  destruct (decide (chunks self = [])) as [Hs | Hs].
  - rewrite index_first_chunks by done.
    apply list_elem_of_In, in_map. by apply list_elem_of_In.
  - rewrite index_append_chunks, map_app by done.
    apply elem_of_app.
    destruct (decide (chunk_key c ∈ map chunk_key (chunks self))) as [Hin | Hin].
    + by left.
    + right. apply list_elem_of_In, in_map, filter_In.
      split; [by apply list_elem_of_In |].
      unfold fresh_for. by apply bool_decide_eq_true_2.
Qed.

Lemma index_cases (self : HybridRetriever embedding)
    (incoming : list DocumentChunk) (append : bool) :
  incoming ≠ [] →
  index_documents encode self incoming append
  = {| bm25_weight := bm25_weight self;
       dense_weight := dense_weight self;
       chunks := chunks (index_documents encode self incoming append);
       chunk_embeddings :=
         Some (map encode
                 (map text (chunks (index_documents encode self incoming append))));
       bm25 :=
         Some (map Py.split
                 (map text (chunks (index_documents encode self incoming append)))) |}.
Proof.
  intros Hi. destruct incoming as [| c cs]; [done |]. reflexivity.
Qed.

Lemma index_aligned (self : HybridRetriever embedding)
    (incoming : list DocumentChunk) (append : bool) :
  aligned encode self → aligned encode (index_documents encode self incoming append).
Proof.
  intros Ha. destruct incoming as [| c cs]; [exact Ha |].
  right. rewrite (index_cases self (c :: cs) append) by done. split; reflexivity.
Qed.

Lemma index_twice (self : HybridRetriever embedding)
    (incoming : list DocumentChunk) :
  index_documents encode (index_documents encode self incoming true) incoming true
  = index_documents encode self incoming true.
Proof.
  destruct (decide (incoming = [])) as [-> | Hi]; [reflexivity |].
  set (s1 := index_documents encode self incoming true).
  assert (Hc : chunks (index_documents encode s1 incoming true) = chunks s1).
  { rewrite index_append_chunks by (try apply index_nonempty; done).
    rewrite <- (app_nil_r (chunks s1)) at 3. f_equal.
    destruct (List.filter (fresh_for (chunks s1)) incoming) as [| c l] eqn:E;
      [reflexivity |].
    assert (Hin : In c (List.filter (fresh_for (chunks s1)) incoming))
      by (rewrite E; by left).
    apply filter_In in Hin as [Hin Hfresh].
    unfold fresh_for in Hfresh. apply bool_decide_eq_true in Hfresh.
    exfalso. apply Hfresh. apply index_covers_incoming. by apply list_elem_of_In. }
  rewrite (index_cases s1 incoming true Hi), Hc.
  assert (He : chunk_embeddings s1 = Some (map encode (map text (chunks s1)))
               ∧ bm25 s1 = Some (map Py.split (map text (chunks s1)))).
  { unfold s1. destruct incoming; [done |]. split; reflexivity. }
  destruct He as [He Hb]. destruct s1; simpl in *. by rewrite He, Hb.
Qed.

End Indexing.

Section Ranking.

Context {embedding : Type}.
Variable encode : string → embedding.
Variable cosine_similarity : embedding → embedding → Q.
Variable bm25_get_scores : list (list string) → list string → list Q.
Variable argsort : list Q → list nat.

(** What is assumed of the collaborators: BM25 scores every document of its
    corpus, and [argsort] returns the indices in an order of ascending
    score. *)
Hypothesis bm25_scores_all :
  ∀ corpus query, length (bm25_get_scores corpus query) = length corpus.
Hypothesis argsort_perm : ∀ scores, argsort scores ≡ₚ seq 0 (length scores).
Hypothesis argsort_ascending :
  ∀ scores i j a b x y,
    (i ≤ j)%nat → argsort scores !! i = Some a → argsort scores !! j = Some b →
    scores !! a = Some x → scores !! b = Some y → (x <= y)%Q.

Lemma omap_total {A B} (f : A → option B) (l : list A) :
  (∀ x, x ∈ l → is_Some (f x)) → Forall2 (fun x y => f x = Some y) l (omap f l).
Proof.
  induction l as [| a l IH]; intros Hall; [constructor |].
  cbn [omap list_omap].
  destruct (Hall a) as [b Hb]; [apply elem_of_cons; by left |].
  rewrite Hb. constructor; [exact Hb |].
  apply IH. intros x Hx. apply Hall, elem_of_cons. by right.
Qed.

Lemma top_indices_length (scores : list Q) (top_k : Z) :
  0 < top_k →
  Z.of_nat (length (top_indices_of argsort scores top_k))
  = Z.min top_k (Z.of_nat (length scores)).
Proof.
  intros Hk. unfold top_indices_of, Py.slice_from, Py.clamp.
  rewrite length_reverse, length_drop.
  rewrite (Permutation_length (argsort_perm scores)), length_seq.
  destruct (Z.ltb_spec (- top_k) 0); lia.
Qed.

Lemma top_indices_in_range (scores : list Q) (top_k : Z) (idx : nat) :
  idx ∈ top_indices_of argsort scores top_k → (idx < length scores)%nat.
Proof.
  unfold top_indices_of, Py.slice_from. intros Hin.
  rewrite elem_of_reverse in Hin. apply subseteq_drop in Hin.
  rewrite (argsort_perm scores) in Hin. apply elem_of_seq in Hin. lia.
Qed.

Lemma top_indices_descending (scores : list Q) (top_k : Z) (i j a b : nat) (x y : Q) :
  (i ≤ j)%nat →
  top_indices_of argsort scores top_k !! i = Some a →
  top_indices_of argsort scores top_k !! j = Some b →
  scores !! a = Some x → scores !! b = Some y → (y <= x)%Q.
Proof.
  unfold top_indices_of. intros Hij Ha Hb Hx Hy.
  apply reverse_lookup_Some in Ha as [Ha Hi].
  apply reverse_lookup_Some in Hb as [Hb Hj].
  unfold Py.slice_from in Ha, Hb. rewrite lookup_drop in Ha, Hb.
  eapply (argsort_ascending scores); [| exact Hb | exact Ha | exact Hy | exact Hx].
  lia.
Qed.

(** The retrieval on an index that holds chunks. *)
Lemma retrieve_indexed (self : HybridRetriever embedding) (query : string)
    (top_k : Z) (return_scores : bool) :
  aligned encode self → chunks self ≠ [] →
  ∃ bm25_norm dense_norm,
    length bm25_norm = length (chunks self)
    ∧ length dense_norm = length (chunks self)
    ∧ retrieve encode cosine_similarity bm25_get_scores argsort self query top_k
        return_scores
      = omap (result_row self return_scores
                (combine_scores self bm25_norm dense_norm) bm25_norm dense_norm)
             (top_indices_of argsort (combine_scores self bm25_norm dense_norm) top_k).
Proof.
  intros [Hnil | [Hb He]] Hne; [contradiction |].
  unfold retrieve. rewrite Hb, He. unfold from_option, id.
  destruct (chunks self) as [| c cs] eqn:Hc; [done |].
  refine (ex_intro _ _ (ex_intro _ _ (conj _ (conj _ eq_refl)))).
  - rewrite normalize_length, bm25_scores_all, !length_map. reflexivity.
  - rewrite normalize_length, !length_map. reflexivity.
Qed.

(** Every selected index yields a row. *)
Lemma rows_total (self : HybridRetriever embedding) (return_scores : bool)
    (bn dn : list Q) (top_k : Z) :
  length bn = length (chunks self) → length dn = length (chunks self) →
  Forall2
    (fun idx r =>
       result_row self return_scores (combine_scores self bn dn) bn dn idx = Some r)
    (top_indices_of argsort (combine_scores self bn dn) top_k)
    (omap (result_row self return_scores (combine_scores self bn dn) bn dn)
          (top_indices_of argsort (combine_scores self bn dn) top_k)).
Proof.
  intros Hbn Hdn.
  assert (Hcl : length (combine_scores self bn dn) = length (chunks self)).
  { unfold combine_scores. rewrite length_zip_with. lia. }
  apply omap_total. intros idx Hidx.
  apply top_indices_in_range in Hidx. unfold result_row.
  destruct (lookup_lt_is_Some_2 (chunks self) idx) as [c ->]; [lia |].
  destruct (lookup_lt_is_Some_2 (combine_scores self bn dn) idx) as [x ->]; [lia |].
  destruct (lookup_lt_is_Some_2 bn idx) as [b ->]; [lia |].
  destruct (lookup_lt_is_Some_2 dn idx) as [d ->]; [lia |].
  cbn. eauto.
Qed.

(** What [retrieve] guarantees for a positive [top_k]: at most [top_k]
    results (exactly [min top_k n] on [n] chunks), in descending order of
    [combined_score], each score being the weighted sum of the two
    normalised scores of its row. *)
Lemma retrieve_ranked (self : HybridRetriever embedding) (query : string)
    (top_k : Z) :
  aligned encode self → 0 < top_k →
  Z.of_nat (length (retrieve encode cosine_similarity bm25_get_scores argsort
                      self query top_k true))
  = Z.min top_k (Z.of_nat (length (chunks self)))
  ∧ (∀ i j ri rj,
       (i ≤ j)%nat →
       retrieve encode cosine_similarity bm25_get_scores argsort self query
         top_k true !! i = Some ri →
       retrieve encode cosine_similarity bm25_get_scores argsort self query
         top_k true !! j = Some rj →
       (get_combined_score rj <= get_combined_score ri)%Q)
  ∧ (∀ r,
       r ∈ retrieve encode cosine_similarity bm25_get_scores argsort self query
             top_k true →
       ∃ b d, r_bm25_score r = Some b ∧ r_dense_score r = Some d
              ∧ r_combined_score r
                = Some (bm25_weight self * b + dense_weight self * d)%Q).
Proof.
  intros Hal Hk.
  destruct (decide (chunks self = [])) as [Hnil | Hne].
  { unfold retrieve. rewrite Hnil. cbn [length].
    split; [lia |]. split; [intros i j ri rj _ H; destruct i; discriminate H |].
    intros r Hr. by apply elem_of_nil in Hr. }
  destruct (retrieve_indexed self query top_k true Hal Hne)
    as (bn & dn & Hbn & Hdn & ->).
  set (combined := combine_scores self bn dn).
  assert (Hcl : length combined = length (chunks self)).
  { unfold combined, combine_scores. rewrite length_zip_with. lia. }
  pose proof (rows_total self true bn dn top_k Hbn Hdn) as Hrows.
  fold combined in Hrows.
  assert (Hrow : ∀ idx r, result_row self true combined bn dn idx = Some r →
            ∃ x b d, combined !! idx = Some x ∧ bn !! idx = Some b
                     ∧ dn !! idx = Some d ∧ r_combined_score r = Some x
                     ∧ r_bm25_score r = Some b ∧ r_dense_score r = Some d).
  { intros idx r. unfold result_row.
    destruct (chunks self !! idx) as [c |]; [| discriminate].
    destruct (combined !! idx) as [x |]; [| discriminate].
    destruct (bn !! idx) as [b |]; [| discriminate].
    destruct (dn !! idx) as [d |]; [| discriminate].
    cbn. intros [= <-]. cbn. eauto 10. }
  split; [| split].
  - rewrite <- (Forall2_length _ _ _ Hrows), top_indices_length by exact Hk.
    by rewrite Hcl.
  - intros i j ri rj Hij Hi Hj.
    destruct (Forall2_lookup_r _ _ _ _ _ Hrows Hi) as (a & Ha & Hra).
    destruct (Forall2_lookup_r _ _ _ _ _ Hrows Hj) as (b & Hb & Hrb).
    destruct (Hrow _ _ Hra) as (x & _ & _ & Hx & _ & _ & Hsx & _).
    destruct (Hrow _ _ Hrb) as (y & _ & _ & Hy & _ & _ & Hsy & _).
    unfold get_combined_score. rewrite Hsx, Hsy. cbn [default].
    by eapply (top_indices_descending combined top_k i j a b).
  - intros r Hr. apply list_elem_of_lookup in Hr as [i Hi].
    destruct (Forall2_lookup_r _ _ _ _ _ Hrows Hi) as (a & Ha & Hra).
    destruct (Hrow _ _ Hra) as (x & b & d & Hx & Hb & Hd & Hsx & Hsb & Hsd).
    exists b, d. split; [exact Hsb |]. split; [exact Hsd |].
    rewrite Hsx. f_equal.
    unfold combined, combine_scores in Hx.
    rewrite lookup_zip_with, Hb in Hx. cbn in Hx. rewrite Hd in Hx. cbn in Hx.
    by injection Hx as <-.
Qed.

(** No index, no results. *)
Lemma retrieve_empty_index (self : HybridRetriever embedding) (query : string)
    (top_k : Z) (return_scores : bool) :
  chunks self = [] ∨ bm25 self = None →
  retrieve encode cosine_similarity bm25_get_scores argsort self query top_k
    return_scores = [].
Proof.
  unfold retrieve. intros [-> | ->]; [reflexivity |].
  destruct (chunks self); reflexivity.
Qed.

(** With [top_k = 0] the whole index comes back. *)
Lemma retrieve_top_k_zero (self : HybridRetriever embedding) (query : string) :
  aligned encode self →
  length (retrieve encode cosine_similarity bm25_get_scores argsort self query 0 true)
  = length (chunks self).
Proof.
  intros Hal.
  destruct (decide (chunks self = [])) as [Hnil | Hne].
  { unfold retrieve. by rewrite Hnil. }
  destruct (retrieve_indexed self query 0 true Hal Hne)
    as (bn & dn & Hbn & Hdn & ->).
  rewrite <- (Forall2_length _ _ _ (rows_total self true bn dn 0 Hbn Hdn)).
  unfold top_indices_of, Py.slice_from, Py.clamp.
  change (- 0 <? 0) with false. cbv iota.
  rewrite length_reverse, length_drop.
  rewrite (Permutation_length (argsort_perm _)), length_seq.
  unfold combine_scores. rewrite length_zip_with. lia.
Qed.

End Ranking.

(** The insertion sort of the indices is one admissible [argsort]. *)
Section InsertionArgsort.

Variable scores : list Q.

Local Open Scope Q_scope.

Lemma insert_index_perm (i : nat) (sorted : list nat) :
  insert_index scores i sorted ≡ₚ i :: sorted.
Proof.
  induction sorted as [| j rest IH]; [reflexivity |].
  cbn [insert_index]. destruct (Py.qgt _ _); [reflexivity |].
  rewrite IH. apply Permutation_swap.
Qed.

Lemma insert_index_sorted (i : nat) (sorted : list nat) :
  StronglySorted (by_score scores) sorted →
  StronglySorted (by_score scores) (insert_index scores i sorted).
Proof.
  induction sorted as [| j rest IH]; intros Hs.
  - repeat constructor.
  - apply StronglySorted_cons in Hs as [Hj Hrest].
    cbn [insert_index]. unfold Py.qgt.
    destruct (Qle_bool (nth j scores 0) (nth i scores 0)) eqn:E; cbn [negb].
    + apply Qle_bool_iff in E.
      apply StronglySorted_cons. split; [| by apply IH].
      rewrite (insert_index_perm i rest). constructor; [exact E | exact Hj].
    + assert (Hlt : (nth i scores 0 <= nth j scores 0)%Q).
      { destruct (Qlt_le_dec (nth i scores 0) (nth j scores 0)) as [H | H];
          [by apply Qlt_le_weak |].
        apply Qle_bool_iff in H. congruence. }
      apply StronglySorted_cons. split.
      * constructor; [exact Hlt |].
        eapply Forall_impl; [exact Hj |].
        intros k Hk. unfold by_score in *. by eapply Qle_trans.
      * apply StronglySorted_cons. by split.
Qed.

Lemma fold_insert_spec (todo acc : list nat) :
  StronglySorted (by_score scores) acc →
  fold_left (fun sorted i => insert_index scores i sorted) todo acc ≡ₚ (todo ++ acc)%list
  ∧ StronglySorted (by_score scores)
      (fold_left (fun sorted i => insert_index scores i sorted) todo acc).
Proof.
  revert acc. induction todo as [| i todo IH]; intros acc Hs; [by split |].
  cbn [fold_left].
  destruct (IH (insert_index scores i acc) (insert_index_sorted i acc Hs)) as [Hp Hs'].
  split; [| exact Hs'].
  rewrite Hp, insert_index_perm. cbn. by rewrite Permutation_middle.
Qed.

Lemma insertion_argsort_perm :
  insertion_argsort scores ≡ₚ seq 0 (length scores).
Proof.
  unfold insertion_argsort.
  destruct (fold_insert_spec (seq 0 (length scores)) []) as [Hp _]; [constructor |].
  by rewrite Hp, app_nil_r.
Qed.

Lemma insertion_argsort_ascending (i j a b : nat) (x y : Q) :
  (i <= j)%nat →
  insertion_argsort scores !! i = Some a →
  insertion_argsort scores !! j = Some b →
  scores !! a = Some x → scores !! b = Some y → (x <= y)%Q.
Proof.
  intros Hij Ha Hb Hx Hy.
  assert (Hkey : ∀ k v, scores !! k = Some v → nth k scores 0 = v).
  { intros k v Hk. apply nth_lookup_Some with (d := 0) in Hk. exact Hk. }
  destruct (fold_insert_spec (seq 0 (length scores)) []) as [_ Hs]; [constructor |].
  fold (insertion_argsort scores) in Hs.
  destruct (decide (i = j)) as [-> | Hne].
  - rewrite Ha in Hb. injection Hb as ->.
    rewrite Hx in Hy. injection Hy as ->. apply Qle_refl.
  - rewrite <- (take_drop_middle _ _ _ Hb) in Hs, Ha.
    apply StronglySorted_app in Hs as (Hcross & _ & _).
    assert (Hin : a ∈ take j (insertion_argsort scores)).
    { rewrite lookup_app_l in Ha by (rewrite length_take; apply lookup_lt_Some in Hb; lia).
      by eapply list_elem_of_lookup_2. }
    specialize (Hcross a b Hin ltac:(apply elem_of_cons; by left)).
    unfold by_score in Hcross.
    by rewrite (Hkey a x Hx), (Hkey b y Hy) in Hcross.
Qed.

End InsertionArgsort.

(** C7: appending to a non-empty index keeps the indexed chunks and adds
    only the incoming chunks whose (source, chunk_id) key is not indexed yet;
    indexing the same batch a second time with [append] changes nothing, in
    particular not the chunk count; and an append never lowers the count. *)
Theorem C7_append_dedup {embedding : Type} (encode : string → embedding)
    (self : HybridRetriever embedding) (incoming : list DocumentChunk) :
  (chunks self ≠ [] → incoming ≠ [] →
   chunks (index_documents encode self incoming true)
   = (chunks self ++ List.filter (fresh_for (chunks self)) incoming)%list)
  ∧ index_documents encode (index_documents encode self incoming true) incoming true
    = index_documents encode self incoming true
  ∧ length (chunks (index_documents encode
                      (index_documents encode self incoming true) incoming true))
    = length (chunks (index_documents encode self incoming true))
  ∧ (length (chunks self)
     ≤ length (chunks (index_documents encode self incoming true)))%nat.
Proof.
  split; [apply index_append_chunks |].
  split; [apply index_twice |].
  split; [by rewrite index_twice |].
  destruct (decide (incoming = [])) as [-> | Hi]; [reflexivity |].
  destruct (decide (chunks self = [])) as [Hs | Hs].
  - rewrite Hs. simpl. lia.
  - rewrite index_append_chunks, length_app by done. lia.
Qed.

(** A witness for C7: appending an indexed chunk to the two-chunk index. *)
Lemma C7_append_dedup_witness :
  chunks Samples.sample_index ≠ []
  ∧ chunks (index_documents Samples.sample_encode Samples.sample_index
              [Samples.fee_chunk] true)
    = (chunks Samples.sample_index
       ++ List.filter (fresh_for (chunks Samples.sample_index)) [Samples.fee_chunk])%list.
Proof.
  split; [vm_compute; discriminate |].
  apply (C7_append_dedup Samples.sample_encode Samples.sample_index
           [Samples.fee_chunk]).
  - vm_compute; discriminate.
  - discriminate.
Defined.

End RetrieverSpec.

(** ** Facts about the string primitives *)

Module PyFacts.

Lemma chars_str (l : list ascii) : Py.chars (Py.str l) = l.
Proof. apply list_ascii_of_string_of_list_ascii. Qed.

Lemma length_chars (s : string) : length (Py.chars s) = String.length s.
Proof. induction s as [| c s IH]; simpl; [reflexivity | by rewrite IH]. Qed.

Lemma len_str (l : list ascii) : Py.len (Py.str l) = Z.of_nat (length l).
Proof.
  unfold Py.len. f_equal. rewrite <- length_chars. by rewrite chars_str.
Qed.

Lemma len_nonneg (s : string) : 0 ≤ Py.len s.
Proof. unfold Py.len. lia. Qed.

Lemma clamp_inside (n i : Z) : 0 ≤ i → Py.clamp n i = Z.min i n.
Proof.
  intros Hi. unfold Py.clamp. destruct (Z.ltb_spec i 0); [lia | reflexivity].
Qed.

Lemma slice_inside {A} (l : list A) (a b : Z) :
  0 ≤ a → a ≤ b →
  Py.slice l a b
  = take (Z.to_nat (Z.min b (Z.of_nat (length l)) - Z.min a (Z.of_nat (length l))))
         (drop (Z.to_nat (Z.min a (Z.of_nat (length l)))) l).
Proof.
  intros Ha Hb. unfold Py.slice. rewrite !clamp_inside by lia. reflexivity.
Qed.

Lemma slice_length {A} (l : list A) (a b : Z) :
  0 ≤ a → a ≤ b →
  Z.of_nat (length (Py.slice l a b))
  = Z.min b (Z.of_nat (length l)) - Z.min a (Z.of_nat (length l)).
Proof.
  intros Ha Hb. rewrite slice_inside by lia.
  rewrite length_take, length_drop. lia.
Qed.

Lemma substr_len (s : string) (a b : Z) :
  0 ≤ a → a ≤ b →
  Py.len (Py.substr s a b) = Z.min b (Py.len s) - Z.min a (Py.len s).
Proof.
  intros Ha Hb. unfold Py.substr. rewrite len_str, slice_length by lia.
  unfold Py.len. by rewrite length_chars.
Qed.

(** A prefix of a window is the window with an earlier end. *)
Lemma substr_prefix (s : string) (a w k : Z) :
  0 ≤ a → 0 ≤ k → k ≤ w → a + w ≤ Py.len s →
  Py.substr (Py.substr s a (a + w)) 0 k = Py.substr s a (a + k).
Proof.
  intros Ha Hk Hw Hs. unfold Py.substr at 1 3. f_equal.
  unfold Py.substr. rewrite chars_str.
  assert (Hn : Py.len s = Z.of_nat (length (Py.chars s)))
    by (unfold Py.len; by rewrite length_chars).
  rewrite (slice_inside (Py.slice _ _ _)) by lia.
  rewrite slice_length by lia.
  rewrite !(slice_inside (Py.chars s)) by lia.
  rewrite <- Hn.
  rewrite (Z.min_l (a + w) (Py.len s)), (Z.min_l a (Py.len s)),
    (Z.min_l (a + k) (Py.len s)) by lia.
  replace (a + w - a) with w by lia.
  rewrite (Z.min_l k w), (Z.min_l 0 w) by lia.
  change (Z.to_nat 0) with 0%nat.
  rewrite drop_0, take_take. f_equal. lia.
Qed.

Lemma rfind_chars_bound (p l : list ascii) (i : Z) :
  p ≠ [] → 0 ≤ i →
  Py.rfind_chars p l i = -1
  ∨ (i ≤ Py.rfind_chars p l i ∧ Py.rfind_chars p l i < i + Z.of_nat (length l)).
Proof.
  intros Hp. revert i. induction l as [| c l IH]; intros i Hi.
  - left. destruct p; [done | reflexivity].
  - cbn [Py.rfind_chars]. cbv zeta.
    rewrite length_cons, Nat2Z.inj_succ.
    destruct (IH (i + 1)) as [E | [H1 H2]]; [lia | |].
    + rewrite E. change (0 <=? -1) with false. cbv iota.
      destruct (Py.is_prefix p (c :: l)); [right; lia | by left].
    + destruct (Z.leb_spec 0 (Py.rfind_chars p l (i + 1))); [right; lia | lia].
Qed.

Lemma rfind_bound (needle hay : string) :
  needle ≠ "" → -1 ≤ Py.rfind needle hay < Py.len hay.
Proof.
  intros Hn. unfold Py.rfind.
  assert (Hp : Py.chars needle ≠ []) by (destruct needle; [done | discriminate]).
  destruct (rfind_chars_bound (Py.chars needle) (Py.chars hay) 0 Hp) as [E | H];
    [lia | |].
  - rewrite E. pose proof (len_nonneg hay). lia.
  - rewrite length_chars in H. unfold Py.len. lia.
Qed.

End PyFacts.

(** ** The chunker *)

Module ChunkerSpec.
Import Chunker PyFacts.

Section OnePage.

Variable self : DocumentProcessor.
Variables (page_text src : string) (pg : Z).

(** Every iteration moves forward when the overlap is not negative and
    leaves at least 199 characters of the window. *)
Hypothesis overlap_nonneg : 0 ≤ chunk_overlap self.
Hypothesis overlap_small : chunk_overlap self + 199 ≤ chunk_size self.

Lemma window_spec (start : Z) :
  0 ≤ start < Py.len page_text →
  ∃ e, window self page_text start = (Py.substr page_text start e, e)
       ∧ start + chunk_size self - 198 ≤ e ≤ start + chunk_size self.
Proof.
  intros Hstart. unfold window.
  destruct (Z.ltb_spec (start + chunk_size self) (Py.len page_text)) as [Hin | Hout];
    [| eexists; split; [reflexivity | lia]].
  set (chunk_text := Py.substr page_text start (start + chunk_size self)).
  set (break_point := Z.max (Py.rfind ". " chunk_text) (Py.rfind newline chunk_text)).
  destruct (Z.ltb_spec (chunk_size self - 200) break_point) as [Hcut | Hkeep];
    [| eexists; split; [reflexivity | lia]].
  assert (Hlen : Py.len chunk_text = chunk_size self).
  { unfold chunk_text. rewrite substr_len by lia. lia. }
  assert (Hbp : break_point < chunk_size self).
  { pose proof (rfind_bound ". " chunk_text ltac:(discriminate)).
    pose proof (rfind_bound newline chunk_text ltac:(discriminate)).
    unfold break_point. lia. }
  exists (start + (break_point + 1)).
  unfold chunk_text. rewrite substr_prefix by lia.
  rewrite substr_len by lia.
  split; [f_equal; lia | lia].
Qed.

Lemma chunk_loop_spec (fuel : nat) :
  ∀ (start id : Z) (acc : list DocumentChunk),
    0 ≤ start < Py.len page_text →
    Py.len page_text - start ≤ Z.of_nat fuel →
    ∃ new, chunk_loop self page_text src pg fuel start id acc = Some (acc ++ new)%list
           ∧ chain self page_text src pg start id new.
Proof.
  induction fuel as [| fuel IH]; intros start id acc Hstart Hfuel; [lia |].
  cbn [chunk_loop].
  destruct (Z.ltb_spec start (Py.len page_text)) as [_ | ?]; [| lia].
  destruct (window_spec start Hstart) as (e & -> & He).
  set (c := {| text := Py.strip (Py.substr page_text start e);
               source := src; page := pg; chunk_id := id;
               char_start := start; char_end := e;
               chunk_length := Py.len (Py.substr page_text start e) |}).
  assert (Hc : chunk_of self page_text src pg start id c).
  { unfold chunk_of, c; simpl. repeat split; lia. }
  destruct (Z.leb_spec (Py.len page_text) (e - chunk_overlap self)) as [Hexit | Hnext];
    [| destruct (Z.leb_spec (Py.len page_text) e) as [Hexit | Hnext']]; cbn [orb].
  - exists [c]. split; [reflexivity |]. apply chain_last; [exact Hc | simpl; lia].
  - exists [c]. split; [reflexivity |]. apply chain_last; [exact Hc | exact Hexit].
  - destruct (IH (e - chunk_overlap self) (id + 1) (Py.append acc c)) as (new & Hrun & Hch);
      [lia | lia |].
    exists (c :: new). split.
    + rewrite Hrun. unfold Py.append. by rewrite <- app_assoc.
    + apply chain_more; [exact Hc | exact Hnext' | exact Hch].
Qed.

Lemma chain_nonempty (start id : Z) (l : list DocumentChunk) :
  chain self page_text src pg start id l → l ≠ [].
Proof. intros H. inversion H; discriminate. Qed.

Lemma chain_linked (start id : Z) (l : list DocumentChunk) :
  chain self page_text src pg start id l →
  ∀ i c d, l !! i = Some c → l !! S i = Some d →
    char_start d = char_end c - chunk_overlap self.
Proof.
  induction 1 as [start id c Hc Hend | start id c rest Hc Hend Hrest IH];
    intros i x y Hx Hy.
  - destruct i; discriminate.
  - destruct i as [| i].
    + injection Hx as <-. cbn in Hy.
      inversion Hrest as [? ? c' Hc' ? | ? ? c' ? Hc' ? ?]; subst;
        injection Hy as <-; apply Hc'.
    + apply (IH i); assumption.
Qed.

Lemma chain_ids (start id : Z) (l : list DocumentChunk) :
  chain self page_text src pg start id l →
  ∀ i c, l !! i = Some c → chunk_id c = id + Z.of_nat i.
Proof.
  induction 1 as [start id c Hc Hend | start id c rest Hc Hend Hrest IH];
    intros i x Hx.
  - destruct i; [| discriminate]. injection Hx as <-.
    destruct Hc as (_ & -> & _). lia.
  - destruct i as [| i].
    + injection Hx as <-. destruct Hc as (_ & -> & _). lia.
    + rewrite (IH i x Hx). lia.
Qed.

Lemma chain_cover (start id : Z) (l : list DocumentChunk) :
  chain self page_text src pg start id l →
  ∀ p, start ≤ p < Py.len page_text →
    ∃ c, c ∈ l ∧ char_start c ≤ p < char_end c.
Proof.
  induction 1 as [start id c Hc Hend | start id c rest Hc Hend Hrest IH];
    intros p Hp.
  - exists c. split; [apply list_elem_of_singleton; reflexivity |].
    destruct Hc as (-> & _). lia.
  - destruct (Z.lt_ge_cases p (char_end c)) as [Hin | Hout].
    + exists c. split; [apply elem_of_cons; by left |].
      destruct Hc as (-> & _). lia.
    + destruct (IH p) as (d & Hd & Hrange); [lia |].
      exists d. split; [apply elem_of_cons; by right | exact Hrange].
Qed.

Lemma chain_last_end (start id : Z) (l : list DocumentChunk) :
  chain self page_text src pg start id l →
  ∃ c, last l = Some c ∧ Py.len page_text ≤ char_end c.
Proof.
  induction 1 as [start id c Hc Hend | start id c rest Hc Hend Hrest IH].
  - exists c. split; [reflexivity | exact Hend].
  - destruct IH as (d & Hd & Hle). exists d. split; [| exact Hle].
    destruct rest; [discriminate | exact Hd].
Qed.

Lemma chain_chunks (start id : Z) (l : list DocumentChunk) :
  chain self page_text src pg start id l →
  ∀ c, c ∈ l →
    source c = src ∧ page c = pg
    ∧ char_start c < char_end c ≤ char_start c + chunk_size self
    ∧ text c = Py.strip (Py.substr page_text (char_start c) (char_end c))
    ∧ chunk_length c = Py.len (Py.substr page_text (char_start c) (char_end c)).
Proof.
  assert (Hone : ∀ s i c, chunk_of self page_text src pg s i c →
            source c = src ∧ page c = pg
            ∧ char_start c < char_end c ≤ char_start c + chunk_size self
            ∧ text c = Py.strip (Py.substr page_text (char_start c) (char_end c))
            ∧ chunk_length c
              = Py.len (Py.substr page_text (char_start c) (char_end c))).
  { intros s i c (Hs & _ & Hsrc & Hpg & Hend & Htext & Hlen).
    rewrite Hs. repeat split; try assumption; lia. }
  induction 1 as [start id c Hc Hend | start id c rest Hc Hend Hrest IH];
    intros x Hx.
  - apply list_elem_of_singleton in Hx as ->. by eapply Hone.
  - apply elem_of_cons in Hx as [-> | Hx]; [by eapply Hone | by apply IH].
Qed.

Lemma create_chunks_chain :
  page_text ≠ "" →
  ∃ chunks, _create_chunks self page_text src pg = Some chunks
            ∧ chain self page_text src pg 0 0 chunks.
Proof.
  intros Hne. unfold _create_chunks.
  assert (0 < Py.len page_text).
  { unfold Py.len. destruct page_text; [done | simpl; lia]. }
  destruct (chunk_loop_spec (S (String.length page_text)) 0 0 []) as (new & Hrun & Hch).
  - lia.
  - unfold Py.len. lia.
  - exists new. split; [exact Hrun | exact Hch].
Qed.

End OnePage.

(** Where every window advances, that is with a non-negative overlap that
    leaves 199 characters of the window (the defaults 800 and 200 included),
    the chunks overlap and cover the page: for a non-empty page text,
    [_create_chunks] returns a non-empty list
    in which every chunk after the first starts exactly [chunk_overlap]
    characters before the end of the previous chunk (whether or not that
    chunk was cut at a break point), every character offset of the text lies
    in the range of some chunk, the last range reaches the end of the text,
    and each chunk holds the stripped text of its range. *)
Theorem overlap_and_coverage (self : DocumentProcessor)
    (page_text src : string) (pg : Z) :
  0 ≤ chunk_overlap self →
  chunk_overlap self + 199 ≤ chunk_size self →
  page_text ≠ "" →
  ∃ chunks,
    _create_chunks self page_text src pg = Some chunks
    ∧ chunks ≠ []
    ∧ (∀ i c d, chunks !! i = Some c → chunks !! S i = Some d →
         char_start d = char_end c - chunk_overlap self)
    ∧ (∀ p, 0 ≤ p < Py.len page_text →
         ∃ c, c ∈ chunks ∧ char_start c ≤ p < char_end c)
    ∧ (∃ c, last chunks = Some c ∧ Py.len page_text ≤ char_end c)
    ∧ (∀ c, c ∈ chunks →
         char_start c < char_end c ≤ char_start c + chunk_size self
         ∧ text c = Py.strip (Py.substr page_text (char_start c) (char_end c))).
Proof.
  intros HO HS Hne.
  destruct (create_chunks_chain self page_text src pg HO HS Hne) as (chunks & Hrun & Hch).
  exists chunks. split; [exact Hrun |].
  split; [by eapply chain_nonempty |].
  split; [by eapply chain_linked |].
  split; [by eapply chain_cover |].
  split; [by eapply chain_last_end |].
  intros c Hc.
  destruct (chain_chunks self page_text src pg HO HS _ _ _ Hch c Hc)
    as (_ & _ & ? & ? & _).
  done.
Qed.

(** The default processor on a short page. *)
Lemma overlap_and_coverage_witness :
  ∃ chunks,
    _create_chunks default_processor "The management fee is 2% annually."
      "fund.pdf" 1 = Some chunks
    ∧ chunks ≠ [].
Proof.
  destruct (overlap_and_coverage default_processor
              "The management fee is 2% annually." "fund.pdf" 1)
    as (chunks & Hrun & Hne & _).
  - simpl. lia.
  - simpl. lia.
  - discriminate.
  - exists chunks. split; [exact Hrun | exact Hne].
Defined.

Lemma rfind_chars_absent (a : ascii) (p l : list ascii) (i : Z) :
  a ∉ l → Py.rfind_chars (a :: p) l i = -1.
Proof.
  revert i. induction l as [| c l IH]; intros i Ha; [reflexivity |].
  cbn [Py.rfind_chars]. rewrite IH by (intros H; apply Ha, elem_of_cons; by right).
  cbn [Py.is_prefix]. destruct (Ascii.eqb a c) eqn:E; [| reflexivity].
  apply Ascii.eqb_eq in E. subst. exfalso. apply Ha, elem_of_cons. by left.
Qed.

Lemma substr_chars_subset (s : string) (a b : Z) (c : ascii) :
  c ∈ Py.chars (Py.substr s a b) → c ∈ Py.chars s.
Proof.
  unfold Py.substr, Py.slice. rewrite chars_str. intros H.
  by apply subseteq_take, subseteq_drop in H.
Qed.

Lemma substr_empty (s : string) : Py.substr s 0 0 = "".
Proof.
  unfold Py.substr, Py.slice. rewrite clamp_inside by lia.
  rewrite Z.sub_diag. reflexivity.
Qed.

(** With a window of fewer than 199 characters the test
    [break_point > chunk_size - 200] also holds for the [-1] that [rfind]
    returns when nothing is found: a window that does not reach the end of
    a text without sentence end is cut to the empty string and ends where it
    starts. *)
Lemma window_cut_to_nothing (self : DocumentProcessor) (page_text : string)
    (start : Z) :
  chunk_size self < 199 →
  "."%char ∉ Py.chars page_text →
  ascii_of_nat 10 ∉ Py.chars page_text →
  start + chunk_size self < Py.len page_text →
  window self page_text start = ("", start).
Proof.
  intros Hsize Hdot Hnl Hend. unfold window. cbv zeta.
  destruct (Z.ltb_spec (start + chunk_size self) (Py.len page_text)) as [_ | ?]; [| lia].
  assert (Hp : Py.rfind ". " (Py.substr page_text start (start + chunk_size self)) = -1).
  { apply rfind_chars_absent. intros H. apply Hdot. by eapply substr_chars_subset. }
  assert (Hn : Py.rfind newline (Py.substr page_text start (start + chunk_size self)) = -1).
  { apply rfind_chars_absent. intros H. apply Hnl. by eapply substr_chars_subset. }
  rewrite Hp, Hn. change (Z.max (-1) (-1)) with (-1).
  destruct (Z.ltb_spec (chunk_size self - 200) (-1)) as [_ | ?]; [| lia].
  change (-1 + 1) with 0. rewrite substr_empty. f_equal.
  change (Py.len "") with 0. lia.
Qed.

(** From a start that is not positive, such a processor with a non-negative
    overlap never leaves the loop: every iteration appends an empty chunk and
    moves [start] back by the overlap. *)
Lemma chunk_loop_never_returns (self : DocumentProcessor)
    (page_text src : string) (pg : Z) :
  0 ≤ chunk_size self < 199 →
  0 ≤ chunk_overlap self →
  chunk_size self < Py.len page_text →
  "."%char ∉ Py.chars page_text →
  ascii_of_nat 10 ∉ Py.chars page_text →
  ∀ fuel start id chunks,
    start ≤ 0 →
    chunk_loop self page_text src pg fuel start id chunks = None.
Proof.
  intros Hsize HO Hlen Hdot Hnl.
  induction fuel as [| fuel IH]; intros start id chunks Hstart; [reflexivity |].
  cbn [chunk_loop].
  destruct (Z.ltb_spec start (Py.len page_text)) as [_ | ?]; [| lia].
  rewrite window_cut_to_nothing by (try assumption; lia).
  destruct (Z.leb_spec (Py.len page_text) (start - chunk_overlap self)); [lia |].
  destruct (Z.leb_spec (Py.len page_text) start); [lia |].
  cbn [orb]. apply IH. lia.
Qed.

(** C8: with [chunk_size = 150] and [chunk_overlap = 20] the call on a
    cleaned page of 213 characters never returns, so no chunk list covers the
    page.  The first window [0, 150) holds no sentence end, [rfind] gives
    [-1], and the test [break_point > chunk_size - 200], here [-1 > -50],
    cuts the window to the empty string: the chunk emitted has
    [char_start = char_end = 0], and the next start is [-20], from where
    the same happens again, whatever the number of iterations allowed. *)
Theorem C8_short_window_never_returns :
  _clean_text Samples.strategy_page = Samples.strategy_page
  ∧ Py.len Samples.strategy_page = 213
  ∧ window Samples.small_processor Samples.strategy_page 0 = ("", 0)
  ∧ (∀ fuel,
       chunk_loop Samples.small_processor Samples.strategy_page "fund.pdf" 1
         fuel 0 0 [] = None)
  ∧ _create_chunks Samples.small_processor Samples.strategy_page "fund.pdf" 1 = None.
Proof.
  assert (Hloop : ∀ fuel start id chunks, start ≤ 0 →
            chunk_loop Samples.small_processor Samples.strategy_page "fund.pdf" 1
              fuel start id chunks = None).
  { apply chunk_loop_never_returns; [cbn; lia | cbn; lia | vm_compute; reflexivity
                                     | compute_done | compute_done]. }
  split; [vm_compute; reflexivity |].
  split; [vm_compute; reflexivity |].
  split; [vm_compute; reflexivity |].
  split; [intros fuel; by apply Hloop |].
  unfold _create_chunks. by apply Hloop.
Qed.

(** Within one page the chunk ids are 0, 1, 2, ... *)
Lemma page_chunk_ids (self : DocumentProcessor) (page_text src : string) (pg : Z) :
  0 ≤ chunk_overlap self →
  chunk_overlap self + 199 ≤ chunk_size self →
  page_text ≠ "" →
  ∃ chunks,
    _create_chunks self page_text src pg = Some chunks
    ∧ ∀ i c, chunks !! i = Some c → chunk_id c = Z.of_nat i.
Proof.
  intros HO HS Hne.
  destruct (create_chunks_chain self page_text src pg HO HS Hne) as (chunks & Hrun & Hch).
  exists chunks. split; [exact Hrun |].
  intros i c Hc. by rewrite (chain_ids self page_text src pg _ _ _ Hch i c Hc).
Qed.

(** C3: on a file with two non-empty pages the counter restarts: the chunk
    of page 1 and the chunk of page 2 both carry [chunk_id = 0], so two
    different chunks of one source share the key (source, chunk_id).  As a
    consequence, appending both pages to an index that holds page 1 only
    drops the chunk of page 2 as a duplicate. *)
Theorem C3_chunk_ids_restart_per_page :
  process_pdf Samples.posix_basename Samples.two_page_pdf default_processor
    "reports/fund.pdf"
  = Some [Samples.fee_chunk; Samples.report_chunk]
  ∧ Samples.fee_chunk ≠ Samples.report_chunk
  ∧ Retriever.chunk_key Samples.fee_chunk = ("fund.pdf", 0)
  ∧ Retriever.chunk_key Samples.report_chunk = ("fund.pdf", 0)
  ∧ Retriever.chunks
      (Retriever.index_documents Samples.sample_encode
         (Retriever.index_documents Samples.sample_encode
            (Retriever.new_retriever (list string)) [Samples.fee_chunk] false)
         [Samples.fee_chunk; Samples.report_chunk] true)
    = [Samples.fee_chunk].
Proof.
  split; [vm_compute; reflexivity |].
  split; [discriminate |].
  split; [reflexivity |]. split; [reflexivity |].
  vm_compute. reflexivity.
Qed.

End ChunkerSpec.

(** ** Retrieval and the pipeline *)

Module PipelineSpec.
Import Validator Chunker Retriever Pipeline.

(** C6: with two chunks indexed, [retrieve] called with [top_k = 0] returns
    both of them: the slice [[-top_k:]] keeps the whole ranking when
    [top_k] is 0. *)
Theorem C6_top_k_zero_returns_everything :
  length (chunks Samples.sample_index) = 2%nat
  ∧ length (Samples.sample_retrieve Samples.sample_index "management fee" 0 true)
    = 2%nat
  ∧ length (Samples.sample_retrieve Samples.sample_index "management fee" 1 true)
    = 1%nat.
Proof. vm_compute. repeat split; reflexivity. Qed.

(** The ranking guarantees hold for the stand-in collaborators: a positive
    [top_k] bounds the number of results, which come in descending order. *)
Lemma sample_retrieve_ranked (self : HybridRetriever (list string))
    (question : string) (top_k : Z) :
  aligned Samples.sample_encode self → 0 < top_k →
  Z.of_nat (length (Samples.sample_retrieve self question top_k true))
  = Z.min top_k (Z.of_nat (length (chunks self)))
  ∧ (∀ i j ri rj,
       (i ≤ j)%nat →
       Samples.sample_retrieve self question top_k true !! i = Some ri →
       Samples.sample_retrieve self question top_k true !! j = Some rj →
       (get_combined_score rj <= get_combined_score ri)%Q).
Proof.
  intros Hal Hk. unfold Samples.sample_retrieve.
  destruct (RetrieverSpec.retrieve_ranked Samples.sample_encode
              Samples.sample_similarity Samples.sample_bm25 insertion_argsort)
    with (self := self) (query := question) (top_k := top_k)
    as (Hlen & Hdesc & _).
  - intros corpus q. unfold Samples.sample_bm25. apply length_map.
  - apply RetrieverSpec.insertion_argsort_perm.
  - apply RetrieverSpec.insertion_argsort_ascending.
  - exact Hal.
  - exact Hk.
  - split; [exact Hlen | exact Hdesc].
Qed.

Section Query.

Context {embedding : Type}.
Variable encode : string → embedding.
Variable cosine_similarity : embedding → embedding → Q.
Variable bm25_get_scores : list (list string) → list string → list Q.
Variable argsort : list Q → list nat.
Variable generate : string → list string → Z → Q → LLMResponse.
Variable format_2f : Q → string.

Lemma query_not_loaded (self : RAGPipeline embedding) (question : string)
    (return_sources validate_ : bool) :
  _documents_loaded self = false →
  query encode cosine_similarity bm25_get_scores argsort generate format_2f
    self question return_sources validate_
  = {| query_ := question;
       answer := "No documents loaded. Please load documents first.";
       sources := [];
       validation := None;
       metadata := {[ "error" := MStr "no_documents_loaded" ]} |}.
Proof. intros H. unfold query. rewrite H. reflexivity. Qed.

Lemma query_nothing_retrieved (self : RAGPipeline embedding) (question : string)
    (return_sources validate_ : bool) :
  _documents_loaded self = true →
  retrieve encode cosine_similarity bm25_get_scores argsort
    (retriever self) question (top_k self) true = [] →
  query encode cosine_similarity bm25_get_scores argsort generate format_2f
    self question return_sources validate_
  = {| query_ := question;
       answer := "I could not find relevant information in the documents.";
       sources := [];
       validation := None;
       metadata := {[ "retrieval_count" := MInt 0 ]} |}.
Proof. intros H E. unfold query. rewrite H, E. reflexivity. Qed.

End Query.

(** C9: without loaded documents [query] returns the fixed
    "no documents loaded" answer, no sources, no validation and the
    [error] tag in its metadata; with documents loaded and an empty retrieval
    it returns the fixed "could not find relevant information" answer, no
    sources and no validation.  Both are ordinary return values. *)
Theorem C9_degraded_responses {embedding : Type}
    (encode : string → embedding)
    (cosine_similarity : embedding → embedding → Q)
    (bm25_get_scores : list (list string) → list string → list Q)
    (argsort : list Q → list nat)
    (generate : string → list string → Z → Q → LLMResponse)
    (format_2f : Q → string)
    (self : RAGPipeline embedding) (question : string)
    (return_sources validate_ : bool) :
  (_documents_loaded self = false →
   query encode cosine_similarity bm25_get_scores argsort generate
     format_2f self question return_sources validate_
   = {| query_ := question;
        answer := "No documents loaded. Please load documents first.";
        sources := [];
        validation := None;
        metadata := {[ "error" := MStr "no_documents_loaded" ]} |})
  ∧ (_documents_loaded self = true →
     retrieve encode cosine_similarity bm25_get_scores argsort
       (retriever self) question (top_k self) true = [] →
     query encode cosine_similarity bm25_get_scores argsort generate
       format_2f self question return_sources validate_
     = {| query_ := question;
          answer := "I could not find relevant information in the documents.";
          sources := [];
          validation := None;
          metadata := {[ "retrieval_count" := MInt 0 ]} |}).
Proof.
  split; [apply query_not_loaded | apply query_nothing_retrieved].
Qed.

(** A witness for C9: the scenario of the specification on a fresh pipeline,
    and a loaded pipeline whose retrieval comes back empty. *)
Lemma C9_degraded_responses_witness :
  answer (Samples.sample_query Samples.negative_k_pipeline "What is the fee?" true true)
  = "No documents loaded. Please load documents first."
  ∧ validation (Samples.sample_query Samples.loaded_negative_k_pipeline
                  "What is the fee?" true true) = None.
Proof.
  split.
  - unfold Samples.sample_query.
    rewrite (proj1 (C9_degraded_responses Samples.sample_encode
                      Samples.sample_similarity Samples.sample_bm25
                      insertion_argsort Samples.sample_generate (fun _ => "0.00")
                      Samples.negative_k_pipeline "What is the fee?" true true));
      reflexivity.
  - unfold Samples.sample_query.
    rewrite (proj2 (C9_degraded_responses Samples.sample_encode
                      Samples.sample_similarity Samples.sample_bm25
                      insertion_argsort Samples.sample_generate (fun _ => "0.00")
                      Samples.loaded_negative_k_pipeline "What is the fee?" true true));
      [reflexivity | reflexivity | vm_compute; reflexivity].
Defined.

End PipelineSpec.

(** * Further properties of the code *)

(** ** The validator: scores, confidence and check lists *)

Module ValidatorMore.
Import Validator Notions.

Section Scores.
Local Open Scope Q_scope.

Lemma qnat_nonneg (n : nat) : 0 <= qnat n.
Proof.
  unfold qnat. change 0 with (inject_Z 0). rewrite <- Zle_Qle. lia.
Qed.

Lemma qnat_pos (n : nat) : (0 < n)%nat → 0 < qnat n.
Proof.
  intros H. unfold qnat. change 0 with (inject_Z 0). rewrite <- Zlt_Qlt. lia.
Qed.

Lemma qnat_le (n m : nat) : (n ≤ m)%nat → qnat n <= qnat m.
Proof. intros H. unfold qnat. rewrite <- Zle_Qle. lia. Qed.

Lemma ratio_bounds (n m : nat) : (n ≤ m)%nat → (0 < m)%nat →
  0 <= qnat n / qnat m ∧ qnat n / qnat m <= 1.
Proof.
  intros Hle Hpos. pose proof (qnat_pos m Hpos). pose proof (qnat_nonneg n).
  pose proof (qnat_le n m Hle). split.
  - apply Qle_shift_div_l; [assumption | lra].
  - apply Qle_shift_div_r; [assumption | lra].
Qed.

Lemma qsum_acc (l : list Q) (a : Q) : fold_left Qplus l a == a + qsum l.
Proof.
  unfold qsum. revert a. induction l as [| x l IH]; intros a; cbn [fold_left].
  - lra.
  - rewrite (IH (a + x)), (IH (0 + x)). lra.
Qed.

Lemma qsum_cons (x : Q) (l : list Q) : qsum (x :: l) == x + qsum l.
Proof. unfold qsum at 1. cbn [fold_left]. rewrite qsum_acc. lra. Qed.

Lemma qsum_bounds (lo hi : Q) (l : list Q) :
  (∀ x, x ∈ l → lo <= x ∧ x <= hi) →
  qnat (length l) * lo <= qsum l ∧ qsum l <= qnat (length l) * hi.
Proof.
  induction l as [| x l IH]; intros Hall.
  - unfold qsum, qnat. cbn [length fold_left].
    change (inject_Z (Z.of_nat 0)) with 0. split; lra.
  - destruct (Hall x) as [Hlo Hhi]; [apply elem_of_cons; by left |].
    destruct IH as [IHlo IHhi].
    { intros y Hy. apply Hall, elem_of_cons. by right. }
    rewrite qsum_cons.
    assert (Hs : qnat (length (x :: l)) == 1 + qnat (length l)).
    { unfold qnat. cbn [length]. rewrite Nat2Z.inj_succ, <- Z.add_1_l, inject_Z_plus.
      reflexivity. }
    rewrite Hs. split; lra.
Qed.

End Scores.

(** X1: the retrieval-quality score stays in the range its docstring gives:
    when the combined score of every chunk (a missing score counting as 0)
    lies in [0,1], so does the score returned, for any number of chunks. *)
Theorem retrieval_quality_unit_interval (chunks : list RetrievedChunk) :
  (∀ c, c ∈ chunks → (0 <= get_combined_score c)%Q ∧ (get_combined_score c <= 1)%Q) →
  (0 <= _check_retrieval_quality chunks)%Q
  ∧ (_check_retrieval_quality chunks <= 1)%Q.
Proof.
  intros Hall. destruct chunks as [| c cs]; [split; discriminate |].
  assert (Hmean : _check_retrieval_quality (c :: cs)
                  = (qsum (map get_combined_score (c :: cs))
                     / qnat (length (map get_combined_score (c :: cs))))%Q)
    by reflexivity.
  rewrite Hmean, length_map.
  destruct (qsum_bounds 0 1 (map get_combined_score (c :: cs))) as [Hlo Hhi].
  { intros x Hx. apply list_elem_of_In, in_map_iff in Hx as (d & <- & Hd).
    apply Hall. by apply list_elem_of_In. }
  rewrite length_map in Hlo, Hhi.
  pose proof (qnat_pos (length (c :: cs)) ltac:(cbn; lia)) as Hpos.
  split.
  - apply Qle_shift_div_l; [exact Hpos | lra].
  - apply Qle_shift_div_r; [exact Hpos | lra].
Qed.

(** A witness for X1: three chunks scored 0.7, 0.4 and 1. *)
Lemma retrieval_quality_unit_interval_witness :
  (0 <= _check_retrieval_quality
          [Samples.result_of_text "The management fee is 2% annually." (7 # 10);
           Samples.result_of_text "Performance is reported every quarter." (4 # 10);
           Samples.result_of_text "The fund invests in listed equities." 1])%Q
  ∧ (_check_retrieval_quality
       [Samples.result_of_text "The management fee is 2% annually." (7 # 10);
        Samples.result_of_text "Performance is reported every quarter." (4 # 10);
        Samples.result_of_text "The fund invests in listed equities." 1] <= 1)%Q.
Proof.
  apply (retrieval_quality_unit_interval
           [Samples.result_of_text "The management fee is 2% annually." (7 # 10);
            Samples.result_of_text "Performance is reported every quarter." (4 # 10);
            Samples.result_of_text "The fund invests in listed equities." 1]).
  intros c Hc. repeat (apply elem_of_cons in Hc as [-> | Hc]);
    [| | | by apply elem_of_nil in Hc]; vm_compute; split; discriminate.
Defined.

Lemma token_set_size (answer : string) :
  size (token_set answer) = 0%nat ↔ Py.split (Py.lower answer) = [].
Proof.
  unfold token_set. split.
  - intros E. apply size_empty_inv in E.
    destruct (Py.split (Py.lower answer)) as [| t ts]; [reflexivity |].
    exfalso. apply (not_elem_of_empty (C := gset string) t).
    rewrite <- E. apply elem_of_list_to_set, elem_of_cons. by left.
  - intros ->. reflexivity.
Qed.

(** X2: the source-alignment score always lies in [0,1]; it is 0 when there
    are no chunks or the answer has no token, and 1 when every token of the
    answer occurs among the tokens of the sources. *)
Theorem source_alignment_bounds (answer : string) (chunks : list RetrievedChunk) :
  (0 <= _check_source_alignment answer chunks)%Q
  ∧ (_check_source_alignment answer chunks <= 1)%Q
  ∧ (chunks = [] ∨ Py.split (Py.lower answer) = [] →
     _check_source_alignment answer chunks = 0%Q)
  ∧ (chunks ≠ [] → Py.split (Py.lower answer) ≠ [] →
     (∀ t, t ∈ Py.split (Py.lower answer) →
           t ∈ Py.split (Py.lower (source_text_of chunks))) →
     (_check_source_alignment answer chunks == 1)%Q).
Proof.
  pose proof (token_set_size answer) as Hsize.
  assert (Hcases :
    ((chunks = [] ∨ size (token_set answer) = 0%nat)
     ∧ _check_source_alignment answer chunks = 0%Q)
    ∨ (chunks ≠ [] ∧ size (token_set answer) ≠ 0%nat
       ∧ _check_source_alignment answer chunks
         = (qnat (size (token_set answer ∩ token_set (source_text_of chunks)))
            / qnat (size (token_set answer)))%Q)).
  { unfold _check_source_alignment.
    destruct chunks as [| c cs]; [left; split; [by left | done] |].
    destruct answer as [| a answer']; [left; split; [by right | done] |].
    destruct (decide (size (token_set (String a answer')) = 0%nat)) as [E | E];
      [left; split; [by right | done] | right; done]. }
  split; [| split; [| split]].
  - destruct Hcases as [[_ ->] | (_ & Hsz & ->)]; [discriminate |].
    apply ratio_bounds; [apply subseteq_size, intersection_subseteq_l | lia].
  - destruct Hcases as [[_ ->] | (_ & Hsz & ->)]; [discriminate |].
    apply ratio_bounds; [apply subseteq_size, intersection_subseteq_l | lia].
  - intros Hor. destruct Hcases as [[_ H] | (Hne & Hsz & _)]; [exact H |].
    destruct Hor as [-> | E]; [done |]. apply Hsize in E. contradiction.
  - intros Hne Htok Hsub.
    destruct Hcases as [[[-> | E] _] | (_ & Hsz & ->)];
      [done | by apply Hsize in E |].
    assert (Hsame : token_set answer ∩ token_set (source_text_of chunks)
                    = token_set answer).
    { apply set_eq. intros t. rewrite elem_of_intersection.
      unfold token_set. rewrite !elem_of_list_to_set. split; [tauto |].
      intros Ht. split; [exact Ht | by apply Hsub]. }
    rewrite Hsame.
    pose proof (qnat_pos (size (token_set answer)) ltac:(lia)) as Hp.
    field. lra.
Qed.

(** A witness for X2: an answer made of words of the source. *)
Lemma source_alignment_bounds_witness :
  (_check_source_alignment "the management fee" Samples.fee_context == 1)%Q.
Proof.
  apply (source_alignment_bounds "the management fee" Samples.fee_context).
  - discriminate.
  - vm_compute. discriminate.
  - assert (Ea : Py.split (Py.lower "the management fee")
                 = ["the"; "management"; "fee"]) by (vm_compute; reflexivity).
    remember (Py.split (Py.lower (source_text_of Samples.fee_context))) as src eqn:Es.
    vm_compute in Es. rewrite Ea, Es. intros t Ht.
    apply list_elem_of_In. apply list_elem_of_In in Ht. simpl in *.
    destruct Ht as [<- | [<- | [<- | []]]]; auto 40.
Defined.

Lemma validate_confidence (fmt : Q → string) (self : MultiStageValidator)
    (query answer : string) (chunks : list RetrievedChunk) :
  confidence_score (validate fmt self query answer chunks)
  = _calculate_confidence (_check_retrieval_quality chunks)
      (_check_source_alignment answer chunks)
      (length (passed_checks (validate fmt self query answer chunks)))
      (length (failed_checks (validate fmt self query answer chunks))).
Proof.
  unfold validate.
  repeat match goal with
         | |- context [if ?b then _ else _] => destruct b
         end; reflexivity.
Qed.

Lemma clamp_unit (c : Q) :
  (0 <= Py.qmin 1 (Py.qmax 0 c))%Q ∧ (Py.qmin 1 (Py.qmax 0 c) <= 1)%Q
  ∧ ((0 <= c)%Q → (c <= 1)%Q → (Py.qmin 1 (Py.qmax 0 c) == c)%Q).
Proof.
  unfold Py.qmin, Py.qmax.
  destruct (Qlt_le_dec 0 c) as [H0 | H0];
    [destruct (Qlt_le_dec c 1) as [H1 | H1] | destruct (Qlt_le_dec 0 1) as [H1 | H1]];
    (split; [| split]); try lra; intros; lra.
Qed.

(** X3: the confidence is always in [0,1]; when the retrieval and alignment
    scores are themselves in [0,1] the clamp is idle and the confidence is
    the weighted sum 0.3 retrieval + 0.3 alignment + 0.4 passed/(passed+failed). *)
Theorem confidence_in_unit_interval :
  (∀ (retrieval alignment : Q) (passed failed : nat),
      (0 <= _calculate_confidence retrieval alignment passed failed)%Q
      ∧ (_calculate_confidence retrieval alignment passed failed <= 1)%Q)
  ∧ (∀ (fmt : Q → string) (self : MultiStageValidator) (query answer : string)
       (chunks : list RetrievedChunk),
      (0 <= confidence_score (validate fmt self query answer chunks))%Q
      ∧ (confidence_score (validate fmt self query answer chunks) <= 1)%Q)
  ∧ (∀ (retrieval alignment : Q) (passed failed : nat),
      (0 <= retrieval)%Q → (retrieval <= 1)%Q →
      (0 <= alignment)%Q → (alignment <= 1)%Q → (0 < passed + failed)%nat →
      (_calculate_confidence retrieval alignment passed failed
       == (3 # 10) * retrieval + (3 # 10) * alignment
          + (4 # 10) * (qnat passed / qnat (passed + failed)))%Q).
Proof.
  split; [| split].
  - intros. unfold _calculate_confidence. cbv zeta.
    destruct (clamp_unit ((3 # 10) * retrieval + (3 # 10) * alignment
              + (4 # 10) * (qnat passed / qnat (Nat.max (passed + failed) 1)))%Q)
      as (H0 & H1 & _).
    split; assumption.
  - intros. rewrite validate_confidence. unfold _calculate_confidence. cbv zeta.
    match goal with
    | |- (0 <= Py.qmin 1 (Py.qmax 0 ?c))%Q ∧ _ =>
        destruct (clamp_unit c) as (H0 & H1 & _)
    end.
    split; assumption.
  - intros retrieval alignment passed failed Hr0 Hr1 Ha0 Ha1 Hn.
    unfold _calculate_confidence. cbv zeta.
    replace (Nat.max (passed + failed) 1) with (passed + failed)%nat by lia.
    destruct (ratio_bounds passed (passed + failed)) as [Hq0 Hq1]; [lia | lia |].
    apply clamp_unit; lra.
Qed.

(** A witness for X3. *)
Lemma confidence_in_unit_interval_witness :
  (_calculate_confidence 1 (4 # 5) 3 1
   == (3 # 10) * 1 + (3 # 10) * (4 # 5) + (4 # 10) * (qnat 3 / qnat (3 + 1)))%Q.
Proof.
  apply (proj2 (proj2 confidence_in_unit_interval)).
  - discriminate.
  - discriminate.
  - discriminate.
  - discriminate.
  - lia.
Defined.

Lemma likely_has_indicator (answer : string) (chunks : list RetrievedChunk) :
  likely_hallucination (_detect_hallucination answer chunks) = true →
  indicators (_detect_hallucination answer chunks) ≠ [].
Proof.
  unfold _detect_hallucination.
  destruct (contradiction_indicator answer),
    (specificity_indicator answer chunks),
    (length_indicator answer chunks); cbn; intros H; discriminate.
Qed.

Lemma has_numbers_iff (answer : string) (chunks : list RetrievedChunk) :
  has_numbers (_check_numerical_accuracy answer chunks) = true
  ↔ _extract_numbers answer ≠ [].
Proof.
  unfold _check_numerical_accuracy.
  destruct (_extract_numbers answer); cbn; split; (done || discriminate).
Qed.

(** The check lists and warnings in terms of the four outcomes. *)
Lemma validate_lists (fmt : Q → string) (self : MultiStageValidator)
    (query answer : string) (chunks : list RetrievedChunk) :
  let p1 := Py.qge (_check_retrieval_quality chunks) (retrieval_threshold self) in
  let p2 := Py.qge (_check_source_alignment answer chunks) (alignment_threshold self) in
  let p3 := negb (likely_hallucination (_detect_hallucination answer chunks)) in
  let hn := has_numbers (_check_numerical_accuracy answer chunks) in
  let p4 := validated (_check_numerical_accuracy answer chunks) in
  let r := validate fmt self query answer chunks in
  passed_checks r
  = ((if p1 then ["retrieval_quality"] else [])
     ++ (if p2 then ["source_alignment"] else [])
     ++ (if p3 then ["hallucination_check"] else [])
     ++ (if hn && p4 then ["numerical_accuracy"] else []))%list
  ∧ failed_checks r
    = ((if p1 then [] else ["retrieval_quality"])
       ++ (if p2 then [] else ["source_alignment"])
       ++ (if p3 then [] else ["hallucination_check"])
       ++ (if hn && negb p4 then ["numerical_accuracy"] else []))%list
  ∧ (warnings r = [] ↔ p1 && p2 && p3 && (negb hn || p4) = true).
Proof.
  cbv zeta. unfold validate.
  pose proof (likely_has_indicator answer chunks) as Hind.
  destruct (Py.qge (_check_retrieval_quality chunks) (retrieval_threshold self)),
    (Py.qge (_check_source_alignment answer chunks) (alignment_threshold self)),
    (likely_hallucination (_detect_hallucination answer chunks)),
    (has_numbers (_check_numerical_accuracy answer chunks)),
    (validated (_check_numerical_accuracy answer chunks));
    cbn [negb andb orb passed_checks failed_checks warnings app Py.append Py.extend];
    unfold Py.append, Py.extend;
    (split; [reflexivity |]); (split; [reflexivity |]);
    (split; [intros H; first [discriminate H | reflexivity
                             | apply app_eq_nil in H as [_ H]; first [discriminate H
                                 | by apply Hind in H]
                             | (exfalso; destruct (indicators _); [by apply Hind | discriminate H])
                             | idtac]
            | intros H; first [discriminate H | reflexivity]]).
Qed.

Lemma qge_iff (a b : Q) : Py.qge a b = true ↔ (b <= a)%Q.
Proof. unfold Py.qge. apply Qle_bool_iff. Qed.

(** Goals about membership in lists of literal check names. *)
Ltac names_solver :=
  cbn [andb negb app];
  rewrite ?elem_of_app, ?elem_of_cons, ?elem_of_nil;
  intuition (try discriminate; try congruence).

(** X4: every check is recorded once. No name occurs twice in
    [passed_checks ++ failed_checks]; the first three checks are each in
    exactly one of the two lists, according to their criterion;
    [numerical_accuracy] is recorded only when the answer has numbers. *)
Theorem check_lists_partition (fmt : Q → string) (self : MultiStageValidator)
    (query answer : string) (chunks : list RetrievedChunk) :
  NoDup (passed_checks (validate fmt self query answer chunks)
         ++ failed_checks (validate fmt self query answer chunks))
  ∧ (∀ n, n ∈ (passed_checks (validate fmt self query answer chunks)
               ++ failed_checks (validate fmt self query answer chunks))%list →
          n ∈ check_names)
  ∧ (("retrieval_quality" ∈ passed_checks (validate fmt self query answer chunks)
      ↔ (retrieval_threshold self <= _check_retrieval_quality chunks)%Q)
     ∧ ("retrieval_quality" ∈ failed_checks (validate fmt self query answer chunks)
        ↔ ¬ (retrieval_threshold self <= _check_retrieval_quality chunks)%Q))
  ∧ (("source_alignment" ∈ passed_checks (validate fmt self query answer chunks)
      ↔ (alignment_threshold self <= _check_source_alignment answer chunks)%Q)
     ∧ ("source_alignment" ∈ failed_checks (validate fmt self query answer chunks)
        ↔ ¬ (alignment_threshold self <= _check_source_alignment answer chunks)%Q))
  ∧ (("hallucination_check" ∈ passed_checks (validate fmt self query answer chunks)
      ↔ likely_hallucination (_detect_hallucination answer chunks) = false)
     ∧ ("hallucination_check" ∈ failed_checks (validate fmt self query answer chunks)
        ↔ likely_hallucination (_detect_hallucination answer chunks) = true))
  ∧ (("numerical_accuracy" ∈ passed_checks (validate fmt self query answer chunks)
      ↔ _extract_numbers answer ≠ []
        ∧ validated (_check_numerical_accuracy answer chunks) = true)
     ∧ ("numerical_accuracy" ∈ failed_checks (validate fmt self query answer chunks)
        ↔ _extract_numbers answer ≠ []
          ∧ validated (_check_numerical_accuracy answer chunks) = false)).
Proof.
  destruct (validate_lists fmt self query answer chunks) as (-> & -> & _).
  pose proof (qge_iff (_check_retrieval_quality chunks) (retrieval_threshold self)) as H1.
  pose proof (qge_iff (_check_source_alignment answer chunks) (alignment_threshold self))
    as H2.
  pose proof (has_numbers_iff answer chunks) as H4.
  unfold check_names.
  destruct (Py.qge (_check_retrieval_quality chunks) (retrieval_threshold self)),
    (Py.qge (_check_source_alignment answer chunks) (alignment_threshold self)),
    (likely_hallucination (_detect_hallucination answer chunks)),
    (has_numbers (_check_numerical_accuracy answer chunks)),
    (validated (_check_numerical_accuracy answer chunks));
    cbn [andb negb app];
    (split; [compute_done |]);
    (split; [intros n; names_solver |]);
    names_solver.
Qed.

(** X5: a validation result carries no warning exactly when no check
    failed. *)
Theorem warnings_iff_failed_checks (fmt : Q → string) (self : MultiStageValidator)
    (query answer : string) (chunks : list RetrievedChunk) :
  warnings (validate fmt self query answer chunks) = []
  ↔ failed_checks (validate fmt self query answer chunks) = [].
Proof.
  destruct (validate_lists fmt self query answer chunks) as (_ & -> & ->).
  destruct (Py.qge (_check_retrieval_quality chunks) (retrieval_threshold self)),
    (Py.qge (_check_source_alignment answer chunks) (alignment_threshold self)),
    (likely_hallucination (_detect_hallucination answer chunks)),
    (has_numbers (_check_numerical_accuracy answer chunks)),
    (validated (_check_numerical_accuracy answer chunks));
    cbn [andb negb orb app]; split; intros H; first [reflexivity | discriminate H].
Qed.

(** X6: an answer is reported safe to use exactly when neither critical
    check failed and the confidence reaches [min_confidence] or 0.4. *)
Theorem safe_to_use_iff (fmt : Q → string) (self : MultiStageValidator)
    (query answer : string) (chunks : list RetrievedChunk) :
  is_safe_to_use (validate fmt self query answer chunks) = true
  ↔ ("retrieval_quality" ∉ failed_checks (validate fmt self query answer chunks))
    ∧ ("numerical_accuracy" ∉ failed_checks (validate fmt self query answer chunks))
    ∧ ((min_confidence self
        <= confidence_score (validate fmt self query answer chunks))%Q
       ∨ (4 # 10 <= confidence_score (validate fmt self query answer chunks))%Q).
Proof.
  pose proof (ValidatorSpec.validate_level fmt self query answer chunks) as Hl.
  cbv zeta in Hl. unfold is_safe_to_use. rewrite Hl.
  set (r := validate fmt self query answer chunks).
  pose proof (ValidatorSpec.determine_level_failed_iff self (confidence_score r)
                (failed_checks r)) as Hf.
  pose proof (qge_iff (confidence_score r) (min_confidence self)) as Hh.
  pose proof (qge_iff (confidence_score r) (4 # 10)) as Hm.
  unfold _determine_validation_level in *.
  destruct (bool_decide _) eqn:Hcrit.
  - split; [intros H; discriminate H |].
    intros (Hr & Hn & _). exfalso.
    destruct (proj1 Hf eq_refl) as [H | H]; contradiction.
  - assert (Hnone : ("retrieval_quality" ∉ failed_checks r)
                    ∧ ("numerical_accuracy" ∉ failed_checks r)).
    { split; intros Hin.
      - destruct (Py.qge (confidence_score r) (min_confidence self)),
          (Py.qge (confidence_score r) (4 # 10));
          (assert (Hx : "retrieval_quality" ∈ failed_checks r
                        ∨ "numerical_accuracy" ∈ failed_checks r) by (by left));
          apply Hf in Hx; discriminate Hx.
      - destruct (Py.qge (confidence_score r) (min_confidence self)),
          (Py.qge (confidence_score r) (4 # 10));
          (assert (Hx : "retrieval_quality" ∈ failed_checks r
                        ∨ "numerical_accuracy" ∈ failed_checks r) by (by right));
          apply Hf in Hx; discriminate Hx. }
    destruct Hnone as [Hr Hn].
    destruct (Py.qge (confidence_score r) (min_confidence self)),
      (Py.qge (confidence_score r) (4 # 10)); cbn;
      (split; [intros H; first [discriminate H | (split; [exact Hr | split; [exact Hn |]]);
                                 first [left; by apply Hh | right; by apply Hm]]
              | intros (_ & _ & [H | H]); first [reflexivity
                   | (apply Hh in H; discriminate H) | (apply Hm in H; discriminate H)]]).
Qed.

(** X7: with a positive retrieval threshold, validating against no retrieved
    chunk always ends FAILED: both scores are 0, [retrieval_quality] fails and
    the answer is not safe to use, whatever the answer says. *)
Theorem no_context_fails (fmt : Q → string) (self : MultiStageValidator)
    (query answer : string) :
  (0 < retrieval_threshold self)%Q →
  level (validate fmt self query answer []) = FAILED
  ∧ is_safe_to_use (validate fmt self query answer []) = false
  ∧ "retrieval_quality" ∈ failed_checks (validate fmt self query answer [])
  ∧ d_retrieval_score (details (validate fmt self query answer [])) = 0%Q
  ∧ d_alignment_score (details (validate fmt self query answer [])) = 0%Q.
Proof.
  intros Hthr.
  assert (Hrq : "retrieval_quality" ∈ failed_checks (validate fmt self query answer [])).
  { destruct (validate_lists fmt self query answer []) as (_ & -> & _).
    assert (E : Py.qge (_check_retrieval_quality []) (retrieval_threshold self) = false).
    { destruct (Py.qge _ _) eqn:E; [| reflexivity].
      apply qge_iff in E. change (_check_retrieval_quality []) with 0%Q in E. lra. }
    rewrite E. apply elem_of_app. left. apply list_elem_of_singleton. reflexivity. }
  assert (Hlevel : level (validate fmt self query answer []) = FAILED).
  { pose proof (ValidatorSpec.validate_level fmt self query answer []) as Hl.
    cbv zeta in Hl. rewrite Hl.
    apply ValidatorSpec.determine_level_failed_iff. by left. }
  split; [exact Hlevel |]. split; [unfold is_safe_to_use; by rewrite Hlevel |].
  split; [exact Hrq |].
  unfold validate.
  repeat match goal with
         | |- context [if ?b then _ else _] => destruct b
         end; split; reflexivity.
Qed.

(** A witness for X7: the default thresholds. *)
Lemma no_context_fails_witness :
  level (validate (fun _ => "0.00") default_validator "What is the fee?"
           "The fee is 2%." []) = FAILED.
Proof.
  apply (no_context_fails (fun _ => "0.00") default_validator "What is the fee?"
           "The fee is 2%.").
  reflexivity.
Defined.

(** X8: for a fixed list of failed checks, a higher confidence never gives a
    lower level. *)
Theorem level_monotone_in_confidence (self : MultiStageValidator)
    (failed : list string) (c1 c2 : Q) :
  (c1 <= c2)%Q →
  (level_rank (_determine_validation_level self c1 failed)
   ≤ level_rank (_determine_validation_level self c2 failed))%nat.
Proof.
  intros Hle. unfold _determine_validation_level.
  destruct (bool_decide _); [reflexivity |].
  pose proof (qge_iff c1 (min_confidence self)) as H1.
  pose proof (qge_iff c2 (min_confidence self)) as H2.
  pose proof (qge_iff c1 (4 # 10)) as H3.
  pose proof (qge_iff c2 (4 # 10)) as H4.
  destruct (Py.qge c1 (min_confidence self)), (Py.qge c2 (min_confidence self)),
    (Py.qge c1 (4 # 10)), (Py.qge c2 (4 # 10)); cbn; try lia.
  all: exfalso.
  all: try (assert (Hx : (min_confidence self <= c2)%Q)
              by (eapply Qle_trans; [apply H1; reflexivity | exact Hle]);
            apply H2 in Hx; discriminate Hx).
  all: try (assert (Hx : (4 # 10 <= c2)%Q)
              by (eapply Qle_trans; [apply H3; reflexivity | exact Hle]);
            apply H4 in Hx; discriminate Hx).
Qed.

(** A witness for X8. *)
Lemma level_monotone_in_confidence_witness :
  (level_rank (_determine_validation_level default_validator (3 # 10) [])
   ≤ level_rank (_determine_validation_level default_validator (7 # 10) []))%nat.
Proof.
  apply (level_monotone_in_confidence default_validator [] (3 # 10) (7 # 10)).
  discriminate.
Defined.

Section Digits.
Import Re.

Lemma star_total (a : regex) (s : list ascii)
    (k : list ascii → option (list ascii)) :
  (∀ s', is_Some (k s')) → is_Some (rmatch (Star a) s k).
Proof.
  intros Hk. cbn [rmatch]. generalize (length s) at 1. intros n. revert s.
  induction n as [| n IH]; intros s; [apply Hk |].
  destruct (rmatch a s _) as [x |]; [by eexists | apply Hk].
Qed.

Lemma rmatch_seq (a b : regex) (s : list ascii) k :
  rmatch (Seq a b) s k = rmatch a s (fun s' => rmatch b s' k).
Proof. reflexivity. Qed.

Lemma rmatch_alt (a b : regex) (s : list ascii) k :
  rmatch (Alt a b) s k
  = match rmatch a s k with Some x => Some x | None => rmatch b s k end.
Proof. reflexivity. Qed.

Lemma rmatch_eps (s : list ascii) k : rmatch Eps s k = k s.
Proof. reflexivity. Qed.

Lemma rmatch_chr (p : ascii → bool) (s : list ascii) k :
  rmatch (Chr p) s k
  = match s with c :: s' => if p c then k s' else None | [] => None end.
Proof. reflexivity. Qed.

Lemma decimal_matches_digit (c : ascii) (s : list ascii) :
  Py.isdigit c = true → is_Some (match_at re_decimal (c :: s)).
Proof.
  intros Hc. unfold match_at, re_decimal, Plus, Opt, digit.
  rewrite !rmatch_seq, rmatch_chr, Hc.
  apply star_total. intros s1. rewrite rmatch_seq, rmatch_alt.
  destruct (rmatch (Lit ".") s1 _) as [x |]; [by eexists |].
  rewrite rmatch_eps. apply star_total. intros s2. by eexists.
Qed.

Lemma findall_finds_digit (s : list ascii) :
  ∀ fuel, (length s < fuel)%nat → existsb Py.isdigit s = true →
          findall_chars fuel re_decimal s ≠ [].
Proof.
  induction s as [| c s IH]; intros fuel Hfuel Hd; [discriminate Hd |].
  destruct fuel as [| fuel]; [cbn in Hfuel; lia |].
  cbn [findall_chars].
  destruct (match_at re_decimal (c :: s)) as [rest |] eqn:E.
  - destruct (take (length (c :: s) - length rest) (c :: s)); discriminate.
  - cbn [existsb] in Hd. destruct (Py.isdigit c) eqn:Hc.
    + destruct (decimal_matches_digit c s Hc) as [x Hx]. congruence.
    + apply IH; [cbn in Hfuel; lia | exact Hd].
Qed.

Lemma findall_none (r : regex) :
  (∀ s, existsb Py.isdigit s = false → match_at r s = None) →
  ∀ fuel s, existsb Py.isdigit s = false → findall_chars fuel r s = [].
Proof.
  intros Hr. induction fuel as [| fuel IH]; intros s Hs; [reflexivity |].
  cbn [findall_chars]. rewrite (Hr s Hs).
  destruct s as [| c s]; [reflexivity |].
  apply IH. cbn [existsb] in Hs. apply orb_false_iff in Hs as [_ Hs]. exact Hs.
Qed.

Lemma percent_needs_digit (s : list ascii) :
  existsb Py.isdigit s = false → match_at re_percent s = None.
Proof.
  intros Hs. unfold match_at, re_percent, Plus, digit.
  rewrite !rmatch_seq, rmatch_chr.
  destruct s as [| c s]; [reflexivity |].
  cbn [existsb] in Hs. apply orb_false_iff in Hs as [-> _]. reflexivity.
Qed.

Lemma decimal_needs_digit (s : list ascii) :
  existsb Py.isdigit s = false → match_at re_decimal s = None.
Proof.
  intros Hs. unfold match_at, re_decimal, Plus, digit.
  rewrite !rmatch_seq, rmatch_chr.
  destruct s as [| c s]; [reflexivity |].
  cbn [existsb] in Hs. apply orb_false_iff in Hs as [-> _]. reflexivity.
Qed.

Lemma currency_needs_digit (s : list ascii) :
  existsb Py.isdigit s = false → match_at re_currency s = None.
Proof.
  intros Hs. unfold match_at, re_currency, Plus, digit, Lit.
  rewrite rmatch_seq, rmatch_chr.
  destruct s as [| c s]; [reflexivity |].
  destruct (Ascii.eqb "$" c); [| reflexivity].
  cbn [existsb] in Hs. apply orb_false_iff in Hs as [_ Hs].
  rewrite !rmatch_seq, rmatch_chr.
  destruct s as [| d s]; [reflexivity |].
  cbn [existsb] in Hs. apply orb_false_iff in Hs as [-> _]. reflexivity.
Qed.

End Digits.

Lemma extract_numbers_digit (answer : string) :
  _extract_numbers answer = [] ↔ has_digit answer = false.
Proof.
  unfold _extract_numbers, has_digit, Py.extend, Re.findall. cbn [fold_left app].
  split.
  - intros H. apply app_eq_nil in H as [_ H].
    destruct (existsb Py.isdigit (Py.chars answer)) eqn:E; [| reflexivity].
    exfalso. revert H. apply findall_finds_digit; [lia | exact E].
  - intros H.
    rewrite (findall_none _ percent_needs_digit _ _ H),
      (findall_none _ currency_needs_digit _ _ H),
      (findall_none _ decimal_needs_digit _ _ H).
    reflexivity.
Qed.

Lemma has_numbers_digit (answer : string) (chunks : list RetrievedChunk) :
  has_numbers (_check_numerical_accuracy answer chunks) = has_digit answer.
Proof.
  pose proof (extract_numbers_digit answer) as Hiff.
  pose proof (has_numbers_iff answer chunks) as Hn.
  destruct (has_digit answer) eqn:Hd.
  - apply Hn. intros E. apply Hiff in E. discriminate E.
  - destruct (has_numbers (_check_numerical_accuracy answer chunks)); [| reflexivity].
    exfalso. apply (proj1 Hn eq_refl). by apply Hiff.
Qed.

(** X9: numbers are extracted from a text exactly when it holds a decimal
    digit; so the numerical check reports [has_numbers] exactly for answers
    with a digit, whatever the sources are. *)
Theorem numbers_iff_digit (answer : string) (chunks : list RetrievedChunk) :
  (_extract_numbers answer = [] ↔ has_digit answer = false)
  ∧ has_numbers (_check_numerical_accuracy answer chunks) = has_digit answer.
Proof.
  split; [apply extract_numbers_digit | apply has_numbers_digit].
Qed.

End ValidatorMore.

(** ** The chunker: cleaning, chunk bounds and provenance *)

Module ChunkerMore.
Import Chunker PyFacts Notions ChunkerSpec.

Lemma str_chars (s : string) : Py.str (Py.chars s) = s.
Proof. apply string_of_list_ascii_of_string. Qed.

Lemma lstrip_no_leading (l : list ascii) : no_leading_space (Py.lstrip_chars l).
Proof.
  induction l as [| c l IH]; [exact I |].
  cbn [Py.lstrip_chars]. destruct (Py.isspace c) eqn:E; [exact IH | exact E].
Qed.

Lemma lstrip_fixed (l : list ascii) : no_leading_space l → Py.lstrip_chars l = l.
Proof. destruct l as [| c l]; [done |]. cbn. by intros ->. Qed.

Lemma lstrip_suffix (l : list ascii) :
  ∃ p, l = (p ++ Py.lstrip_chars l)%list.
Proof.
  induction l as [| c l [p IH]]; [by exists [] |].
  cbn [Py.lstrip_chars]. destruct (Py.isspace c).
  - exists (c :: p). cbn. by rewrite <- IH.
  - by exists [].
Qed.

Lemma lstrip_length (l : list ascii) : (length (Py.lstrip_chars l) ≤ length l)%nat.
Proof.
  destruct (lstrip_suffix l) as [p Hp]. rewrite Hp at 2. rewrite length_app. lia.
Qed.

Lemma lstrip_blank (l : list ascii) :
  Forall (fun c => Py.isspace c = true) l → Py.lstrip_chars l = [].
Proof.
  induction 1 as [| c l Hc _ IH]; [reflexivity |]. cbn. by rewrite Hc.
Qed.

Lemma rstrip_no_leading (l : list ascii) :
  no_leading_space l → no_leading_space (rev (Py.lstrip_chars (rev l))).
Proof.
  intros Hl. destruct (lstrip_suffix (rev l)) as [p Hp].
  apply (f_equal (@rev ascii)) in Hp. rewrite rev_involutive, rev_app_distr in Hp.
  destruct (rev (Py.lstrip_chars (rev l))) as [| c r]; [exact I |].
  rewrite Hp in Hl. exact Hl.
Qed.

Lemma strip_chars (s : string) :
  Py.chars (Py.strip s)
  = rev (Py.lstrip_chars (rev (Py.lstrip_chars (Py.chars s)))).
Proof. unfold Py.strip. apply chars_str. Qed.

Lemma strip_idempotent (s : string) : Py.strip (Py.strip s) = Py.strip s.
Proof.
  unfold Py.strip at 1. rewrite strip_chars.
  set (l := Py.lstrip_chars (Py.chars s)).
  rewrite (lstrip_fixed (rev (Py.lstrip_chars (rev l)))).
  - rewrite rev_involutive, (lstrip_fixed (Py.lstrip_chars (rev l)));
      [reflexivity | apply lstrip_no_leading].
  - apply rstrip_no_leading, lstrip_no_leading.
Qed.

Lemma strip_len (s : string) : Py.len (Py.strip s) ≤ Py.len s.
Proof.
  unfold Py.len. rewrite <- !length_chars, strip_chars, length_rev.
  pose proof (lstrip_length (rev (Py.lstrip_chars (Py.chars s)))) as H1.
  rewrite length_rev in H1.
  pose proof (lstrip_length (Py.chars s)). lia.
Qed.

Lemma strip_subset (s : string) (c : ascii) :
  c ∈ Py.chars (Py.strip s) → c ∈ Py.chars s.
Proof.
  rewrite strip_chars. intros Hc.
  apply list_elem_of_In, in_rev, list_elem_of_In in Hc.
  destruct (lstrip_suffix (rev (Py.lstrip_chars (Py.chars s)))) as [p Hp].
  assert (Hc' : c ∈ rev (Py.lstrip_chars (Py.chars s)))
    by (rewrite Hp; apply elem_of_app; by right).
  apply list_elem_of_In, in_rev, list_elem_of_In in Hc'.
  destruct (lstrip_suffix (Py.chars s)) as [q Hq].
  rewrite Hq. apply elem_of_app. by right.
Qed.

Lemma split_blank (l cur : list ascii) :
  Forall (fun c => Py.isspace c = true) l →
  Py.split_chars cur l = match cur with [] => [] | _ => [Py.str (rev cur)] end.
Proof.
  intros Hl. revert cur. induction Hl as [| c l Hc _ IH]; intros cur; [reflexivity |].
  cbn [Py.split_chars]. rewrite Hc. destruct cur; [apply IH |].
  rewrite (IH []). reflexivity.
Qed.

Lemma clean_text_blank (t : string) : blank t → _clean_text t = "".
Proof.
  intros Hb. unfold _clean_text, Py.split.
  rewrite (split_blank (Py.chars t) [] Hb). reflexivity.
Qed.

(** X10: a cleaned text holds no NUL character and no leading or trailing
    whitespace (stripping it again changes nothing); text made of whitespace
    only is cleaned to the empty string. *)
Theorem clean_text_normal_form (t : string) :
  (∀ c, c ∈ Py.chars (_clean_text t) → c ≠ nul)
  ∧ Py.strip (_clean_text t) = _clean_text t
  ∧ (blank t → _clean_text t = "").
Proof.
  split; [| split].
  - intros c Hc. unfold _clean_text in Hc.
    apply strip_subset in Hc. unfold Py.remove_char in Hc.
    rewrite chars_str in Hc. apply list_elem_of_In, filter_In in Hc as [_ Hc].
    intros ->. unfold nul in Hc. rewrite Ascii.eqb_refl in Hc. discriminate Hc.
  - unfold _clean_text. apply strip_idempotent.
  - apply clean_text_blank.
Qed.

(** A witness for X10: a page of spaces and a line break. *)
Lemma clean_text_normal_form_witness : _clean_text ("   " ++ newline ++ " ") = "".
Proof.
  apply (clean_text_normal_form ("   " ++ newline ++ " ")).
  unfold blank. vm_compute. repeat constructor.
Defined.

Section PageShape.

Variable self : DocumentProcessor.
Variables (page_text src : string) (pg : Z).
Hypothesis overlap_nonneg : 0 ≤ chunk_overlap self.
Hypothesis overlap_small : chunk_overlap self + 199 ≤ chunk_size self.

Lemma chain_head_start (start id : Z) (l : list DocumentChunk) (c : DocumentChunk) :
  chain self page_text src pg start id l → l !! 0%nat = Some c → char_start c = start.
Proof.
  intros Hch Hc. inversion Hch as [? ? c' Hc' ? | ? ? c' ? Hc' ? ?]; subst;
    injection Hc as <-; apply Hc'.
Qed.

Lemma chain_starts (start id : Z) (l : list DocumentChunk) :
  chain self page_text src pg start id l →
  start < Py.len page_text →
  (∀ c, c ∈ l → start ≤ char_start c < Py.len page_text)
  ∧ Z.of_nat (length l) ≤ Py.len page_text - start
  ∧ (∀ i c d, l !! i = Some c → l !! S i = Some d → char_start c < char_start d).
Proof.
  induction 1 as [start id c Hc Hend | start id c rest Hc Hend Hrest IH];
    intros Hlt.
  - destruct Hc as (Hs & _). split; [| split].
    + intros x Hx. apply list_elem_of_singleton in Hx as ->. lia.
    + cbn. lia.
    + intros i x y Hx Hy. destruct i; discriminate Hy.
  - pose proof Hc as (Hs & _ & _ & _ & Hrange & _).
    destruct IH as (Hall & Hlen & Hinc); [lia |].
    split; [| split].
    + intros x Hx. apply elem_of_cons in Hx as [-> | Hx]; [lia |].
      specialize (Hall x Hx). lia.
    + cbn [length]. lia.
    + intros i x y Hx Hy. destruct i as [| i].
      * injection Hx as <-. cbn in Hy.
        rewrite (chain_head_start _ _ _ _ Hrest Hy). lia.
      * by apply (Hinc i).
Qed.

End PageShape.

(** X11: within one page the chunks are numbered 0, 1, 2, ... in order, all
    carry the given source and page, and no chunk id is used twice. *)
Theorem page_chunks_identified (self : DocumentProcessor)
    (page_text src : string) (pg : Z) :
  0 ≤ chunk_overlap self →
  chunk_overlap self + 199 ≤ chunk_size self →
  page_text ≠ "" →
  ∃ chunks,
    _create_chunks self page_text src pg = Some chunks
    ∧ (∀ i c, chunks !! i = Some c →
         chunk_id c = Z.of_nat i ∧ source c = src ∧ page c = pg)
    ∧ NoDup (map chunk_id chunks).
Proof.
  intros HO HS Hne.
  destruct (create_chunks_chain self page_text src pg HO HS Hne) as (chunks & Hrun & Hch).
  exists chunks. split; [exact Hrun |].
  assert (Hid : ∀ i c, chunks !! i = Some c → chunk_id c = Z.of_nat i).
  { intros i c Hc. by rewrite (chain_ids self page_text src pg _ _ _ Hch i c Hc). }
  split.
  - intros i c Hc. split; [by apply Hid |].
    destruct (chain_chunks self page_text src pg HO HS _ _ _ Hch c
                (list_elem_of_lookup_2 _ _ _ Hc)) as (? & ? & _).
    by split.
  - rewrite RetrieverSpec.map_fmap. apply NoDup_alt. intros i j x Hi Hj.
    rewrite list_lookup_fmap in Hi, Hj.
    destruct (chunks !! i) as [c |] eqn:Ec; [| discriminate].
    destruct (chunks !! j) as [d |] eqn:Ed; [| discriminate].
    cbn in Hi, Hj. injection Hi as Hi. injection Hj as Hj.
    rewrite (Hid i c Ec) in Hi. rewrite (Hid j d Ed) in Hj. lia.
Qed.

(** A witness for X11: the default processor on a short page. *)
Lemma page_chunks_identified_witness :
  ∃ chunks,
    _create_chunks default_processor "The management fee is 2% annually."
      "fund.pdf" 1 = Some chunks
    ∧ NoDup (map chunk_id chunks).
Proof.
  destruct (page_chunks_identified default_processor
              "The management fee is 2% annually." "fund.pdf" 1)
    as (chunks & Hrun & _ & Hnd).
  - simpl. lia.
  - simpl. lia.
  - discriminate.
  - exists chunks. split; [exact Hrun | exact Hnd].
Defined.

(** X12: every chunk of a page starts inside the text, spans between 1 and
    [chunk_size] characters of it, and its stripped text is not longer than
    that span; chunk starts increase strictly, so a page of [n] characters
    gives at most [n] chunks. *)
Theorem chunk_bounds (self : DocumentProcessor) (page_text src : string) (pg : Z) :
  0 ≤ chunk_overlap self →
  chunk_overlap self + 199 ≤ chunk_size self →
  page_text ≠ "" →
  ∃ chunks,
    _create_chunks self page_text src pg = Some chunks
    ∧ (∀ c, c ∈ chunks →
         0 ≤ char_start c < Py.len page_text
         ∧ chunk_length c = Z.min (char_end c) (Py.len page_text) - char_start c
         ∧ 1 ≤ chunk_length c ≤ chunk_size self
         ∧ Py.len (text c) ≤ chunk_length c)
    ∧ (∀ i c d, chunks !! i = Some c → chunks !! S i = Some d →
         char_start c < char_start d)
    ∧ Z.of_nat (length chunks) ≤ Py.len page_text.
Proof.
  intros HO HS Hne.
  destruct (create_chunks_chain self page_text src pg HO HS Hne) as (chunks & Hrun & Hch).
  assert (Hpos : 0 < Py.len page_text).
  { unfold Py.len. destruct page_text; [done | simpl; lia]. }
  destruct (chain_starts self page_text src pg HO HS 0 0 chunks Hch Hpos)
    as (Hall & Hlen & Hinc).
  exists chunks. split; [exact Hrun |]. split; [| split; [exact Hinc | lia]].
  intros c Hc. specialize (Hall c Hc).
  destruct (chain_chunks self page_text src pg HO HS _ _ _ Hch c Hc)
    as (_ & _ & Hrange & Htext & Hcl).
  assert (Hspan : chunk_length c
                  = Z.min (char_end c) (Py.len page_text) - char_start c).
  { rewrite Hcl, substr_len by lia. lia. }
  split; [lia |]. split; [exact Hspan |]. split; [lia |].
  rewrite Htext, Hcl. apply strip_len.
Qed.

(** A witness for X12. *)
Lemma chunk_bounds_witness :
  ∃ chunks,
    _create_chunks default_processor "The management fee is 2% annually."
      "fund.pdf" 1 = Some chunks
    ∧ Z.of_nat (length chunks) ≤ Py.len "The management fee is 2% annually.".
Proof.
  destruct (chunk_bounds default_processor
              "The management fee is 2% annually." "fund.pdf" 1)
    as (chunks & Hrun & _ & _ & Hlen).
  - simpl. lia.
  - simpl. lia.
  - discriminate.
  - exists chunks. split; [exact Hrun | exact Hlen].
Defined.

Lemma create_chunks_empty (self : DocumentProcessor) (src : string) (pg : Z) :
  _create_chunks self "" src pg = Some [].
Proof. reflexivity. Qed.

(** X13: a page without text, or with whitespace only, adds no chunk and
    does not stop the document: the loop goes on with the next page number. *)
Theorem blank_page_skipped (self : DocumentProcessor) (src : string)
    (t : option string) (rest : list PageExtract) (page_num : Z)
    (chunks : list DocumentChunk) :
  t = None ∨ (∃ s, t = Some s ∧ blank s) →
  process_pages self src (Extracted t :: rest) page_num chunks
  = process_pages self src rest (page_num + 1) chunks.
Proof.
  intros [-> | (s & -> & Hs)]; [reflexivity |].
  destruct s as [| a s]; [reflexivity |].
  cbn [process_pages].
  rewrite (clean_text_blank (String a s) Hs), create_chunks_empty.
  unfold Py.extend. by rewrite app_nil_r.
Qed.

(** A witness for X13. *)
Lemma blank_page_skipped_witness :
  process_pages default_processor "fund.pdf" [Extracted (Some "  ")] 1 []
  = process_pages default_processor "fund.pdf" [] (1 + 1) [].
Proof.
  apply (blank_page_skipped default_processor "fund.pdf" (Some "  ") [] 1 []).
  right. exists "  ". split; [reflexivity |].
  unfold blank. vm_compute. repeat constructor.
Defined.

Lemma same_page_sorted (l : list DocumentChunk) (pg : Z) :
  (∀ c, c ∈ l → page c = pg) →
  StronglySorted (fun c d => page c ≤ page d) l.
Proof.
  induction l as [| c l IH]; intros Hall; [constructor |].
  constructor.
  - apply IH. intros d Hd. apply Hall, elem_of_cons. by right.
  - apply Forall_forall. intros d Hd.
    rewrite (Hall c), (Hall d); [lia | apply elem_of_cons; by right
                                | apply elem_of_cons; by left].
Qed.

Section Provenance.

Variable self : DocumentProcessor.
Hypothesis overlap_nonneg : 0 ≤ chunk_overlap self.
Hypothesis overlap_small : chunk_overlap self + 199 ≤ chunk_size self.

Lemma process_pages_spec (src : string) (pages : list PageExtract) :
  ∀ (page_num : Z) (acc : list DocumentChunk),
  ∃ out,
    process_pages self src pages page_num acc = Some (acc ++ out)%list
    ∧ (∀ c, c ∈ out →
         source c = src
         ∧ ∃ (k : nat) (t : string),
             pages !! k = Some (Extracted (Some t)) ∧ t ≠ ""
             ∧ page c = page_num + Z.of_nat k
             ∧ text c = Py.strip (Py.substr (_clean_text t) (char_start c) (char_end c)))
    ∧ StronglySorted (fun c d => page c ≤ page d) out.
Proof.
  induction pages as [| p pages IH]; intros page_num acc.
  - exists []. split; [by rewrite app_nil_r |]. split; [| constructor].
    intros c Hc. by apply elem_of_nil in Hc.
  - assert (Hskip : ∀ out,
        process_pages self src pages (page_num + 1) acc = Some (acc ++ out)%list →
        (∀ c, c ∈ out →
           source c = src
           ∧ ∃ (k : nat) (t : string),
               pages !! k = Some (Extracted (Some t)) ∧ t ≠ ""
               ∧ page c = page_num + 1 + Z.of_nat k
               ∧ text c = Py.strip (Py.substr (_clean_text t) (char_start c) (char_end c))) →
        ∀ c, c ∈ out →
           source c = src
           ∧ ∃ (k : nat) (t : string),
               (p :: pages) !! k = Some (Extracted (Some t)) ∧ t ≠ ""
               ∧ page c = page_num + Z.of_nat k
               ∧ text c = Py.strip (Py.substr (_clean_text t) (char_start c) (char_end c))).
    { intros out _ Hout c Hc. destruct (Hout c Hc) as (Hs & k & t & Hk & Ht & Hp & Htx).
      split; [exact Hs |]. exists (S k), t. repeat split; try assumption. lia. }
    destruct p as [[t |] |].
    + destruct t as [| a t].
      * destruct (IH (page_num + 1) acc) as (out & Hrun & Hprov & Hsort).
        exists out. split; [exact Hrun |]. split; [by eapply Hskip | exact Hsort].
      * cbn [process_pages].
        destruct (decide (_clean_text (String a t) = "")) as [E | E].
        -- rewrite E, create_chunks_empty. unfold Py.extend. rewrite app_nil_r.
           destruct (IH (page_num + 1) acc) as (out & Hrun & Hprov & Hsort).
           exists out. split; [exact Hrun |]. split; [by eapply Hskip | exact Hsort].
        -- destruct (ChunkerSpec.create_chunks_chain self (_clean_text (String a t)) src
                       page_num overlap_nonneg overlap_small E) as (pc & -> & Hch).
           destruct (IH (page_num + 1) (Py.extend acc pc)) as (out & Hrun & Hprov & Hsort).
           exists (pc ++ out)%list.
           split; [rewrite Hrun; unfold Py.extend; by rewrite app_assoc |].
           assert (Hpc : ∀ c, c ∈ pc →
                     source c = src ∧ page c = page_num
                     ∧ text c = Py.strip (Py.substr (_clean_text (String a t))
                                            (char_start c) (char_end c))).
           { intros c Hc.
             destruct (ChunkerSpec.chain_chunks self _ src page_num overlap_nonneg
                         overlap_small _ _ _ Hch c Hc) as (? & ? & _ & ? & _).
             done. }
           split.
           ++ intros c Hc. apply elem_of_app in Hc as [Hc | Hc].
              ** destruct (Hpc c Hc) as (Hs & Hp & Htx). split; [exact Hs |].
                 exists 0%nat, (String a t). repeat split; try done. lia.
              ** destruct (Hprov c Hc) as (Hs & k & t' & Hk & Ht & Hp & Htx).
                 split; [exact Hs |]. exists (S k), t'.
                 repeat split; try assumption. lia.
           ++ apply StronglySorted_app. split; [| split].
              ** intros c d Hc Hd. destruct (Hpc c Hc) as (_ & -> & _).
                 destruct (Hprov d Hd) as (_ & k & _ & _ & _ & -> & _). lia.
              ** apply (same_page_sorted pc page_num). intros c Hc.
                 by destruct (Hpc c Hc) as (_ & ? & _).
              ** exact Hsort.
    + destruct (IH (page_num + 1) acc) as (out & Hrun & Hprov & Hsort).
      exists out. split; [exact Hrun |]. split; [by eapply Hskip | exact Hsort].
    + exists []. split; [cbn; by rewrite app_nil_r |]. split; [| constructor].
      intros c Hc. by apply elem_of_nil in Hc.
Qed.

End Provenance.

Lemma process_pdf_spec (basename : string → string)
    (pdf_open : string → option (list PageExtract))
    (self : DocumentProcessor) (pdf_path : string) :
  0 ≤ chunk_overlap self →
  chunk_overlap self + 199 ≤ chunk_size self →
  ∃ chunks,
    process_pdf basename pdf_open self pdf_path = Some chunks
    ∧ (pdf_open pdf_path = None → chunks = [])
    ∧ (∀ c, c ∈ chunks →
         source c = basename pdf_path
         ∧ ∃ (pages : list PageExtract) (k : nat) (t : string),
             pdf_open pdf_path = Some pages
             ∧ pages !! k = Some (Extracted (Some t)) ∧ t ≠ ""
             ∧ page c = 1 + Z.of_nat k
             ∧ text c = Py.strip (Py.substr (_clean_text t) (char_start c) (char_end c)))
    ∧ StronglySorted (fun c d => page c ≤ page d) chunks.
Proof.
  intros HO HS. unfold process_pdf.
  destruct (pdf_open pdf_path) as [pages |] eqn:Eopen.
  - destruct (process_pages_spec self HO HS (basename pdf_path) pages 1 [])
      as (out & Hrun & Hprov & Hsort).
    exists out. split; [exact Hrun |]. split; [discriminate |].
    split; [| exact Hsort].
    intros c Hc. destruct (Hprov c Hc) as (Hs & k & t & Hk & Ht & Hp & Htx).
    split; [exact Hs |]. exists pages, k, t. done.
  - exists []. split; [reflexivity |]. split; [done |]. split; [| constructor].
    intros c Hc. by apply elem_of_nil in Hc.
Qed.

(** X14: with a non-negative overlap that leaves 199 characters of the
    window, [process_pdf] returns for every file; a file that cannot be
    opened gives no chunk; every chunk carries the file's base name and stems
    from a page with extracted text, whose 1-based number it records and
    whose cleaned text it cuts; the chunks come in page order. *)
Theorem process_pdf_provenance (basename : string → string)
    (pdf_open : string → option (list PageExtract))
    (self : DocumentProcessor) (pdf_path : string) :
  0 ≤ chunk_overlap self →
  chunk_overlap self + 199 ≤ chunk_size self →
  ∃ chunks,
    process_pdf basename pdf_open self pdf_path = Some chunks
    ∧ (pdf_open pdf_path = None → chunks = [])
    ∧ (∀ c, c ∈ chunks →
         source c = basename pdf_path
         ∧ ∃ (pages : list PageExtract) (k : nat) (t : string),
             pdf_open pdf_path = Some pages
             ∧ pages !! k = Some (Extracted (Some t)) ∧ t ≠ ""
             ∧ page c = 1 + Z.of_nat k
             ∧ text c = Py.strip (Py.substr (_clean_text t) (char_start c) (char_end c)))
    ∧ StronglySorted (fun c d => page c ≤ page d) chunks.
Proof.
  apply process_pdf_spec.
Qed.

(** A witness for X14: the default processor on the two-page file. *)
Lemma process_pdf_provenance_witness :
  ∃ chunks,
    process_pdf Samples.posix_basename Samples.two_page_pdf default_processor
      "reports/fund.pdf" = Some chunks
    ∧ StronglySorted (fun c d => page c ≤ page d) chunks.
Proof.
  destruct (process_pdf_provenance Samples.posix_basename Samples.two_page_pdf
              default_processor "reports/fund.pdf")
    as (chunks & Hrun & _ & _ & Hsort).
  - simpl. lia.
  - simpl. lia.
  - exists chunks. split; [exact Hrun | exact Hsort].
Defined.

Lemma process_directory_spec (basename : string → string)
    (pdf_open : string → option (list PageExtract))
    (glob_pdf : string → list string)
    (self : DocumentProcessor) (directory : string) :
  0 ≤ chunk_overlap self →
  chunk_overlap self + 199 ≤ chunk_size self →
  ∃ chunks,
    process_directory basename pdf_open glob_pdf self directory = Some chunks
    ∧ (glob_pdf directory = [] → chunks = [])
    ∧ ∀ c, c ∈ chunks →
        ∃ pdf_path, pdf_path ∈ glob_pdf directory ∧ source c = basename pdf_path.
Proof.
  intros HO HS. unfold process_directory.
  assert (Hfiles : ∀ files acc,
            ∃ out, process_files basename pdf_open self files acc = Some (acc ++ out)%list
                   ∧ (files = [] → out = [])
                   ∧ ∀ c, c ∈ out →
                       ∃ pdf_path, pdf_path ∈ files ∧ source c = basename pdf_path).
  { induction files as [| f files IH]; intros acc.
    - exists []. split; [cbn; by rewrite app_nil_r |]. split; [done |].
      intros c Hc. by apply elem_of_nil in Hc.
    - cbn [process_files].
      destruct (process_pdf_spec basename pdf_open self f HO HS)
        as (fc & -> & _ & Hfc & _).
      destruct (IH (Py.extend acc fc)) as (out & Hrun & _ & Hout).
      exists (fc ++ out)%list.
      split; [rewrite Hrun; unfold Py.extend; by rewrite app_assoc |].
      split; [discriminate |].
      intros c Hc. apply elem_of_app in Hc as [Hc | Hc].
      + exists f. split; [apply elem_of_cons; by left |]. by destruct (Hfc c Hc).
      + destruct (Hout c Hc) as (path & Hpath & Hs).
        exists path. split; [apply elem_of_cons; by right | exact Hs]. }
  destruct (Hfiles (glob_pdf directory) []) as (out & Hrun & Hnil & Hout).
  exists out. split; [exact Hrun |]. split; [exact Hnil | exact Hout].
Qed.

(** X15: under the same condition [process_directory] returns for every
    directory, and each chunk carries the base name of one of the files the
    directory listing found. *)
Theorem process_directory_sources (basename : string → string)
    (pdf_open : string → option (list PageExtract))
    (glob_pdf : string → list string)
    (self : DocumentProcessor) (directory : string) :
  0 ≤ chunk_overlap self →
  chunk_overlap self + 199 ≤ chunk_size self →
  ∃ chunks,
    process_directory basename pdf_open glob_pdf self directory = Some chunks
    ∧ (glob_pdf directory = [] → chunks = [])
    ∧ ∀ c, c ∈ chunks →
        ∃ pdf_path, pdf_path ∈ glob_pdf directory ∧ source c = basename pdf_path.
Proof.
  apply process_directory_spec.
Qed.

(** A witness for X15: a directory listing with one file. *)
Lemma process_directory_sources_witness :
  ∃ chunks,
    process_directory Samples.posix_basename Samples.two_page_pdf
      (fun _ => ["reports/fund.pdf"]) default_processor "reports" = Some chunks.
Proof.
  destruct (process_directory_sources Samples.posix_basename Samples.two_page_pdf
              (fun _ => ["reports/fund.pdf"]) default_processor "reports")
    as (chunks & Hrun & _).
  - simpl. lia.
  - simpl. lia.
  - exists chunks. exact Hrun.
Defined.

End ChunkerMore.

(** ** The retriever: index invariants and result rows *)

Module RetrieverMore.
Import Retriever Notions RetrieverSpec.

Section IndexInvariant.

Context {embedding : Type} (encode : string → embedding).

Lemma index_state (self : HybridRetriever embedding)
    (incoming : list DocumentChunk) (append : bool) :
  incoming ≠ [] →
  chunks (index_documents encode self incoming append) ≠ []
  ∧ chunk_embeddings (index_documents encode self incoming append)
    = Some (map encode (map text (chunks (index_documents encode self incoming append))))
  ∧ bm25 (index_documents encode self incoming append)
    = Some (map Py.split (map text (chunks (index_documents encode self incoming append))))
  ∧ bm25_weight (index_documents encode self incoming append) = bm25_weight self
  ∧ dense_weight (index_documents encode self incoming append) = dense_weight self.
Proof.
  intros Hi. split; [by apply index_nonempty |].
  destruct incoming as [| c cs]; [done |]. repeat split; reflexivity.
Qed.

End IndexInvariant.

(** X16: after any sequence of [index_documents] calls on a fresh retriever,
    either nothing is indexed (no chunks, no BM25 index, no embeddings) or
    the BM25 corpus and the embedding matrix hold exactly one entry per
    chunk, in chunk order; the weights are never changed. *)
Theorem index_stays_aligned {embedding : Type} (encode : string → embedding)
    (calls : list (list DocumentChunk * bool)) :
  bm25_weight (index_all encode (new_retriever embedding) calls) = 5 # 10
  ∧ dense_weight (index_all encode (new_retriever embedding) calls) = 5 # 10
  ∧ ((chunks (index_all encode (new_retriever embedding) calls) = []
      ∧ bm25 (index_all encode (new_retriever embedding) calls) = None
      ∧ chunk_embeddings (index_all encode (new_retriever embedding) calls) = None)
     ∨ (chunks (index_all encode (new_retriever embedding) calls) ≠ []
        ∧ ∃ corpus rows,
            bm25 (index_all encode (new_retriever embedding) calls) = Some corpus
            ∧ chunk_embeddings (index_all encode (new_retriever embedding) calls)
              = Some rows
            ∧ length corpus
              = length (chunks (index_all encode (new_retriever embedding) calls))
            ∧ length rows
              = length (chunks (index_all encode (new_retriever embedding) calls))
            ∧ (∀ i c, chunks (index_all encode (new_retriever embedding) calls) !! i
                      = Some c →
                 corpus !! i = Some (Py.split (text c))
                 ∧ rows !! i = Some (encode (text c))))).
Proof.
  assert (Hinv : ∀ st : HybridRetriever embedding,
    (bm25_weight st = 5 # 10 ∧ dense_weight st = 5 # 10
     ∧ ((chunks st = [] ∧ bm25 st = None ∧ chunk_embeddings st = None)
        ∨ (chunks st ≠ []
           ∧ bm25 st = Some (map Py.split (map text (chunks st)))
           ∧ chunk_embeddings st = Some (map encode (map text (chunks st)))))) →
    ∀ calls,
      let st' := index_all encode st calls in
      bm25_weight st' = 5 # 10 ∧ dense_weight st' = 5 # 10
      ∧ ((chunks st' = [] ∧ bm25 st' = None ∧ chunk_embeddings st' = None)
         ∨ (chunks st' ≠ []
            ∧ bm25 st' = Some (map Py.split (map text (chunks st')))
            ∧ chunk_embeddings st' = Some (map encode (map text (chunks st')))))).
  { intros st Hst cs. revert st Hst.
    induction cs as [| [incoming append] cs IH]; intros st Hst; [exact Hst |].
    cbn. apply IH. cbn [fst snd].
    destruct (decide (incoming = [])) as [-> | Hne]; [exact Hst |].
    destruct (index_state encode st incoming append Hne) as (Hc & He & Hb & Hw1 & Hw2).
    destruct Hst as (Hs1 & Hs2 & _).
    rewrite Hw1, Hw2. split; [exact Hs1 |]. split; [exact Hs2 |].
    right. done. }
  specialize (Hinv (new_retriever embedding)). cbv zeta in Hinv.
  destruct (Hinv ltac:(repeat split; left; repeat split) calls) as (H1 & H2 & H3).
  split; [exact H1 |]. split; [exact H2 |].
  destruct H3 as [H3 | (Hne & Hb & He)]; [by left | right].
  split; [exact Hne |]. eexists _, _. split; [exact Hb |]. split; [exact He |].
  rewrite !length_map. split; [reflexivity |]. split; [reflexivity |].
  intros i c Hc. rewrite !map_fmap, !list_lookup_fmap, Hc. done.
Qed.

(** X17: indexing keeps the keys unique: when no (source, chunk_id) key
    occurs twice in the index nor twice in the incoming batch, none occurs
    twice afterwards, with or without [append]. *)
Theorem index_keeps_keys_unique {embedding : Type} (encode : string → embedding)
    (self : HybridRetriever embedding) (incoming : list DocumentChunk)
    (append : bool) :
  NoDup (map chunk_key (chunks self)) →
  NoDup (map chunk_key incoming) →
  NoDup (map chunk_key (chunks (index_documents encode self incoming append))).
Proof.
  intros Hold Hnew.
  destruct (decide (incoming = [])) as [-> | Hi]; [exact Hold |].
  destruct (decide (chunks self = [])) as [Hs | Hs].
  { by rewrite index_first_chunks. }
  destruct append.
  - rewrite index_append_chunks, map_app by done.
    apply NoDup_app. split; [exact Hold |]. split.
    + intros k Hk Hk'.
      apply list_elem_of_In, in_map_iff in Hk' as (c & <- & Hc).
      apply filter_In in Hc as [_ Hfresh].
      unfold fresh_for in Hfresh. apply bool_decide_eq_true in Hfresh.
      contradiction.
    + clear Hi. induction incoming as [| c cs IH]; [constructor |].
      cbn [map] in Hnew. apply NoDup_cons in Hnew as [Hc Hcs].
      cbn [List.filter]. destruct (fresh_for (chunks self) c); [| by apply IH].
      cbn [map]. apply NoDup_cons. split; [| by apply IH].
      intros Hin. apply Hc.
      apply list_elem_of_In, in_map_iff in Hin as (d & Hd & Hin).
      apply filter_In in Hin as [Hin _].
      rewrite <- Hd. apply list_elem_of_In, in_map. exact Hin.
  - unfold index_documents. destruct incoming; [done |]. exact Hnew.
Qed.

(** A witness for X17: appending a page-2 chunk of another file. *)
Lemma index_keeps_keys_unique_witness :
  NoDup (map chunk_key
           (chunks (index_documents Samples.sample_encode
                      (index_documents Samples.sample_encode
                         (new_retriever (list string)) [Samples.fee_chunk] false)
                      [Samples.fee_chunk] true))).
Proof.
  apply (index_keeps_keys_unique Samples.sample_encode
           (index_documents Samples.sample_encode
              (new_retriever (list string)) [Samples.fee_chunk] false)
           [Samples.fee_chunk] true).
  - vm_compute. repeat constructor. intros H. by apply elem_of_nil in H.
  - vm_compute. repeat constructor. intros H. by apply elem_of_nil in H.
Defined.

Lemma normalize_range (scores : list Q) (v : Q) :
  v ∈ _normalize_scores scores → (0 <= v)%Q ∧ (v <= 1)%Q.
Proof.
  destruct scores as [| x l]; [intros H; by apply elem_of_nil in H |].
  intros Hv.
  destruct (Qeq_bool (arr_max x l - arr_min x l) 0) eqn:E.
  - apply spread_zero_iff in E.
    rewrite (normalize_constant _ v E Hv). split; discriminate.
  - assert (Hc : ¬ constant (x :: l)).
    { intros Hc. apply spread_zero_iff in Hc. congruence. }
    apply list_elem_of_lookup in Hv as [i Hi].
    assert (Hs : is_Some ((x :: l) !! i)).
    { apply lookup_lt_is_Some. rewrite <- (normalize_length (x :: l)).
      by eapply lookup_lt_Some. }
    destruct Hs as [s Hs].
    rewrite (normalize_lookup x l i s Hc Hs) in Hi. injection Hi as <-.
    pose proof (spread_positive x l Hc) as Hpos.
    pose proof (arr_min_lower l x s (list_elem_of_lookup_2 _ _ _ Hs)).
    pose proof (arr_max_upper l x s (list_elem_of_lookup_2 _ _ _ Hs)).
    split.
    + apply Qle_shift_div_l; [exact Hpos | lra].
    + apply Qle_shift_div_r; [exact Hpos | lra].
Qed.

Lemma result_row_fields {embedding : Type} (self : HybridRetriever embedding)
    (return_scores : bool) (combined bn dn : list Q) (idx : nat) (r : RetrievedChunk) :
  result_row self return_scores combined bn dn idx = Some r →
  ∃ chunk x b d,
    chunks self !! idx = Some chunk ∧ combined !! idx = Some x
    ∧ bn !! idx = Some b ∧ dn !! idx = Some d
    ∧ row_of chunk r
    ∧ r_combined_score r = (if return_scores then Some x else None)
    ∧ r_bm25_score r = (if return_scores then Some b else None)
    ∧ r_dense_score r = (if return_scores then Some d else None).
Proof.
  unfold result_row.
  destruct (chunks self !! idx) as [chunk |]; [| discriminate].
  destruct (combined !! idx) as [x |]; [| discriminate].
  destruct (bn !! idx) as [b |]; [| discriminate].
  destruct (dn !! idx) as [d |]; [| discriminate].
  cbn. intros [= <-]. exists chunk, x, b, d. unfold row_of. cbn. repeat split.
Qed.

Lemma omap_rows {A B} (f : A → option B) (l : list A) :
  ∃ kept, sublist kept l ∧ Forall2 (fun x y => f x = Some y) kept (omap f l).
Proof.
  induction l as [| a l (kept & Hsub & Hall)].
  - exists []. split; constructor.
  - cbn [omap list_omap]. destruct (f a) as [b |] eqn:E.
    + exists (a :: kept). split; [by constructor | by constructor].
    + exists kept. split; [by constructor | exact Hall].
Qed.

Section Rows.

Context {embedding : Type}.
Variable encode : string → embedding.
Variable cosine_similarity : embedding → embedding → Q.
Variable bm25_get_scores : list (list string) → list string → list Q.
Variable argsort : list Q → list nat.
Hypothesis argsort_perm : ∀ scores, argsort scores ≡ₚ seq 0 (length scores).

(** What [retrieve] computes on an index that holds chunks and a BM25
    index: rows for the selected positions of the two normalised score
    arrays. *)
Lemma retrieve_rows (self : HybridRetriever embedding) (query : string)
    (top_k : Z) (return_scores : bool) :
  retrieve encode cosine_similarity bm25_get_scores argsort self query top_k
    return_scores = []
  ∨ ∃ bs ds,
      retrieve encode cosine_similarity bm25_get_scores argsort self query top_k
        return_scores
      = omap (result_row self return_scores
                (combine_scores self (_normalize_scores bs) (_normalize_scores ds))
                (_normalize_scores bs) (_normalize_scores ds))
             (top_indices_of argsort
                (combine_scores self (_normalize_scores bs) (_normalize_scores ds))
                top_k).
Proof.
  unfold retrieve. destruct (chunks self) as [| c cs]; [by left |].
  destruct (bm25 self) as [corpus |]; [| by left].
  right. eexists _, _. reflexivity.
Qed.

Lemma top_indices_distinct (scores : list Q) (top_k : Z) :
  NoDup (top_indices_of argsort scores top_k).
Proof.
  unfold top_indices_of, Py.slice_from.
  rewrite reverse_Permutation. eapply sublist_NoDup; [| apply sublist_drop].
  rewrite (argsort_perm scores). apply NoDup_seq.
Qed.

Lemma retrieve_distinct_rows (self : HybridRetriever embedding) (query : string)
    (top_k : Z) (return_scores : bool) :
  ∃ positions,
    NoDup positions
    ∧ Forall2 (fun idx r => ∃ chunk, chunks self !! idx = Some chunk ∧ row_of chunk r)
        positions
        (retrieve encode cosine_similarity bm25_get_scores argsort self query top_k
           return_scores).
Proof.
  destruct (retrieve_rows self query top_k return_scores) as [-> | (bs & ds & ->)].
  - exists []. split; constructor.
  - match goal with
    | |- context [omap ?f ?l] => destruct (omap_rows f l) as (kept & Hsub & Hall)
    end.
    exists kept. split.
    + eapply sublist_NoDup; [apply top_indices_distinct | exact Hsub].
    + eapply Forall2_impl; [exact Hall |].
      intros idx r Hr. cbv beta in Hr.
      apply result_row_fields in Hr as (chunk & _ & _ & _ & Hc & _ & _ & _ & Hrow & _).
      by exists chunk.
Qed.

Lemma NoDup_bounded_length (positions : list nat) (n : nat) :
  NoDup positions → (∀ i, i ∈ positions → (i < n)%nat) → (length positions ≤ n)%nat.
Proof.
  intros Hnd Hlt.
  assert (Hsub : positions ⊆+ seq 0 n).
  { apply NoDup_submseteq; [exact Hnd |].
    intros i Hi. apply elem_of_seq. specialize (Hlt i Hi). lia. }
  apply submseteq_length in Hsub. by rewrite length_seq in Hsub.
Qed.

End Rows.

(** X18: for every [top_k], zero and negative values included, and with or
    without scores, the rows returned by [retrieve] describe chunks at
    pairwise distinct positions of the index (chunk, text, source, page and
    chunk_id agree with the chunk); so there are never more rows than indexed
    chunks. *)
Theorem retrieve_returns_indexed_chunks {embedding : Type}
    (encode : string → embedding)
    (cosine_similarity : embedding → embedding → Q)
    (bm25_get_scores : list (list string) → list string → list Q)
    (argsort : list Q → list nat)
    (self : HybridRetriever embedding) (query : string) (top_k : Z)
    (return_scores : bool) :
  (∀ scores, argsort scores ≡ₚ seq 0 (length scores)) →
  (∃ positions,
      NoDup positions
      ∧ Forall2 (fun idx r => ∃ chunk, chunks self !! idx = Some chunk ∧ row_of chunk r)
          positions
          (retrieve encode cosine_similarity bm25_get_scores argsort self query top_k
             return_scores))
  ∧ (length (retrieve encode cosine_similarity bm25_get_scores argsort self query
               top_k return_scores)
     ≤ length (chunks self))%nat.
Proof.
  intros Hperm.
  destruct (retrieve_distinct_rows encode cosine_similarity bm25_get_scores argsort
              Hperm self query top_k return_scores) as (positions & Hnd & Hall).
  split; [by exists positions |].
  rewrite <- (Forall2_length _ _ _ Hall).
  apply NoDup_bounded_length; [exact Hnd |].
  intros i Hi. apply list_elem_of_lookup in Hi as [j Hj].
  destruct (Forall2_lookup_l _ _ _ _ _ Hall Hj) as (r & _ & chunk & Hc & _).
  by eapply lookup_lt_Some.
Qed.

(** A witness for X18: the two-chunk index asked for nothing ([top_k = 0]). *)
Lemma retrieve_returns_indexed_chunks_witness :
  (length (Samples.sample_retrieve Samples.sample_index "management fee" 0 true)
   ≤ length (chunks Samples.sample_index))%nat.
Proof.
  apply (retrieve_returns_indexed_chunks Samples.sample_encode
           Samples.sample_similarity Samples.sample_bm25 insertion_argsort
           Samples.sample_index "management fee" 0 true).
  apply insertion_argsort_perm.
Defined.

(** X19: on an aligned index and for a positive [top_k], with BM25 scoring
    every document and [argsort] ordering by ascending score, [retrieve]
    returns exactly [min top_k n] rows out of [n] chunks, in descending order
    of [combined_score], and each combined score is
    [bm25_weight * bm25_score + dense_weight * dense_score]. *)
Theorem retrieve_top_k_ranked {embedding : Type}
    (encode : string → embedding)
    (cosine_similarity : embedding → embedding → Q)
    (bm25_get_scores : list (list string) → list string → list Q)
    (argsort : list Q → list nat)
    (self : HybridRetriever embedding) (query : string) (top_k : Z) :
  (∀ corpus q, length (bm25_get_scores corpus q) = length corpus) →
  (∀ scores, argsort scores ≡ₚ seq 0 (length scores)) →
  (∀ scores i j a b x y,
      (i ≤ j)%nat → argsort scores !! i = Some a → argsort scores !! j = Some b →
      scores !! a = Some x → scores !! b = Some y → (x <= y)%Q) →
  aligned encode self → 0 < top_k →
  Z.of_nat (length (retrieve encode cosine_similarity bm25_get_scores argsort
                      self query top_k true))
  = Z.min top_k (Z.of_nat (length (chunks self)))
  ∧ (∀ i j ri rj,
       (i ≤ j)%nat →
       retrieve encode cosine_similarity bm25_get_scores argsort self query
         top_k true !! i = Some ri →
       retrieve encode cosine_similarity bm25_get_scores argsort self query
         top_k true !! j = Some rj →
       (get_combined_score rj <= get_combined_score ri)%Q)
  ∧ (∀ r,
       r ∈ retrieve encode cosine_similarity bm25_get_scores argsort self query
             top_k true →
       ∃ b d, r_bm25_score r = Some b ∧ r_dense_score r = Some d
              ∧ r_combined_score r
                = Some (bm25_weight self * b + dense_weight self * d)%Q).
Proof.
  intros Hbm Hperm Hasc Hal Hk.
  exact (retrieve_ranked encode cosine_similarity bm25_get_scores argsort
           Hbm Hperm Hasc self query top_k Hal Hk).
Qed.

(** A witness for X19: the best of two chunks. *)
Lemma retrieve_top_k_ranked_witness :
  Z.of_nat (length (Samples.sample_retrieve Samples.sample_index "management fee" 1 true))
  = Z.min 1 (Z.of_nat (length (chunks Samples.sample_index))).
Proof.
  apply (retrieve_top_k_ranked Samples.sample_encode Samples.sample_similarity
           Samples.sample_bm25 insertion_argsort Samples.sample_index
           "management fee" 1).
  - intros corpus q. unfold Samples.sample_bm25. apply length_map.
  - apply insertion_argsort_perm.
  - apply insertion_argsort_ascending.
  - apply index_aligned. by left.
  - lia.
Defined.

(** X20: whatever the index and [top_k], every row returned with scores has
    a BM25 score and a dense score in [0,1] and the combined score
    [bm25_weight * bm25_score + dense_weight * dense_score]; with
    non-negative weights whose sum is at most 1, as the defaults 0.5 and 0.5,
    the combined score is in [0,1] too. *)
Theorem retrieved_scores_in_unit_interval {embedding : Type}
    (encode : string → embedding)
    (cosine_similarity : embedding → embedding → Q)
    (bm25_get_scores : list (list string) → list string → list Q)
    (argsort : list Q → list nat)
    (self : HybridRetriever embedding) (query : string) (top_k : Z)
    (r : RetrievedChunk) :
  r ∈ retrieve encode cosine_similarity bm25_get_scores argsort self query top_k true →
  ∃ b d,
    r_bm25_score r = Some b ∧ r_dense_score r = Some d
    ∧ r_combined_score r = Some (bm25_weight self * b + dense_weight self * d)%Q
    ∧ (0 <= b)%Q ∧ (b <= 1)%Q ∧ (0 <= d)%Q ∧ (d <= 1)%Q
    ∧ ((0 <= bm25_weight self)%Q → (0 <= dense_weight self)%Q →
       (bm25_weight self + dense_weight self <= 1)%Q →
       (0 <= get_combined_score r)%Q ∧ (get_combined_score r <= 1)%Q).
Proof.
  intros Hr.
  destruct (retrieve_rows encode cosine_similarity bm25_get_scores argsort
              self query top_k true) as [E | (bs & ds & E)];
    rewrite E in Hr; [by apply elem_of_nil in Hr |].
  apply list_elem_of_omap in Hr as (idx & _ & Hrow).
  apply result_row_fields in Hrow
    as (chunk & x & b & d & _ & Hx & Hb & Hd & _ & Hsx & Hsb & Hsd).
  exists b, d.
  unfold combine_scores in Hx. rewrite lookup_zip_with, Hb in Hx. cbn in Hx.
  rewrite Hd in Hx. cbn in Hx. injection Hx as <-.
  destruct (normalize_range bs b (list_elem_of_lookup_2 _ _ _ Hb)) as [Hb0 Hb1].
  destruct (normalize_range ds d (list_elem_of_lookup_2 _ _ _ Hd)) as [Hd0 Hd1].
  repeat (split; [assumption |]).
  intros Hw1 Hw2 Hsum. unfold get_combined_score. rewrite Hsx. cbn [default].
  unfold from_option, id. split; nra.
Qed.

(** A witness for X20: the best row of the two-chunk index. *)
Lemma retrieved_scores_in_unit_interval_witness :
  ∃ r b,
    retrieve Samples.sample_encode Samples.sample_similarity Samples.sample_bm25
      insertion_argsort Samples.sample_index "management fee" 1 true = [r]
    ∧ r_bm25_score r = Some b ∧ (0 <= b)%Q ∧ (b <= 1)%Q.
Proof.
  assert (H : ∃ r, retrieve Samples.sample_encode Samples.sample_similarity
                     Samples.sample_bm25 insertion_argsort Samples.sample_index
                     "management fee" 1 true = [r])
    by (vm_compute; eexists; reflexivity).
  destruct H as [r Hr].
  destruct (retrieved_scores_in_unit_interval Samples.sample_encode
              Samples.sample_similarity Samples.sample_bm25 insertion_argsort
              Samples.sample_index "management fee" 1 r)
    as (b & d & Hb & _ & _ & Hb0 & Hb1 & _).
  - rewrite Hr. apply list_elem_of_singleton. reflexivity.
  - exists r, b. repeat split; assumption.
Defined.

Lemma omap_fmap_rows {A B} (f h : A → option B) (g : B → B) (l : list A) :
  (∀ x, f x = g <$> h x) → omap f l = g <$> omap h l.
Proof.
  intros Hf. induction l as [| a l IH]; [reflexivity |].
  cbn [omap list_omap]. rewrite Hf. destruct (h a) as [b |]; cbn; by rewrite IH.
Qed.

(** X21: asking for rows without scores gives the same chunks in the same
    order as asking with scores: the result is the scored result with the
    three score fields removed, on every index and for every [top_k]. *)
Theorem retrieve_without_scores {embedding : Type}
    (encode : string → embedding)
    (cosine_similarity : embedding → embedding → Q)
    (bm25_get_scores : list (list string) → list string → list Q)
    (argsort : list Q → list nat)
    (self : HybridRetriever embedding) (query : string) (top_k : Z) :
  retrieve encode cosine_similarity bm25_get_scores argsort self query top_k false
  = map without_scores
      (retrieve encode cosine_similarity bm25_get_scores argsort self query top_k true).
Proof.
  unfold retrieve. destruct (chunks self) as [| c cs] eqn:Ec; [reflexivity |].
  destruct (bm25 self) as [corpus |]; [| reflexivity].
  rewrite map_fmap. apply omap_fmap_rows. intros idx.
  unfold result_row. rewrite Ec.
  destruct ((c :: cs) !! idx) as [chunk |]; [| reflexivity].
  cbn.
  match goal with
  | |- context [combine_scores self ?bn ?dn !! idx] =>
      destruct (combine_scores self bn dn !! idx) as [x |]; [| reflexivity];
      cbn; destruct (bn !! idx) as [b |]; [| reflexivity];
      cbn; destruct (dn !! idx) as [d |]; reflexivity
  end.
Qed.

End RetrieverMore.

(** ** The pipeline: loading and the normal query path *)

Module PipelineMore.
Import Validator Chunker Retriever Pipeline Notions RetrieverSpec ChunkerMore.

Section Loading.

Context {embedding : Type}.
Variable encode : string → embedding.
Variable basename : string → string.
Variable pdf_open : string → option (list PageExtract).
Variable glob_pdf : string → list string.
Variable path_kind : string → PathKind.

Lemma ready_after_index (p : RAGPipeline embedding)
    (incoming : list DocumentChunk) (append : bool) :
  ready encode p → incoming ≠ [] →
  ready encode
    {| document_processor := document_processor p;
       retriever := index_documents encode (retriever p) incoming append;
       validator := validator p;
       top_k := top_k p;
       _documents_loaded := true |}.
Proof.
  intros [_ Hal] Hne. split; cbn.
  - split; [intros _; by apply index_nonempty | done].
  - by apply index_aligned.
Qed.

Lemma index_grows (st : HybridRetriever embedding) (incoming : list DocumentChunk) :
  (length (chunks st) ≤ length (chunks (index_documents encode st incoming true)))%nat.
Proof.
  destruct (decide (incoming = [])) as [-> | Hi]; [reflexivity |].
  destruct (decide (chunks st = [])) as [Hs | Hs].
  - rewrite Hs. cbn. lia.
  - rewrite index_append_chunks, length_app by done. lia.
Qed.

End Loading.

(** X22: the pipeline built by [__init__] is consistent (the ready flag is
    off and nothing is indexed), and [load_documents] keeps it so: a path
    that is neither file nor directory raises ValueError; any other load
    returns a pipeline whose ready flag is on exactly when chunks are
    indexed, with an aligned index and with the same processor, validator
    and [top_k]; the flag never goes back off, and with [append] no chunk is
    lost. *)
Theorem load_documents_keeps_ready {embedding : Type}
    (encode : string → embedding) (basename : string → string)
    (pdf_open : string → option (list PageExtract))
    (glob_pdf : string → list string) (path_kind : string → PathKind)
    (p : RAGPipeline embedding) (document_path : string) (append : bool) :
  0 ≤ chunk_overlap (document_processor p) →
  chunk_overlap (document_processor p) + 199 ≤ chunk_size (document_processor p) →
  ready encode p →
  ready encode (@new_pipeline embedding)
  ∧ (path_kind document_path = NoSuchPath →
     load_documents encode basename pdf_open glob_pdf path_kind p document_path append
     = RaisesValueError ("Invalid path: " ++ document_path))
  ∧ (path_kind document_path ≠ NoSuchPath →
     ∃ p',
       load_documents encode basename pdf_open glob_pdf path_kind p document_path
         append = Returns p'
       ∧ ready encode p'
       ∧ document_processor p' = document_processor p
       ∧ validator p' = validator p
       ∧ top_k p' = top_k p
       ∧ (_documents_loaded p = true → _documents_loaded p' = true)
       ∧ (append = true →
          (length (chunks (retriever p)) ≤ length (chunks (retriever p')))%nat)).
Proof.
  intros HO HS Hready.
  split; [split; [cbn; split; [discriminate | done] | by left] |].
  split.
  { intros E. unfold load_documents. rewrite E. reflexivity. }
  intros Hkind.
  assert (Hproc : ∃ chunks,
    match path_kind document_path with
    | IsFile =>
        match process_pdf basename pdf_open (document_processor p) document_path with
        | Some chunks => Returns chunks
        | None => OutOfFuel
        end
    | IsDir =>
        match process_directory basename pdf_open glob_pdf
                (document_processor p) document_path with
        | Some chunks => Returns chunks
        | None => OutOfFuel
        end
    | NoSuchPath => RaisesValueError ("Invalid path: " ++ document_path)
    end = Returns chunks).
  { destruct (path_kind document_path); [| | done].
    - destruct (process_pdf_spec basename pdf_open (document_processor p)
                  document_path HO HS) as (chunks & -> & _).
      by exists chunks.
    - destruct (process_directory_spec basename pdf_open glob_pdf
                  (document_processor p) document_path HO HS) as (chunks & -> & _).
      by exists chunks. }
  destruct Hproc as (chunks & Hproc).
  unfold load_documents. rewrite Hproc.
  destruct chunks as [| c cs].
  - exists p. split; [reflexivity |]. split; [exact Hready |].
    repeat split; done.
  - eexists. split; [reflexivity |].
    split; [by apply ready_after_index |].
    cbn [document_processor validator top_k _documents_loaded retriever].
    split; [reflexivity |]. split; [reflexivity |]. split; [reflexivity |].
    split; [done |]. intros ->. apply index_grows.
Qed.

(** A witness for X22: loading the two-page file into a fresh pipeline. *)
Lemma load_documents_keeps_ready_witness :
  ∃ p',
    load_documents Samples.sample_encode Samples.posix_basename Samples.two_page_pdf
      Samples.sample_glob Samples.sample_path_kind (@new_pipeline (list string))
      "reports/fund.pdf" false = Returns p'
    ∧ ready Samples.sample_encode p'.
Proof.
  destruct (load_documents_keeps_ready Samples.sample_encode Samples.posix_basename
              Samples.two_page_pdf Samples.sample_glob Samples.sample_path_kind
              (@new_pipeline (list string)) "reports/fund.pdf" false)
    as (_ & _ & Hload).
  - simpl. lia.
  - simpl. lia.
  - split; [cbn; split; [discriminate | done] | by left].
  - destruct Hload as (p' & Hrun & Hready & _); [discriminate |].
    exists p'. split; [exact Hrun | exact Hready].
Defined.

(** X23: on a consistent pipeline with documents loaded and a positive
    [top_k], [query] takes the normal path: the retrieval is not empty, the
    answer is the text generated from the retrieved texts, the sources are
    the retrieved rows (or none when not requested), validation is run on
    that answer and those rows exactly when requested, the metadata counts
    the rows, carries no [error] tag, and its [top_retrieval_score] is the
    largest combined score of the rows. *)
Theorem query_normal_path {embedding : Type}
    (encode : string → embedding)
    (cosine_similarity : embedding → embedding → Q)
    (bm25_get_scores : list (list string) → list string → list Q)
    (argsort : list Q → list nat)
    (generate : string → list string → Z → Q → LLMResponse)
    (format_2f : Q → string)
    (p : RAGPipeline embedding) (question : string)
    (return_sources validate_ : bool) :
  (∀ corpus q, length (bm25_get_scores corpus q) = length corpus) →
  (∀ scores, argsort scores ≡ₚ seq 0 (length scores)) →
  (∀ scores i j a b x y,
      (i ≤ j)%nat → argsort scores !! i = Some a → argsort scores !! j = Some b →
      scores !! a = Some x → scores !! b = Some y → (x <= y)%Q) →
  ready encode p → _documents_loaded p = true → 0 < top_k p →
  ∃ first rest,
    retrieve encode cosine_similarity bm25_get_scores argsort (retriever p)
      question (top_k p) true = first :: rest
    ∧ Z.of_nat (length (first :: rest))
      = Z.min (top_k p) (Z.of_nat (length (chunks (retriever p))))
    ∧ answer (query encode cosine_similarity bm25_get_scores argsort generate
                format_2f p question return_sources validate_)
      = llm_text (generate question (map get_text (first :: rest)) 500 (1 # 10))
    ∧ sources (query encode cosine_similarity bm25_get_scores argsort generate
                 format_2f p question return_sources validate_)
      = (if return_sources then first :: rest else [])
    ∧ validation (query encode cosine_similarity bm25_get_scores argsort generate
                    format_2f p question return_sources validate_)
      = (if validate_
         then Some (validate format_2f (validator p) question
                      (llm_text (generate question (map get_text (first :: rest))
                                   500 (1 # 10)))
                      (first :: rest))
         else None)
    ∧ metadata (query encode cosine_similarity bm25_get_scores argsort generate
                  format_2f p question return_sources validate_) !! "retrieval_count"
      = Some (MInt (Z.of_nat (length (first :: rest))))
    ∧ metadata (query encode cosine_similarity bm25_get_scores argsort generate
                  format_2f p question return_sources validate_) !! "top_retrieval_score"
      = Some (MFloat (get_combined_score first))
    ∧ metadata (query encode cosine_similarity bm25_get_scores argsort generate
                  format_2f p question return_sources validate_) !! "error" = None
    ∧ ∀ row, row ∈ first :: rest →
        (get_combined_score row <= get_combined_score first)%Q.
Proof.
  intros Hbm Hperm Hasc [Hflag Hal] Hloaded Hk.
  destruct (retrieve_ranked encode cosine_similarity bm25_get_scores argsort
              Hbm Hperm Hasc (retriever p) question (top_k p) Hal Hk)
    as (Hlen & Hdesc & _).
  assert (Hn : chunks (retriever p) ≠ []) by (by apply Hflag).
  destruct (retrieve encode cosine_similarity bm25_get_scores argsort (retriever p)
              question (top_k p) true) as [| first rest] eqn:E.
  { exfalso. cbn [length] in Hlen.
    destruct (chunks (retriever p)); [done | cbn [length] in Hlen; lia]. }
  exists first, rest. split; [reflexivity |]. split; [exact Hlen |].
  unfold query. rewrite Hloaded, E. cbn [negb answer sources validation metadata].
  split; [reflexivity |]. split; [reflexivity |]. split; [reflexivity |].
  split; [by rewrite lookup_insert_eq |].
  split; [by rewrite !lookup_insert_ne, lookup_insert_eq by done |].
  split; [by rewrite !lookup_insert_ne, lookup_empty by done |].
  intros row Hrow. apply list_elem_of_lookup in Hrow as [j Hj].
  apply (Hdesc 0%nat j first row); [lia | reflexivity | exact Hj].
Qed.

(** A witness for X23: the two-chunk index behind a default pipeline. *)
Lemma query_normal_path_witness :
  ∃ first rest,
    retrieve Samples.sample_encode Samples.sample_similarity Samples.sample_bm25
      insertion_argsort Samples.sample_index "management fee" 5 true
    = first :: rest.
Proof.
  destruct (query_normal_path Samples.sample_encode Samples.sample_similarity
              Samples.sample_bm25 insertion_argsort Samples.sample_generate
              (fun _ => "0.00")
              {| document_processor := default_processor;
                 retriever := Samples.sample_index;
                 validator := default_validator;
                 top_k := 5;
                 _documents_loaded := true |}
              "management fee" true true)
    as (first & rest & Hrun & _).
  - intros corpus q. unfold Samples.sample_bm25. apply length_map.
  - apply insertion_argsort_perm.
  - apply insertion_argsort_ascending.
  - split; [cbn; split; [intros _; vm_compute; discriminate | done]
           | apply index_aligned; by left].
  - reflexivity.
  - cbn. lia.
  - exists first, rest. exact Hrun.
Defined.

(** X24: on every pipeline state, the response carries a validation result
    exactly when documents are loaded, the retrieval is not empty and
    validation was requested. *)
Theorem validation_presence {embedding : Type}
    (encode : string → embedding)
    (cosine_similarity : embedding → embedding → Q)
    (bm25_get_scores : list (list string) → list string → list Q)
    (argsort : list Q → list nat)
    (generate : string → list string → Z → Q → LLMResponse)
    (format_2f : Q → string)
    (p : RAGPipeline embedding) (question : string)
    (return_sources validate_ : bool) :
  is_Some (validation (query encode cosine_similarity bm25_get_scores argsort
                         generate format_2f p question return_sources validate_))
  ↔ _documents_loaded p = true
    ∧ retrieve encode cosine_similarity bm25_get_scores argsort (retriever p)
        question (top_k p) true ≠ []
    ∧ validate_ = true.
Proof.
  unfold query.
  destruct (_documents_loaded p); cbn [negb].
  - destruct (retrieve encode cosine_similarity bm25_get_scores argsort (retriever p)
                question (top_k p) true) as [| first rest]; cbn [validation].
    + split; [intros [x Hx]; discriminate Hx | intros (_ & H & _); done].
    + destruct validate_; split.
      * intros _. done.
      * intros _. by eexists.
      * intros [x Hx]. discriminate Hx.
      * intros (_ & _ & H). discriminate H.
  - cbn [validation]. split; [intros [x Hx]; discriminate Hx |].
    intros (H & _). discriminate H.
Qed.

End PipelineMore.

(** ** The language-model providers *)

Module ProvidersMore.
Import Validator Pipeline Providers Notions PyFacts ChunkerMore ValidatorMore.

Lemma chars_app (a b : string) : Py.chars (a ++ b) = (Py.chars a ++ Py.chars b)%list.
Proof.
  unfold Py.chars. induction a as [| c a IH]; [reflexivity |].
  simpl. f_equal. exact IH.
Qed.

Lemma is_prefix_app (p x y : list ascii) :
  Py.is_prefix p x = true → Py.is_prefix p (x ++ y) = true.
Proof.
  revert x. induction p as [| a p IH]; intros x H; [reflexivity |].
  destruct x as [| b x]; [discriminate H |].
  cbn in *. destruct (Ascii.eqb a b); [by apply IH | discriminate H].
Qed.

Lemma contains_false_iff (p l : list ascii) :
  Py.contains_chars p l = false
  ↔ ∀ k, (k ≤ length l)%nat → Py.is_prefix p (drop k l) = false.
Proof.
  induction l as [| c l IH].
  - cbn. rewrite orb_false_r. split.
    + intros H k Hk. by destruct k.
    + intros H. apply (H 0%nat). lia.
  - cbn [Py.contains_chars]. rewrite orb_false_iff, IH. split.
    + intros [H0 Hk] k Hle. destruct k as [| k]; [exact H0 |].
      cbn [drop]. apply Hk. cbn in Hle. lia.
    + intros H. split; [apply (H 0%nat); lia |].
      intros k Hk. apply (H (S k)). cbn. lia.
Qed.

Lemma contains_middle (p a m b : list ascii) :
  Py.contains_chars p (a ++ m ++ b) = false → Py.contains_chars p m = false.
Proof.
  rewrite !contains_false_iff. intros H k Hk.
  specialize (H (length a + k)%nat).
  rewrite drop_app_add' in H by reflexivity.
  destruct (Py.is_prefix p (drop k m)) eqn:E; [| reflexivity].
  rewrite <- H.
  - symmetry. rewrite drop_app_le by lia. by apply is_prefix_app.
  - rewrite !length_app. lia.
Qed.

Lemma strip_middle (s : string) :
  ∃ a b, Py.chars s = (a ++ Py.chars (Py.strip s) ++ b)%list.
Proof.
  rewrite strip_chars.
  destruct (lstrip_suffix (Py.chars s)) as [a Ha].
  destruct (lstrip_suffix (rev (Py.lstrip_chars (Py.chars s)))) as [q Hq].
  apply (f_equal (@rev ascii)) in Hq. rewrite rev_involutive, rev_app_distr in Hq.
  exists a, (rev q). rewrite Ha at 1. by rewrite Hq at 1.
Qed.

Lemma contains_strip (p s : string) :
  Py.contains p s = false → Py.contains p (Py.strip s) = false.
Proof.
  unfold Py.contains. destruct (strip_middle s) as (a & b & ->).
  apply contains_middle.
Qed.

Lemma split_sep_nonempty (fuel : nat) (sep cur l : list ascii) :
  split_sep_chars fuel sep cur l ≠ [].
Proof.
  revert cur l. induction fuel as [| fuel IH]; intros cur l; [done |].
  cbn [split_sep_chars]. destruct l as [| c l]; [done |].
  destruct (Py.is_prefix sep (c :: l)); [done | apply IH].
Qed.

Lemma last_piece_cons (x : string) (l : list string) :
  l ≠ [] → last_piece (x :: l) = last_piece l.
Proof. destruct l; [done | reflexivity]. Qed.

Lemma split_sep_last_clean (sep : list ascii) (fuel : nat) :
  sep ≠ [] →
  ∀ cur l,
    (length l < fuel)%nat →
    (∀ k, (k < length cur)%nat → Py.is_prefix sep (drop k (rev cur ++ l)) = false) →
    Py.contains_chars sep (Py.chars (last_piece (split_sep_chars fuel sep cur l)))
    = false.
Proof.
  intros Hsep. induction fuel as [| fuel IH]; intros cur l Hfuel Hinv; [lia |].
  cbn [split_sep_chars]. destruct l as [| c l].
  - unfold last_piece. cbn [List.last]. rewrite chars_str.
    apply contains_false_iff. intros k Hk.
    destruct (decide (k < length cur)%nat) as [Hlt | Hge].
    + specialize (Hinv k Hlt). by rewrite app_nil_r in Hinv.
    + pose proof (length_rev cur) as Hrev.
      rewrite drop_ge by lia.
      destruct sep; [done | reflexivity].
  - destruct (Py.is_prefix sep (c :: l)) eqn:E.
    + rewrite last_piece_cons by apply split_sep_nonempty.
      apply IH.
      * assert (0 < length sep)%nat by (destruct sep; [done | cbn; lia]).
        rewrite length_drop. cbn [length] in *. lia.
      * intros k Hk. cbn in Hk. lia.
    + apply IH; [cbn [length] in Hfuel; lia |].
      intros k Hk. cbn [rev length] in *. rewrite <- app_assoc. cbn [app].
      destruct (decide (k < length cur)%nat) as [Hlt | Hge]; [by apply Hinv |].
      pose proof (length_rev cur) as Hrev.
      assert (k = length (rev cur)) as -> by lia.
      by rewrite drop_app_length.
Qed.

Lemma last_piece_no_marker (sep s : string) :
  sep ≠ "" → Py.contains sep (last_piece (split_sep sep s)) = false.
Proof.
  intros Hsep. unfold Py.contains, split_sep.
  apply split_sep_last_clean.
  - destruct sep; [done | discriminate].
  - rewrite length_chars. lia.
  - intros k Hk. cbn in Hk. lia.
Qed.

(** X25: [HuggingFaceProvider.generate] never raises. When the client
    answers, the returned text holds no "ANSWER:" marker (what precedes the
    last marker is cut off and the rest stripped), and a reply without marker
    is returned as it is; when the call fails, the text is
    "Error generating response: " followed by the error.  The response
    always names the provider's model and reports no token count. *)
Theorem hf_generate_cuts_marker
    (chat_completion : string → string → Z → Q → string + string)
    (model_name prompt : string) (context : list string) (max_tokens : Z)
    (temperature : Q) :
  llm_model (hf_generate chat_completion model_name prompt context max_tokens
               temperature) = model_name
  ∧ llm_tokens_used (hf_generate chat_completion model_name prompt context
                       max_tokens temperature) = None
  ∧ (∀ content,
       chat_completion model_name (format_prompt prompt context) max_tokens
         temperature = inl content →
       Py.contains "ANSWER:"
         (llm_text (hf_generate chat_completion model_name prompt context
                      max_tokens temperature)) = false
       ∧ (Py.contains "ANSWER:" content = false →
          llm_text (hf_generate chat_completion model_name prompt context
                      max_tokens temperature) = content))
  ∧ (∀ e,
       chat_completion model_name (format_prompt prompt context) max_tokens
         temperature = inr e →
       llm_text (hf_generate chat_completion model_name prompt context max_tokens
                   temperature) = "Error generating response: " ++ e).
Proof.
  unfold hf_generate.
  destruct (chat_completion model_name (format_prompt prompt context) max_tokens
              temperature) as [content | e]; cbn [llm_model llm_tokens_used llm_text].
  - split; [reflexivity |]. split; [reflexivity |]. split; [| intros e H; discriminate H].
    intros c [= <-]. destruct (Py.contains "ANSWER:" content) eqn:E.
    + split; [| intros H; discriminate H].
      apply contains_strip, last_piece_no_marker. discriminate.
    + split; [exact E | reflexivity].
  - split; [reflexivity |]. split; [reflexivity |].
    split; [intros c H; discriminate H |]. by intros e' [= <-].
Qed.

(** A witness for X25: a model that repeats the prompt before answering. *)
Lemma hf_generate_cuts_marker_witness :
  Py.contains "ANSWER:"
    (llm_text (hf_generate (fun _ p _ _ => inl (p ++ " The fee is 2%. ")) "m"
                 "What is the fee?" ["The management fee is 2% annually."] 500
                 (1 # 10))) = false.
Proof.
  apply (proj1 (proj2 (proj2 (hf_generate_cuts_marker
                  (fun _ p _ _ => inl (p ++ " The fee is 2%. ")) "m"
                  "What is the fee?" ["The management fee is 2% annually."]
                  500 (1 # 10))))
           (format_prompt "What is the fee?" ["The management fee is 2% annually."]
            ++ " The fee is 2%. ")).
  reflexivity.
Defined.

Lemma has_digit_app (a b : string) :
  has_digit (a ++ b) = has_digit a || has_digit b.
Proof. unfold has_digit. by rewrite chars_app, existsb_app. Qed.

(** X26: [MockProvider.generate] names its model and counts the words of
    its answer as tokens.  Without context it returns the fixed "cannot find"
    sentence, which holds no digit; with context its answer always holds
    digits, so the numerical-accuracy check always applies to it. *)
Theorem mock_generate_shape (model_name prompt : string) (context : list string)
    (max_tokens : Z) (temperature : Q) :
  llm_model (mock_generate model_name prompt context max_tokens temperature)
  = model_name
  ∧ llm_tokens_used (mock_generate model_name prompt context max_tokens temperature)
    = Some (Z.of_nat
              (length (Py.split (llm_text (mock_generate model_name prompt context
                                             max_tokens temperature)))))
  ∧ (context = [] →
     llm_text (mock_generate model_name prompt context max_tokens temperature)
     = "I cannot find this information in the provided documents."
     ∧ ∀ chunks,
         has_numbers (_check_numerical_accuracy
                        (llm_text (mock_generate model_name prompt context
                                     max_tokens temperature)) chunks) = false)
  ∧ (context ≠ [] →
     ∀ chunks,
       has_numbers (_check_numerical_accuracy
                      (llm_text (mock_generate model_name prompt context
                                   max_tokens temperature)) chunks) = true).
Proof.
  split; [reflexivity |]. split; [reflexivity |]. split.
  - intros ->. split; [reflexivity |]. intros chunks.
    rewrite has_numbers_digit. reflexivity.
  - intros Hne chunks. rewrite has_numbers_digit.
    destruct context as [| c cs]; [done |].
    unfold mock_generate. cbn [llm_text]. unfold _generate_mock_answer. cbv zeta.
    rewrite !has_digit_app.
    assert (Hlit : has_digit "(Note: This is a demonstration response. With a real 7B model like Mistral-7B-Instruct, " = true)
      by reflexivity.
    rewrite Hlit. rewrite ?orb_true_r, ?orb_true_l. reflexivity.
Qed.

(** A witness for X26. *)
Lemma mock_generate_shape_witness :
  has_numbers (_check_numerical_accuracy
                 (llm_text (mock_generate "mock-7b" "What is the fee?"
                              ["The management fee is two percent."] 500 (1 # 10)))
                 Samples.fee_context) = true.
Proof.
  apply (mock_generate_shape "mock-7b" "What is the fee?"
           ["The management fee is two percent."] 500 (1 # 10)).
  discriminate.
Defined.

End ProvidersMore.

(** ** Cleaning and tokens *)

Module CleaningMore.
Import Notions PyFacts ChunkerMore ProvidersMore.

Section Tokens.


Lemma split_word_prefix (w : list ascii) :
  Forall (fun c => Py.isspace c = false) w →
  ∀ cur l, Py.split_chars cur (w ++ l) = Py.split_chars (rev w ++ cur) l.
Proof.
  induction 1 as [| c w Hc _ IH]; intros cur l; [reflexivity |].
  cbn [app Py.split_chars]. rewrite Hc, IH. cbn [rev]. by rewrite <- app_assoc.
Qed.

Lemma split_words (l : list ascii) :
  ∀ cur, Forall (fun c => Py.isspace c = false) cur →
    Forall (fun w => Py.chars w ≠ [] ∧ Forall (fun c => Py.isspace c = false) (Py.chars w)) (Py.split_chars cur l).
Proof.
  assert (Hemit : ∀ cur, Forall (fun c => Py.isspace c = false) cur → cur ≠ [] →
            Py.chars (Py.str (rev cur)) ≠ [] ∧ Forall (fun c => Py.isspace c = false) (Py.chars (Py.str (rev cur)))).
  { intros cur Hcur Hne. rewrite chars_str. split.
    - intros E. apply (f_equal (@rev ascii)) in E. rewrite rev_involutive in E. done.
    - apply Forall_forall. intros c Hc.
      apply list_elem_of_In, in_rev, list_elem_of_In in Hc.
      by apply (proj1 (Forall_forall _ _) Hcur). }
  induction l as [| c l IH]; intros cur Hcur.
  - cbn. destruct cur; [constructor |]. constructor; [by apply Hemit | constructor].
  - cbn [Py.split_chars]. destruct (Py.isspace c) eqn:Ec.
    + destruct cur as [| a cur]; [apply IH; constructor |].
      constructor; [by apply Hemit | apply IH; constructor].
    + apply IH. by constructor.
Qed.

Lemma split_join (ws : list string) :
  Forall (fun w => Py.chars w ≠ [] ∧ Forall (fun c => Py.isspace c = false) (Py.chars w)) ws →
  Py.split (Py.join " " ws) = ws.
Proof.
  unfold Py.split. induction 1 as [| w ws [Hne Hw] Hws IH]; [reflexivity |].
  destruct ws as [| w2 ws].
  - cbn [Py.join]. rewrite <- (app_nil_r (Py.chars w)), (split_word_prefix _ Hw).
    rewrite app_nil_r. cbn.
    destruct (rev (Py.chars w)) as [| a r] eqn:E.
    + apply (f_equal (@rev ascii)) in E. rewrite rev_involutive in E. done.
    + rewrite <- E, rev_involutive, str_chars. reflexivity.
  - change (Py.join " " (w :: w2 :: ws)) with (w ++ " " ++ Py.join " " (w2 :: ws)).
    rewrite !chars_app, (split_word_prefix _ Hw), app_nil_r.
    change (Py.chars " ") with [" "%char]. cbn [app Py.split_chars].
    change (Py.isspace " ") with true. cbv iota.
    destruct (rev (Py.chars w)) as [| a r] eqn:E.
    + apply (f_equal (@rev ascii)) in E. rewrite rev_involutive in E. done.
    + rewrite <- E, rev_involutive, str_chars. f_equal. exact IH.
Qed.

Lemma split_lstrip (l : list ascii) :
  Py.split_chars [] (Py.lstrip_chars l) = Py.split_chars [] l.
Proof.
  induction l as [| c l IH]; [reflexivity |].
  cbn [Py.lstrip_chars Py.split_chars]. destruct (Py.isspace c) eqn:Ec; [exact IH |].
  cbn [Py.split_chars]. by rewrite Ec.
Qed.

Lemma split_blank_tail (tail : list ascii) :
  Forall (fun c => Py.isspace c = true) tail → ∀ m cur, Py.split_chars cur (m ++ tail) = Py.split_chars cur m.
Proof.
  intros Ht. induction m as [| c m IH]; intros cur.
  - cbn [app]. rewrite (split_blank tail cur Ht). reflexivity.
  - cbn [app Py.split_chars]. destruct (Py.isspace c); [destruct cur |]; by rewrite ?IH.
Qed.

Lemma lstrip_blank_prefix (l : list ascii) :
  ∃ p, l = (p ++ Py.lstrip_chars l)%list ∧ Forall (fun c => Py.isspace c = true) p.
Proof.
  induction l as [| c l (p & Hp & Hsp)]; [exists []; split; [done | constructor] |].
  cbn [Py.lstrip_chars]. destruct (Py.isspace c) eqn:Ec.
  - exists (c :: p). split; [cbn; by rewrite <- Hp | by constructor].
  - exists []. split; [done | constructor].
Qed.

Lemma split_strip (s : string) : Py.split (Py.strip s) = Py.split s.
Proof.
  unfold Py.split. rewrite strip_chars.
  transitivity (Py.split_chars [] (Py.lstrip_chars (Py.chars s)));
    [| apply split_lstrip].
  generalize (Py.lstrip_chars (Py.chars s)). intros L.
  destruct (lstrip_blank_prefix (rev L)) as (q & Hq & Hsp).
  apply (f_equal (@rev ascii)) in Hq. rewrite rev_involutive, rev_app_distr in Hq.
  remember (rev (Py.lstrip_chars (rev L))) as Y eqn:HY. clear HY.
  rewrite Hq. symmetry. apply split_blank_tail.
  apply Forall_forall. intros c Hc.
  apply list_elem_of_In, in_rev, list_elem_of_In in Hc.
  by apply (proj1 (Forall_forall _ _) Hsp).
Qed.

Lemma split_chars_subset (l : list ascii) :
  ∀ cur w c, w ∈ Py.split_chars cur l → c ∈ Py.chars w → c ∈ cur ∨ c ∈ l.
Proof.
  assert (Hemit : ∀ cur c, c ∈ Py.chars (Py.str (rev cur)) → c ∈ cur).
  { intros cur c Hc. rewrite chars_str in Hc.
    by apply list_elem_of_In, in_rev, list_elem_of_In in Hc. }
  induction l as [| a l IH]; intros cur w c Hw Hc.
  - cbn in Hw. destruct cur as [| b cur]; [by apply elem_of_nil in Hw |].
    apply list_elem_of_singleton in Hw as ->. left. by apply Hemit.
  - cbn [Py.split_chars] in Hw. destruct (Py.isspace a).
    + destruct cur as [| b cur].
      * destruct (IH [] w c Hw Hc) as [H | H]; [by apply elem_of_nil in H |].
        right. apply elem_of_cons. by right.
      * apply elem_of_cons in Hw as [-> | Hw]; [left; by apply Hemit |].
        destruct (IH [] w c Hw Hc) as [H | H]; [by apply elem_of_nil in H |].
        right. apply elem_of_cons. by right.
    + destruct (IH (a :: cur) w c Hw Hc) as [H | H].
      * apply elem_of_cons in H as [-> | H]; [right; apply elem_of_cons; by left |].
        by left.
      * right. apply elem_of_cons. by right.
Qed.

Lemma join_subset (ws : list string) (c : ascii) :
  c ∈ Py.chars (Py.join " " ws) → c = " "%char ∨ ∃ w, w ∈ ws ∧ c ∈ Py.chars w.
Proof.
  induction ws as [| w ws IH]; intros Hc; [by apply elem_of_nil in Hc |].
  destruct ws as [| w2 ws].
  - right. exists w. split; [apply elem_of_cons; by left | exact Hc].
  - change (Py.join " " (w :: w2 :: ws)) with (w ++ " " ++ Py.join " " (w2 :: ws)) in Hc.
    rewrite !chars_app in Hc. apply elem_of_app in Hc as [Hc | Hc].
    + right. exists w. split; [apply elem_of_cons; by left | exact Hc].
    + apply elem_of_app in Hc as [Hc | Hc].
      * left. by apply list_elem_of_singleton in Hc.
      * destruct (IH Hc) as [H | (x & Hx & Hcx)]; [by left |].
        right. exists x. split; [apply elem_of_cons; by right | exact Hcx].
Qed.

Lemma remove_char_absent (a : ascii) (s : string) :
  a ∉ Py.chars s → Py.remove_char a s = s.
Proof.
  intros Ha. unfold Py.remove_char.
  rewrite <- (str_chars s) at 2. f_equal.
  induction (Py.chars s) as [| c l IH]; [reflexivity |].
  cbn [List.filter]. destruct (Ascii.eqb a c) eqn:E.
  - apply Ascii.eqb_eq in E. subst. exfalso. apply Ha, elem_of_cons. by left.
  - cbn [negb]. f_equal. apply IH. intros H. apply Ha, elem_of_cons. by right.
Qed.

End Tokens.

(** X27: cleaning keeps the words of a page: for a text without NUL
    character, splitting the cleaned text on whitespace gives the same tokens
    as splitting the raw text. *)
Theorem clean_text_keeps_tokens (t : string) :
  Chunker.nul ∉ Py.chars t →
  Py.split (Chunker._clean_text t) = Py.split t.
Proof.
  intros Hnul. unfold Chunker._clean_text.
  rewrite split_strip, remove_char_absent.
  - apply split_join. apply split_words. constructor.
  - intros Hin. apply join_subset in Hin as [H | (w & Hw & Hc)]; [discriminate H |].
    destruct (split_chars_subset (Py.chars t) [] w _ Hw Hc) as [H | H];
      [by apply elem_of_nil in H | contradiction].
Qed.

(** A witness for X27. *)
Lemma clean_text_keeps_tokens_witness :
  Py.split (Chunker._clean_text "  The   fee is 2%  ") = Py.split "  The   fee is 2%  ".
Proof.
  apply (clean_text_keeps_tokens "  The   fee is 2%  ").
  compute_done.
Defined.

End CleaningMore.
